(** * Notion API wrapper: markdown/block conversion and block-tree client

    A shallow embedding of the formatting utilities
    ([utils/formatting.py]), the todo property marshalling
    ([models/properties.py]), the page, block and database clients
    ([api/pages.py], [api/blocks.py], [api/databases.py]), the
    configuration helpers ([utils/auth.py]) and the retry decorator of
    the server ([server.py]), with the properties that the
    specification states about them and further ones that the code has.

    Python values are embedded as follows.
    - [str] is a list of characters.  A character is a code point below
      256; whitespace ([str.isspace]) and decimal digits ([\d]) are the
      ones Python recognises in that range.
    - dictionaries, lists and scalars that travel as JSON are values of
      the type [json]; a dictionary is an association list in insertion
      order with unique keys.
    - a raised exception is the left summand of [result]. *)

From Stdlib Require Import String Ascii.
From Stdlib Require Import ZArith Lia Bool Arith PeanoNat List.
From Stdlib Require DecimalNat DecimalFacts.
Import ListNotations.

Set Implicit Arguments.
Set Warnings "-notation-for-abbreviation,-register-all".
Open Scope list_scope.

(** ** Python strings *)

Module Py.

Notation str := (list ascii).

Definition lit (s : string) : str := list_ascii_of_string s.

Fixpoint str_eqb (a b : str) : bool :=
  match a, b with
  | [], [] => true
  | x :: a', y :: b' => Ascii.eqb x y && str_eqb a' b'
  | _, _ => false
  end.

Definition newline : ascii := ascii_of_nat 10.

(** [str.isspace] on one character. *)
Definition isspace (c : ascii) : bool :=
  let n := nat_of_ascii c in
  ((9 <=? n) && (n <=? 13)) || ((28 <=? n) && (n <=? 32))
  || (n =? 133) || (n =? 160).

(** The class [\d] of the [re] module. *)
Definition isdigit (c : ascii) : bool :=
  let n := nat_of_ascii c in (48 <=? n) && (n <=? 57).

Fixpoint lstrip (s : str) : str :=
  match s with
  | [] => []
  | c :: r => if isspace c then lstrip r else s
  end.

Definition rstrip (s : str) : str := rev (lstrip (rev s)).

Definition strip (s : str) : str := lstrip (rstrip s).

(** [s.startswith(p)] *)
Fixpoint startswith (p s : str) : bool :=
  match p, s with
  | [], _ => true
  | x :: p', y :: s' => Ascii.eqb x y && startswith p' s'
  | _ :: _, [] => false
  end.

(** [s.split(sep)] for a one-character separator. *)
Fixpoint split (sep : ascii) (s : str) : list str :=
  match s with
  | [] => [[]]
  | c :: r =>
      if Ascii.eqb c sep then [] :: split sep r
      else match split sep r with
           | h :: t => (c :: h) :: t
           | [] => [[c]]
           end
  end.

(** [sep.join(parts)] *)
Fixpoint join (sep : str) (parts : list str) : str :=
  match parts with
  | [] => []
  | x :: rest =>
      match rest with
      | [] => x
      | _ :: _ => x ++ sep ++ join sep rest
      end
  end.

Definition digit_char (d : nat) : ascii := ascii_of_nat (48 + d).

Fixpoint digits_of_uint (d : Decimal.uint) : str :=
  match d with
  | Decimal.Nil => []
  | Decimal.D0 r => digit_char 0 :: digits_of_uint r
  | Decimal.D1 r => digit_char 1 :: digits_of_uint r
  | Decimal.D2 r => digit_char 2 :: digits_of_uint r
  | Decimal.D3 r => digit_char 3 :: digits_of_uint r
  | Decimal.D4 r => digit_char 4 :: digits_of_uint r
  | Decimal.D5 r => digit_char 5 :: digits_of_uint r
  | Decimal.D6 r => digit_char 6 :: digits_of_uint r
  | Decimal.D7 r => digit_char 7 :: digits_of_uint r
  | Decimal.D8 r => digit_char 8 :: digits_of_uint r
  | Decimal.D9 r => digit_char 9 :: digits_of_uint r
  end.

(** [str(n)] for a natural number. *)
Definition str_of_nat (n : nat) : str := digits_of_uint (Nat.to_uint n).

Definition str_of_Z (z : Z) : str :=
  match z with
  | Z0 => lit "0"
  | Zpos p => str_of_nat (Pos.to_nat p)
  | Zneg p => lit "-" ++ str_of_nat (Pos.to_nat p)
  end.

(** The character [c] does not occur in [s]. *)
Definition free_of (c : ascii) (s : str) : bool :=
  forallb (fun x => negb (Ascii.eqb x c)) s.

(** Only whitespace. *)
Definition blank (s : str) : bool := forallb isspace s.

(** Text at both ends: [strip] leaves such a string alone. *)
Definition tight (s : str) : bool :=
  match s with
  | [] => false
  | c :: _ => negb (isspace c) && negb (isspace (last s c))
  end.

End Py.

Import Py.

(** ** JSON values, exceptions *)

Inductive json : Type :=
| JNone
| JBool (b : bool)
| JInt (z : Z)
| JStr (s : str)
| JList (l : list json)
| JDict (d : list (str * json)).

Notation dict := (list (str * json)).

(** The reasons for which the code raises [ValueError] (pydantic's
    [ValidationError] is a subclass of it). *)
Inductive value_error : Type :=
| ContentEmpty                 (* "Content cannot be empty" *)
| ContentTooLong               (* "Content length exceeds maximum of 2000 characters" *)
| NotAString                   (* pydantic: input is not a string *)
| InvalidAnnotations (keys : list str)
| ColorNotString               (* "Color annotation must be a string" *)
| InvalidBlockType (t : str)   (* "Invalid block type: ..." *)
| ErrorParsingLine (line : nat) (cause : value_error)
| UnclosedCodeBlock            (* "Unclosed code block at end of markdown" *)
| BatchSizeExceeded            (* "batch_size cannot exceed Notion's limit ..." *)
| RangeStepZero                (* "range() arg 3 must not be zero" *)
| NothingToUpdate              (* "Must provide either properties or archived status" *)
| TaskEmpty                    (* "Task title cannot be empty" *)
| TaskTooLong
| DescriptionTooLong
| PatternMismatch (field : str)
| InvalidIsoformat.

Inductive exn : Type :=
| ValueError (e : value_error)
| KeyError (k : json)
| IndexError
| TypeError
| AttributeError
| HTTPStatusError (status : Z)
| TransportError
| Unmodelled.   (* behaviour of the interpreter left out: the repr of a container *)

Definition result (A : Type) : Type := exn + A.

Notation Ok := (@inr exn _).
Notation Err := (@inl exn _).

Definition rbind {A B} (r : result A) (k : A -> result B) : result B :=
  match r with
  | inl e => inl e
  | inr a => k a
  end.

Notation "x <- r ;; k" := (rbind r (fun x => k))
  (at level 61, r at next level, right associativity).

Module Dict.

Fixpoint get (k : str) (d : dict) : option json :=
  match d with
  | [] => None
  | (k', v) :: r => if str_eqb k k' then Some v else get k r
  end.

(** [d[k] = v]: an existing key keeps its position. *)
Fixpoint set (k : str) (v : json) (d : dict) : dict :=
  match d with
  | [] => [(k, v)]
  | (k', v') :: r => if str_eqb k k' then (k, v) :: r else (k', v') :: set k v r
  end.

(** [d.update(e)] *)
Definition update (d e : dict) : dict :=
  fold_left (fun acc kv => set (fst kv) (snd kv) acc) e d.

Definition mem (k : str) (d : dict) : bool :=
  match get k d with Some _ => true | None => false end.

Definition keys (d : dict) : list str := map fst d.

End Dict.

(** Truth value of an object. *)
Definition truthy (v : json) : bool :=
  match v with
  | JNone => false
  | JBool b => b
  | JInt z => negb (Z.eqb z 0)
  | JStr s => match s with [] => false | _ => true end
  | JList l => match l with [] => false | _ => true end
  | JDict d => match d with [] => false | _ => true end
  end.

(** [obj[key]] *)
Definition getitem (obj key : json) : result json :=
  match obj, key with
  | JDict d, JStr k =>
      match Dict.get k d with
      | Some v => Ok v
      | None => Err (KeyError key)
      end
  | JDict _, (JList _ | JDict _) => Err TypeError
  | JDict _, _ => Err (KeyError key)
  | JList l, JInt z =>
      let n := Z.of_nat (length l) in
      if (0 <=? z)%Z && (z <? n)%Z then
        match nth_error l (Z.to_nat z) with Some v => Ok v | None => Err IndexError end
      else if (z <? 0)%Z && (- n <=? z)%Z then
        match nth_error l (Z.to_nat (n + z)) with Some v => Ok v | None => Err IndexError end
      else Err IndexError
  | JStr s, JInt z =>
      let n := Z.of_nat (length s) in
      if (0 <=? z)%Z && (z <? n)%Z then
        match nth_error s (Z.to_nat z) with Some c => Ok (JStr [c]) | None => Err IndexError end
      else if (z <? 0)%Z && (- n <=? z)%Z then
        match nth_error s (Z.to_nat (n + z)) with Some c => Ok (JStr [c]) | None => Err IndexError end
      else Err IndexError
  | _, _ => Err TypeError
  end.

(** [obj.get(key, default)]: only dictionaries have the method. *)
Definition dget (obj : json) (key : str) (default : json) : result json :=
  match obj with
  | JDict d =>
      match Dict.get key d with
      | Some v => Ok v
      | None => Ok default
      end
  | _ => Err AttributeError
  end.

Definition S_ (s : string) : json := JStr (lit s).

(** ** models/__init__.py, models/properties.py: constants and rich text content *)

Definition MAX_TEXT_LENGTH : nat := 2000.
Definition MAX_TITLE_LENGTH : nat := 100.

Inductive BlockType : Type :=
| PARAGRAPH | HEADING_1 | HEADING_2 | HEADING_3
| BULLETED_LIST | NUMBERED_LIST | TO_DO | TOGGLE
| CODE | QUOTE | CALLOUT | DIVIDER.

Module BlockTypes.

Definition all : list BlockType :=
  [PARAGRAPH; HEADING_1; HEADING_2; HEADING_3; BULLETED_LIST; NUMBERED_LIST;
   TO_DO; TOGGLE; CODE; QUOTE; CALLOUT; DIVIDER].

(** The [.value] of a member. *)
Definition value (t : BlockType) : str :=
  match t with
  | PARAGRAPH => lit "paragraph"
  | HEADING_1 => lit "heading_1"
  | HEADING_2 => lit "heading_2"
  | HEADING_3 => lit "heading_3"
  | BULLETED_LIST => lit "bulleted_list_item"
  | NUMBERED_LIST => lit "numbered_list_item"
  | TO_DO => lit "to_do"
  | TOGGLE => lit "toggle"
  | CODE => lit "code"
  | QUOTE => lit "quote"
  | CALLOUT => lit "callout"
  | DIVIDER => lit "divider"
  end.

(** [BlockType(s)]: the member whose value is [s], if any. *)
Definition of_value (s : str) : option BlockType :=
  find (fun t => str_eqb s (value t)) all.

Definition eqb (a b : BlockType) : bool := str_eqb (value a) (value b).

End BlockTypes.

(** The validated model [RichTextContent]. *)
Record RichTextContent : Type := mkRichTextContent {
  rtc_content : str;
  rtc_link : option json
}.

(** [RichTextContent.validate_content] *)
Definition validate_content (v : str) : result str :=
  if negb (truthy (JStr v)) || negb (truthy (JStr (strip v))) then
    Err (ValueError ContentEmpty)
  else if MAX_TEXT_LENGTH <? length v then
    Err (ValueError ContentTooLong)
  else Ok (strip v).

(** The constructor call [RichTextContent(content=..., link=...)]: the
    field [content] has to be a string and goes through the validator. *)
Definition new_RichTextContent (content : json) (link : option json)
  : result RichTextContent :=
  match content with
  | JStr v =>
      c <- validate_content v ;;
      Ok (mkRichTextContent c link)
  | _ => Err (ValueError NotAString)
  end.

(** ** utils/formatting.py *)

Definition valid_annotations : list str :=
  [lit "bold"; lit "italic"; lit "strikethrough"; lit "underline";
   lit "code"; lit "color"].

Definition invalid_annotation_keys (annotations : dict) : list str :=
  filter (fun k => negb (existsb (str_eqb k) valid_annotations))
         (Dict.keys annotations).

Definition is_str (v : json) : bool :=
  match v with JStr _ => true | _ => false end.

Definition opt_truthy (o : option json) : bool :=
  match o with Some v => truthy v | None => false end.

Definition create_rich_text (content : json) (link : option str)
    (annotations : option dict) : result json :=
  if negb (truthy content) then Err (ValueError ContentEmpty) else
  _ <- match annotations with
       | Some ((_ :: _) as a) =>
           match invalid_annotation_keys a with
           | (_ :: _) as bad => Err (ValueError (InvalidAnnotations bad))
           | [] =>
               match Dict.get (lit "color") a with
               | Some c => if is_str c then Ok tt else Err (ValueError ColorNotString)
               | None => Ok tt
               end
           end
       | _ => Ok tt
       end ;;
  validated_content <-
    new_RichTextContent content
      (match link with
       | Some ((_ :: _) as l) => Some (JDict [(lit "url", JStr l)])
       | _ => None
       end) ;;
  let text :=
    (lit "content", JStr (rtc_content validated_content))
    :: (if opt_truthy (rtc_link validated_content)
        then match rtc_link validated_content with
             | Some l => [(lit "link", l)]
             | None => []
             end
        else []) in
  let rich_text := [(lit "type", S_ "text"); (lit "text", JDict text)] in
  let rich_text :=
    match annotations with
    | Some ((_ :: _) as a) => Dict.set (lit "annotations") (JDict a) rich_text
    | _ => rich_text
    end in
  Ok (JList [JDict rich_text]).

Definition create_block (content : str) (block_type : str)
    (annotations : option dict) (extra_props : option dict) : result json :=
  if negb (truthy (JStr content)) && negb (str_eqb block_type (BlockTypes.value CODE))
  then Err (ValueError ContentEmpty) else
  match BlockTypes.of_value block_type with
  | None => Err (ValueError (InvalidBlockType block_type))
  | Some bt =>
      _ <- match annotations with
           | Some ((_ :: _) as a) =>
               match invalid_annotation_keys a with
               | (_ :: _) as bad => Err (ValueError (InvalidAnnotations bad))
               | [] => Ok tt
               end
           | _ => Ok tt
           end ;;
      let ty := BlockTypes.value bt in
      inner <-
        (if BlockTypes.eqb bt CODE then
           inner <-
             match extra_props with
             | Some ((_ :: _) as e) =>
                 match Dict.get (lit "language") e with
                 | Some language =>
                     rt <- create_rich_text language None None ;;
                     Ok [(lit "rich_text", rt); (lit "language", language)]
                 | None => Ok []
                 end
             | _ => Ok []
             end ;;
           Ok (if truthy (JStr content)
               then Dict.set (lit "content") (JStr content) inner
               else inner)
         else
           rt <- create_rich_text (JStr content) None annotations ;;
           let inner := [(lit "rich_text", rt)] in
           Ok (match extra_props with
               | Some ((_ :: _) as e) => Dict.update inner e
               | _ => inner
               end)) ;;
      Ok (JDict (Dict.set ty (JDict inner) [(lit "type", JStr ty)]))
  end.

(** The state of the loop of [parse_markdown_to_blocks]. *)
Record parser_state : Type := mkParser {
  blocks : list json;
  in_code_block : bool;
  code_content : list str;
  code_language : option str
}.

Definition fence : str := lit "```".

(** [re.match(r'^\d+\. ', line)] and [re.sub(r'^\d+\. ', '', line)]:
    the text after the numeral, the dot and the space. *)
Fixpoint skip_digits (s : str) : str :=
  match s with
  | c :: r => if isdigit c then skip_digits r else s
  | [] => []
  end.

Definition numbered_rest (line : str) : option str :=
  match line with
  | c :: r =>
      if isdigit c then
        match skip_digits r with
        | d :: sp :: rest =>
            if Ascii.eqb d "."%char && Ascii.eqb sp " "%char then Some rest else None
        | _ => None
        end
      else None
  | [] => None
  end.

(** The chain of [if]/[elif] inside the [try]. *)
Definition line_block (line : str) : result json :=
  if startswith (lit "# ") line then
    create_block (strip (skipn 2 line)) (BlockTypes.value HEADING_1) None None
  else if startswith (lit "## ") line then
    create_block (strip (skipn 3 line)) (BlockTypes.value HEADING_2) None None
  else if startswith (lit "### ") line then
    create_block (strip (skipn 4 line)) (BlockTypes.value HEADING_3) None None
  else if startswith (lit "- ") line then
    create_block (strip (skipn 2 line)) (BlockTypes.value BULLETED_LIST) None None
  else match numbered_rest line with
  | Some rest =>
    create_block (strip rest) (BlockTypes.value NUMBERED_LIST) None None
  | None =>
  if startswith (lit "[ ] ") line then
    create_block (strip (skipn 4 line)) (BlockTypes.value TO_DO) None
                 (Some [(lit "checked", JBool false)])
  else if startswith (lit "[x] ") line then
    create_block (strip (skipn 4 line)) (BlockTypes.value TO_DO) None
                 (Some [(lit "checked", JBool true)])
  else if startswith (lit "> ") line then
    create_block (strip (skipn 2 line)) (BlockTypes.value QUOTE) None None
  else
    create_block (strip line) (BlockTypes.value PARAGRAPH) None None
  end.

(** One iteration of the [while] loop on [lines[i]]. *)
Definition parse_line (i : nat) (raw : str) (st : parser_state)
  : result parser_state :=
  let line := rstrip raw in
  if negb (truthy (JStr line)) && negb (in_code_block st) then Ok st
  else if startswith fence line then
    if negb (in_code_block st) then
      Ok (mkParser (blocks st) true []
            (Some (if 3 <? length line then skipn 3 line else [])))
    else
      let extra_props :=
        match code_language st with
        | Some ((_ :: _) as l) => [(lit "language", JStr l)]
        | _ => []
        end in
      b <- create_block
             (match code_content st with
              | _ :: _ => join [newline] (code_content st)
              | [] => []
              end)
             (BlockTypes.value CODE) None (Some extra_props) ;;
      Ok (mkParser (blocks st ++ [b]) false (code_content st) None)
  else if in_code_block st then
    Ok (mkParser (blocks st) true (code_content st ++ [line]) (code_language st))
  else
    match line_block line with
    | inr b =>
        Ok (mkParser (blocks st ++ [b]) (in_code_block st) (code_content st)
              (code_language st))
    | inl (ValueError e) => Err (ValueError (ErrorParsingLine (i + 1) e))
    | inl e => Err e
    end.

Fixpoint parse_lines (i : nat) (lines : list str) (st : parser_state)
  : result parser_state :=
  match lines with
  | [] => Ok st
  | raw :: rest =>
      st' <- parse_line i raw st ;;
      parse_lines (S i) rest st'
  end.

Definition parser_init : parser_state := mkParser [] false [] None.

Definition parse_markdown_to_blocks (markdown : str) : result (list json) :=
  if negb (truthy (JStr markdown)) then Ok [] else
  st <- parse_lines 0 (split newline markdown) parser_init ;;
  if in_code_block st then Err (ValueError UnclosedCodeBlock)
  else Ok (blocks st).

(** The text that an f-string puts in place of [{v}]. *)
Definition format (v : json) : result str :=
  match v with
  | JStr s => Ok s
  | JInt z => Ok (str_of_Z z)
  | JBool true => Ok (lit "True")
  | JBool false => Ok (lit "False")
  | JNone => Ok (lit "None")
  | JList _ | JDict _ => Err Unmodelled
  end.

Definition is_value (v : json) (t : BlockType) : bool :=
  match v with
  | JStr s => str_eqb s (BlockTypes.value t)
  | _ => false
  end.

Definition json_str_eqb (a b : json) : bool :=
  match a, b with
  | JStr x, JStr y => str_eqb x y
  | _, _ => false
  end.

(** [block[block_type]["rich_text"][0]["text"]["content"]] *)
Definition rich_text_content (block block_type : json) : result json :=
  inner <- getitem block block_type ;;
  rt <- getitem inner (S_ "rich_text") ;;
  first <- getitem rt (JInt 0) ;;
  text <- getitem first (S_ "text") ;;
  getitem text (S_ "content").

(** The loop of [blocks_to_markdown]: [total] is [len(blocks)], [rest]
    the blocks from index [i] on. *)
Fixpoint to_markdown_loop (total : nat) (rest : list json)
    (numbered_list_counter : nat) (markdown : list json) : result (list json) :=
  match rest with
  | [] => Ok markdown
  | block :: tl =>
      block_type <- getitem block (S_ "type") ;;
      if is_value block_type CODE then
        inner <- getitem block block_type ;;
        language <- dget inner (lit "language") (JStr []) ;;
        code <- dget inner (lit "content") (JStr []) ;;
        l <- format language ;;
        let markdown := markdown ++ [JStr (fence ++ l)] in
        markdown <-
          (if truthy code then Ok (markdown ++ [code])
           else
             c <- rich_text_content block block_type ;;
             Ok (markdown ++ [c])) ;;
        let markdown := markdown ++ [JStr fence] in
        let markdown :=
          match tl with
          | _ :: _ => markdown ++ [JStr []]
          | [] => markdown
          end in
        to_markdown_loop total tl numbered_list_counter markdown
      else
        content <- rich_text_content block block_type ;;
        step <-
          (if is_value block_type HEADING_1 then
             c <- format content ;; Ok (0, markdown ++ [JStr (lit "# " ++ c)])
           else if is_value block_type HEADING_2 then
             c <- format content ;; Ok (0, markdown ++ [JStr (lit "## " ++ c)])
           else if is_value block_type HEADING_3 then
             c <- format content ;; Ok (0, markdown ++ [JStr (lit "### " ++ c)])
           else if is_value block_type BULLETED_LIST then
             c <- format content ;; Ok (0, markdown ++ [JStr (lit "- " ++ c)])
           else if is_value block_type NUMBERED_LIST then
             let n := numbered_list_counter + 1 in
             c <- format content ;;
             Ok (n, markdown ++ [JStr (str_of_nat n ++ lit ". " ++ c)])
           else if is_value block_type TO_DO then
             inner <- getitem block block_type ;;
             checked <- dget inner (lit "checked") (JBool false) ;;
             c <- format content ;;
             Ok (0, markdown ++
                    [JStr (lit "[" ++ (if truthy checked then lit "x" else lit " ")
                           ++ lit "] " ++ c)])
           else if is_value block_type QUOTE then
             c <- format content ;; Ok (0, markdown ++ [JStr (lit "> " ++ c)])
           else if is_value block_type PARAGRAPH then
             Ok (0, markdown ++ [content])
           else Ok (numbered_list_counter, markdown)) ;;
        let '(counter, markdown) := step in
        markdown <-
          match tl with
          | next :: _ =>
              next_block_type <- getitem next (S_ "type") ;;
              if (is_value block_type NUMBERED_LIST || is_value block_type BULLETED_LIST)
                 && json_str_eqb block_type next_block_type
              then Ok markdown
              else Ok (markdown ++ [JStr []])
          | [] =>
              if 1 <? total then Ok (markdown ++ [JStr []]) else Ok markdown
          end ;;
        to_markdown_loop total tl counter markdown
  end.

(** ["\n".join(markdown)]: every item has to be a string. *)
Fixpoint all_str (l : list json) : result (list str) :=
  match l with
  | [] => Ok []
  | JStr s :: r => rest <- all_str r ;; Ok (s :: rest)
  | _ :: _ => Err TypeError
  end.

Definition blocks_to_markdown (blocks : list json) : result str :=
  markdown <- to_markdown_loop (length blocks) blocks 0 [] ;;
  parts <- all_str markdown ;;
  Ok (strip (join [newline] parts)).

(** The comparison of the round-trip test: strip every line, drop the
    blank ones. *)
Definition normalized_lines (markdown : str) : list str :=
  map strip (filter (fun line => truthy (JStr (strip line))) (split newline markdown)).

Definition normalize (markdown : str) : str :=
  join [newline] (normalized_lines markdown).

Definition nl (s : string) : str :=
  map (fun c => if Ascii.eqb c "|"%char then newline else c) (lit s).

(** ** models/properties.py: TodoProperties *)

Section Todo.

(** [datetime] values with [isoformat] and [datetime.fromisoformat],
    which belong to the Python library. *)
Variable datetime : Type.
Variable isoformat : datetime -> str.
Variable fromisoformat : str -> option datetime.

Record TodoProperties : Type := mkTodo {
  task : str;
  description : option str;
  due_date : option datetime;
  priority : option str;
  tags : option (list str);
  status : option str
}.

(** [TodoProperties.validate_task] *)
Definition validate_task (v : str) : result str :=
  if negb (truthy (JStr v)) || negb (truthy (JStr (strip v))) then
    Err (ValueError TaskEmpty)
  else if MAX_TITLE_LENGTH <? length v then Err (ValueError TaskTooLong)
  else Ok (strip v).

(** The field constraint [max_length] followed by
    [TodoProperties.validate_description]. *)
Definition validate_description (v : option str) : result (option str) :=
  match v with
  | Some d =>
      if MAX_TEXT_LENGTH <? length d then Err (ValueError DescriptionTooLong)
      else if negb (truthy (JStr (strip d))) then Ok None
      else if MAX_TEXT_LENGTH <? length d then Err (ValueError DescriptionTooLong)
      else Ok (Some (strip d))
  | None => Ok None
  end.

(** A field with [pattern="^(a|b|c)$"]: one of the alternatives, the
    whole string (pydantic matches with a regex engine in which [$] is
    the end of the text). *)
Definition validate_pattern (field : string) (allowed : list string)
    (v : option str) : result (option str) :=
  match v with
  | Some x =>
      if existsb (fun a => str_eqb x (lit a)) allowed then Ok (Some x)
      else Err (ValueError (PatternMismatch (lit field)))
  | None => Ok None
  end.

Definition priorities : list string := ["high"; "medium"; "low"]%string.
Definition statuses : list string := ["not_started"; "in_progress"; "completed"]%string.

(** An optional string field receives [None] or a string. *)
Definition as_opt_str (v : json) : result (option str) :=
  match v with
  | JNone => Ok None
  | JStr x => Ok (Some x)
  | _ => Err (ValueError NotAString)
  end.

Fixpoint as_str_list (l : list json) : result (list str) :=
  match l with
  | [] => Ok []
  | JStr x :: r => rest <- as_str_list r ;; Ok (x :: rest)
  | _ :: _ => Err (ValueError NotAString)
  end.

(** The constructor call [TodoProperties(task=..., ...)]. *)
Definition new_TodoProperties (task description : json)
    (due_date : option datetime) (priority : json)
    (tags : option (list json)) (status : json) : result TodoProperties :=
  t <- match task with
       | JStr v => validate_task v
       | _ => Err (ValueError NotAString)
       end ;;
  d <- as_opt_str description ;;
  d <- validate_description d ;;
  p <- as_opt_str priority ;;
  p <- validate_pattern "priority" priorities p ;;
  g <- match tags with
       | Some l => l' <- as_str_list l ;; Ok (Some l')
       | None => Ok None
       end ;;
  s <- as_opt_str status ;;
  s <- validate_pattern "status" statuses s ;;
  Ok (mkTodo t d due_date p g s).

Definition text_run (content : str) : json :=
  JList [JDict [(lit "type", S_ "text");
                (lit "text", JDict [(lit "content", JStr content)])]].

Definition to_notion_properties (self : TodoProperties) : dict :=
  let properties :=
    [(lit "Task",
      JDict [(lit "title", text_run (firstn MAX_TITLE_LENGTH (task self)))])] in
  let properties :=
    match description self with
    | Some ((_ :: _) as d) =>
        Dict.set (lit "Description")
          (JDict [(lit "rich_text", text_run (firstn MAX_TEXT_LENGTH d))])
          properties
    | _ => properties
    end in
  let properties :=
    match due_date self with
    | Some d =>
        Dict.set (lit "Due Date")
          (JDict [(lit "date", JDict [(lit "start", JStr (isoformat d))])])
          properties
    | None => properties
    end in
  let properties :=
    match priority self with
    | Some ((_ :: _) as p) =>
        Dict.set (lit "Priority")
          (JDict [(lit "select", JDict [(lit "name", JStr p)])]) properties
    | _ => properties
    end in
  let properties :=
    match tags self with
    | Some ((_ :: _) as l) =>
        Dict.set (lit "Tags")
          (JDict [(lit "multi_select",
                   JList (map (fun tag => JDict [(lit "name", JStr tag)]) l))])
          properties
    | _ => properties
    end in
  let properties :=
    match status self with
    | Some ((_ :: _) as x) =>
        Dict.set (lit "Status")
          (JDict [(lit "status", JDict [(lit "name", JStr x)])]) properties
    | _ => properties
    end in
  properties.

(** [properties.get(name, {}).get(key)] *)
Definition prop_get (properties : json) (name key : string) : result json :=
  p <- dget properties (lit name) (JDict []) ;;
  dget p (lit key) JNone.

(** The elements that a [for] loop or a comprehension draws from an object. *)
Definition iterate (v : json) : result (list json) :=
  match v with
  | JList l => Ok l
  | JDict d => Ok (map (fun kv => JStr (fst kv)) d)
  | JStr x => Ok (map (fun c => JStr [c]) x)
  | _ => Err TypeError
  end.

Fixpoint map_result {A B} (f : A -> result B) (l : list A) : result (list B) :=
  match l with
  | [] => Ok []
  | a :: r => b <- f a ;; rest <- map_result f r ;; Ok (b :: rest)
  end.

Definition from_notion_properties (properties : json) : result TodoProperties :=
  c <- prop_get properties "Task" "title" ;;
  task <-
    (if truthy c then
       a <- getitem properties (S_ "Task") ;;
       a <- getitem a (S_ "title") ;;
       a <- getitem a (JInt 0) ;;
       a <- getitem a (S_ "text") ;;
       getitem a (S_ "content")
     else Ok (JStr [])) ;;
  c <- prop_get properties "Description" "rich_text" ;;
  description <-
    (if truthy c then
       a <- getitem properties (S_ "Description") ;;
       a <- getitem a (S_ "rich_text") ;;
       a <- getitem a (JInt 0) ;;
       a <- getitem a (S_ "text") ;;
       getitem a (S_ "content")
     else Ok JNone) ;;
  c <- prop_get properties "Due Date" "date" ;;
  due_date <-
    (if truthy c then
       a <- getitem properties (S_ "Due Date") ;;
       a <- getitem a (S_ "date") ;;
       a <- getitem a (S_ "start") ;;
       match a with
       | JStr x =>
           match fromisoformat x with
           | Some d => Ok (Some d)
           | None => Err (ValueError InvalidIsoformat)
           end
       | _ => Err TypeError
       end
     else Ok None) ;;
  c <- prop_get properties "Priority" "select" ;;
  priority <-
    (if truthy c then
       a <- getitem properties (S_ "Priority") ;;
       a <- getitem a (S_ "select") ;;
       getitem a (S_ "name")
     else Ok JNone) ;;
  c <- prop_get properties "Tags" "multi_select" ;;
  tags <-
    (if truthy c then
       a <- getitem properties (S_ "Tags") ;;
       a <- getitem a (S_ "multi_select") ;;
       l <- iterate a ;;
       names <- map_result (fun tag => getitem tag (S_ "name")) l ;;
       Ok (Some names)
     else Ok None) ;;
  c <- prop_get properties "Status" "status" ;;
  status <-
    (if truthy c then
       a <- getitem properties (S_ "Status") ;;
       a <- getitem a (S_ "status") ;;
       getitem a (S_ "name")
     else Ok JNone) ;;
  new_TodoProperties task description due_date priority tags status.

(** What the validators of the model guarantee about a record. *)
Definition opt_in (allowed : list string) (v : option str) : bool :=
  match v with
  | Some x => existsb (fun a => str_eqb x (lit a)) allowed
  | None => true
  end.

Definition valid_todo (t : TodoProperties) : bool :=
  truthy (JStr (task t)) && str_eqb (strip (task t)) (task t)
  && (length (task t) <=? MAX_TITLE_LENGTH)
  && match description t with
     | Some d => truthy (JStr d) && str_eqb (strip d) d
                 && (length d <=? MAX_TEXT_LENGTH)
     | None => true
     end
  && opt_in priorities (priority t)
  && opt_in statuses (status t).

End Todo.

(** ** The HTTP client *)

Inductive http_method : Type := GET | POST | PATCH | DELETE.

Record request : Type := mkRequest {
  req_method : http_method;
  req_url : str;
  req_params : dict;
  req_json : option json
}.

(** What comes back: a response with a status code and a JSON body, or
    a failure of the transport. *)
Inductive reply : Type :=
| Response (status_code : Z) (body : json)
| Failure.

(** The remote service answers a request and moves to a new state. *)
Record service : Type := mkService {
  remote : Type;
  serve : remote -> request -> remote * reply
}.

(** The state of the remote service and the requests sent so far. *)
Record world (srv : service) : Type := mkWorld {
  state : remote srv;
  sent : list request
}.

Definition io (srv : service) (A : Type) : Type :=
  world srv -> world srv * result A.

Definition ret {srv A} (a : A) : io srv A := fun w => (w, Ok a).
Definition raise {srv A} (e : exn) : io srv A := fun w => (w, Err e).
Definition lift {srv A} (r : result A) : io srv A := fun w => (w, r).

Definition bind {srv A B} (m : io srv A) (k : A -> io srv B) : io srv B :=
  fun w =>
    match m w with
    | (w', inr a) => k a w'
    | (w', inl e) => (w', inl e)
    end.

Notation "x <~ m ;; k" := (bind m (fun x => k))
  (at level 61, m at next level, right associativity).

(** [response.raise_for_status()] passes the 2xx codes. *)
Definition is_success (status_code : Z) : bool :=
  (200 <=? status_code)%Z && (status_code <=? 299)%Z.

(** A call of the client, [raise_for_status()] and [response.json()]. *)
Definition call {srv} (r : request) : io srv json :=
  fun w =>
    let '(st, rep) := serve srv (state w) r in
    let w' := mkWorld srv st (sent w ++ [r]) in
    match rep with
    | Response code body =>
        if is_success code then (w', Ok body)
        else (w', Err (HTTPStatusError code))
    | Failure => (w', Err TransportError)
    end.

(** ** api/pages.py *)

Module PagesAPI.
Section Pages.
Variable srv : service.

Definition update_page (page_id : str) (properties : option dict)
    (archived : option bool) : io srv json :=
  match properties, archived with
  | None, None => raise (ValueError NothingToUpdate)
  | _, _ =>
      let body : dict := [] in
      let body :=
        match properties with
        | Some ((_ :: _) as p) => Dict.set (lit "properties") (JDict p) body
        | _ => body
        end in
      let body :=
        match archived with
        | Some a => Dict.set (lit "archived") (JBool a) body
        | None => body
        end in
      call (mkRequest PATCH (lit "pages/" ++ page_id) [] (Some (JDict body)))
  end.

Definition archive_page (page_id : str) : io srv json :=
  update_page page_id None (Some true).

Definition restore_page (page_id : str) : io srv json :=
  update_page page_id None (Some false).

End Pages.
End PagesAPI.

(** ** api/blocks.py *)

(** [range(0, stop, step)] for a positive step. *)
Definition py_range (stop step : nat) : list nat :=
  map (fun k => k * step) (seq 0 ((stop + step - 1) / step)).

Module BlocksAPI.
Section Blocks.
Variable srv : service.

(** [_normalize_url], built from [urllib.parse]. *)
Variable normalize_url : str -> str.

Definition get_block (block_id : str) : io srv json :=
  call (mkRequest GET (lit "blocks/" ++ block_id) [] None).

(** The body of the [for] loop of [append_children] at index [i]. *)
Definition append_batch (block_id : str) (blocks : list json)
    (batch_size : nat) (i : nat) (acc : json * list json)
  : io srv (json * list json) :=
  let '(after, results) := acc in
  let batch := firstn batch_size (skipn i blocks) in
  batch_after <~
    (if i =? 0 then ret after
     else
       match nth_error blocks (i - 1) with
       | Some b => lift (dget b (lit "id") JNone)
       | None => raise IndexError
       end) ;;
  let body :=
    (lit "children", JList batch)
    :: (if truthy batch_after then [(lit "after", batch_after)] else []) in
  result <~ call (mkRequest PATCH (lit "blocks/" ++ block_id ++ lit "/children")
                            [] (Some (JDict body))) ;;
  let results := results ++ [result] in
  r <~ lift (getitem result (S_ "results")) ;;
  after <~
    (if truthy r then
       lift (last <- getitem r (JInt (-1)) ;; getitem last (S_ "id"))
     else ret after) ;;
  ret (after, results).

Fixpoint for_each {A} (indices : list nat) (body : nat -> A -> io srv A)
    (acc : A) : io srv A :=
  match indices with
  | [] => ret acc
  | i :: rest => acc' <~ body i acc ;; for_each rest body acc'
  end.

Definition append_children (block_id : str) (blocks : list json)
    (after : json) (batch_size : Z) : io srv json :=
  if (100 <? batch_size)%Z then raise (ValueError BatchSizeExceeded)
  else if (batch_size <? Z.of_nat (length blocks))%Z then
    if (batch_size =? 0)%Z then raise (ValueError RangeStepZero)
    else if (batch_size <? 0)%Z then ret (JList [])
    else
      out <~ for_each (py_range (length blocks) (Z.to_nat batch_size))
                      (append_batch block_id blocks (Z.to_nat batch_size))
                      (after, []) ;;
      ret (JList (snd out))
  else
    let body :=
      (lit "children", JList blocks)
      :: (if truthy after then [(lit "after", after)] else []) in
    call (mkRequest PATCH (lit "blocks/" ++ block_id ++ lit "/children")
                    [] (Some (JDict body))).

Definition create_block (block_type : str) (content : option str)
    (annotations : option dict) (link : option str) (kwargs : dict) : json :=
  if str_eqb block_type (lit "divider") then
    JDict [(lit "type", S_ "divider"); (lit "divider", JDict [])]
  else if str_eqb block_type (lit "column_list") then
    JDict [(lit "type", S_ "column_list"); (lit "column_list", JDict [])]
  else if str_eqb block_type (lit "column") then
    JDict [(lit "type", S_ "column"); (lit "column", JDict [])]
  else
    let block_content :=
      match content with
      | Some c =>
          let text := [(lit "content", JStr c)] in
          let text :=
            match link with
            | Some ((_ :: _) as l) =>
                Dict.set (lit "link") (JDict [(lit "url", JStr (normalize_url l))]) text
            | _ => text
            end in
          let rich_text := [(lit "type", S_ "text"); (lit "text", JDict text)] in
          let rich_text :=
            match annotations with
            | Some ((_ :: _) as a) => Dict.set (lit "annotations") (JDict a) rich_text
            | _ => rich_text
            end in
          [(lit "rich_text", JList [JDict rich_text])]
      | None => []
      end in
    let block_content := Dict.update block_content kwargs in
    JDict (Dict.set block_type (JDict block_content) [(lit "type", JStr block_type)]).

Definition create_todo_block (content : str) (checked : bool)
    (annotations : option dict) (is_subtask : bool) : json :=
  create_block (lit "to_do") (Some content) annotations None
    [(lit "checked", JBool checked); (lit "is_subtask", JBool is_subtask)].

Definition get_block_children (block_id : str) (page_size : Z)
    (start_cursor : option str) : io srv json :=
  let params := [(lit "page_size", JInt page_size)] in
  let params :=
    match start_cursor with
    | Some ((_ :: _) as c) => Dict.set (lit "start_cursor") (JStr c) params
    | _ => params
    end in
  call (mkRequest GET (lit "blocks/" ++ block_id ++ lit "/children") params None).

Definition update_block (block_id : str) (properties : json) : io srv json :=
  call (mkRequest PATCH (lit "blocks/" ++ block_id) [] (Some properties)).

Definition delete_block (block_id : str) : io srv json :=
  call (mkRequest DELETE (lit "blocks/" ++ block_id) [] None).

Definition create_subtask (parent_id content : str) (checked : bool)
    (annotations : option dict) : io srv json :=
  let subtask := create_todo_block content checked annotations true in
  append_children parent_id [subtask] JNone 100.

(** The condition of the comprehension in [get_subtasks]. *)
Definition is_subtask_block (block : json) : result bool :=
  t <- getitem block (S_ "type") ;;
  if json_str_eqb t (S_ "to_do") then
    todo <- dget block (lit "to_do") (JDict []) ;;
    flag <- dget todo (lit "is_subtask") (JBool false) ;;
    Ok (truthy flag)
  else Ok false.

Fixpoint filter_result {A} (f : A -> result bool) (l : list A) : result (list A) :=
  match l with
  | [] => Ok []
  | a :: r =>
      keep <- f a ;;
      rest <- filter_result f r ;;
      Ok (if keep then a :: rest else rest)
  end.

Definition get_subtasks (parent_id : str) (page_size : Z) : io srv (list json) :=
  response <~ get_block_children parent_id page_size None ;;
  lift (results <- getitem response (S_ "results") ;;
        items <- iterate results ;;
        filter_result is_subtask_block items).

(** [all(s["to_do"]["checked"] for s in siblings)] *)
Fixpoint all_checked (siblings : list json) : result bool :=
  match siblings with
  | [] => Ok true
  | s :: rest =>
      todo <- getitem s (S_ "to_do") ;;
      c <- getitem todo (S_ "checked") ;;
      if truthy c then all_checked rest else Ok false
  end.

Definition checked_update (checked : bool) : json :=
  JDict [(lit "to_do", JDict [(lit "checked", JBool checked)])].

Definition update_subtask_status (subtask_id : str) (checked : bool)
    (update_parent : bool) : io srv json :=
  _ <~ update_block subtask_id (checked_update checked) ;;
  if update_parent then
    subtask <~ get_block subtask_id ;;
    parent_id <~ lift (parent <- dget subtask (lit "parent") (JDict []) ;;
                       dget parent (lit "block_id") JNone) ;;
    if truthy parent_id then
      pid <~ lift (format parent_id) ;;
      siblings <~ get_subtasks pid 100 ;;
      all <~ lift (all_checked siblings) ;;
      update_block pid (checked_update all)
    else get_block subtask_id
  else get_block subtask_id.

End Blocks.
End BlocksAPI.

(** ** The remote block store

    Modelled from the spec: the service on the other end of the block
    endpoints, which is not part of the repository.  After sections 3
    and 6 of the specification: blocks with an id, a parent
    and a kind, a to_do block with its [checked] and [is_subtask]
    fields; [GET blocks/{id}], the paginated [GET blocks/{id}/children]
    with [page_size] between 1 and 100, and [PATCH blocks/{id}] of the
    [checked] field of a to_do block.  Everything else is answered with
    status 400, an unknown block with 404. *)

Module Remote.

Record stored_block : Type := mkStored {
  sb_id : str;
  sb_parent : option str;       (* the containing block, if any *)
  sb_type : BlockType;
  sb_checked : bool;
  sb_is_subtask : bool
}.

Definition store : Type := list stored_block.

Definition block_json (b : stored_block) : json :=
  let ty := BlockTypes.value (sb_type b) in
  JDict [(lit "object", S_ "block");
         (lit "id", JStr (sb_id b));
         (lit "parent",
          match sb_parent b with
          | Some p => JDict [(lit "type", S_ "block_id"); (lit "block_id", JStr p)]
          | None => JDict [(lit "type", S_ "workspace"); (lit "workspace", JBool true)]
          end);
         (lit "type", JStr ty);
         (ty, if BlockTypes.eqb (sb_type b) TO_DO
              then JDict [(lit "checked", JBool (sb_checked b));
                          (lit "is_subtask", JBool (sb_is_subtask b))]
              else JDict [])].

Definition has_id (id : str) (b : stored_block) : bool := str_eqb (sb_id b) id.

Definition lookup (id : str) (st : store) : option stored_block :=
  find (has_id id) st.

Definition is_child_of (id : str) (b : stored_block) : bool :=
  match sb_parent b with
  | Some p => str_eqb p id
  | None => false
  end.

Definition children (id : str) (st : store) : list stored_block :=
  filter (is_child_of id) st.

Definition set_checked (id : str) (c : bool) (st : store) : store :=
  map (fun b => if has_id id b
                then mkStored (sb_id b) (sb_parent b) (sb_type b) c (sb_is_subtask b)
                else b) st.

(** The block that a path names, and whether it is its child list. *)
Definition route (url : str) : option (str * bool) :=
  match split "/"%char url with
  | [a; id] => if str_eqb a (lit "blocks") then Some (id, false) else None
  | [a; id; c] =>
      if str_eqb a (lit "blocks") && str_eqb c (lit "children")
      then Some (id, true) else None
  | _ => None
  end.

Definition error_body (code : string) : json :=
  JDict [(lit "object", S_ "error"); (lit "code", S_ code)].

Fixpoint from_cursor (cursor : str) (l : list stored_block) : list stored_block :=
  match l with
  | [] => []
  | b :: r => if has_id cursor b then l else from_cursor cursor r
  end.

Definition list_children (id : str) (params : dict) (st : store) : reply :=
  match Dict.get (lit "page_size") params with
  | Some (JInt n) =>
      if (1 <=? n)%Z && (n <=? 100)%Z then
        let all :=
          match Dict.get (lit "start_cursor") params with
          | Some (JStr c) => from_cursor c (children id st)
          | _ => children id st
          end in
        let page := firstn (Z.to_nat n) all in
        let more := skipn (Z.to_nat n) all in
        Response 200
          (JDict [(lit "object", S_ "list");
                  (lit "results", JList (map block_json page));
                  (lit "has_more", JBool (match more with [] => false | _ => true end));
                  (lit "next_cursor",
                   match more with [] => JNone | b :: _ => JStr (sb_id b) end)])
      else Response 400 (error_body "validation_error")
  | _ => Response 400 (error_body "validation_error")
  end.

Definition patch_block (id : str) (body : option json) (st : store) : store * reply :=
  match lookup id st with
  | None => (st, Response 404 (error_body "object_not_found"))
  | Some b =>
      match body with
      | Some (JDict props) =>
          match Dict.get (BlockTypes.value (sb_type b)) props with
          | Some (JDict fields) =>
              if BlockTypes.eqb (sb_type b) TO_DO then
                match Dict.get (lit "checked") fields with
                | Some (JBool c) =>
                    let st' := set_checked id c st in
                    match lookup id st' with
                    | Some b' => (st', Response 200 (block_json b'))
                    | None => (st, Response 404 (error_body "object_not_found"))
                    end
                | _ => (st, Response 400 (error_body "validation_error"))
                end
              else (st, Response 400 (error_body "validation_error"))
          | _ => (st, Response 400 (error_body "validation_error"))
          end
      | _ => (st, Response 400 (error_body "validation_error"))
      end
  end.

(** Modelled from the spec: the block endpoints of the remote service
    (sections 4.4 and 6), which the repository only calls. *)
Definition serve (st : store) (r : request) : store * reply :=
  match route (req_url r) with
  | Some (id, false) =>
      match req_method r with
      | GET =>
          match lookup id st with
          | Some b => (st, Response 200 (block_json b))
          | None => (st, Response 404 (error_body "object_not_found"))
          end
      | PATCH => patch_block id (req_json r) st
      | _ => (st, Response 400 (error_body "invalid_request"))
      end
  | Some (id, true) =>
      match req_method r with
      | GET => (st, list_children id (req_params r) st)
      | _ => (st, Response 400 (error_body "invalid_request"))
      end
  | None => (st, Response 400 (error_body "invalid_request_url"))
  end.

Definition srv : service := mkService serve.

Definition checked_of (id : str) (st : store) : option bool :=
  option_map sb_checked (lookup id st).

Definition is_subtask (b : stored_block) : bool :=
  BlockTypes.eqb (sb_type b) TO_DO && sb_is_subtask b.

(** The direct subtask children of a block. *)
Definition subtasks (id : str) (st : store) : list stored_block :=
  filter is_subtask (children id st).

End Remote.

(** A service that answers every request with the same response, as
    the mocked client of the test suite does. *)
Definition mock (body : json) : service :=
  mkService (fun (_ : unit) (_ : request) => (tt, Response 200 body)).

Definition start {srv} (st : remote srv) : world srv := mkWorld srv st [].

(** ** api/blocks.py: the builders on top of [create_block] *)

Module BlockBuilders.
Section Builders.
Variable normalize_url : str -> str.

Definition create_bulleted_list_block (content : str)
    (annotations : option dict) : json :=
  BlocksAPI.create_block normalize_url (lit "bulleted_list_item")
    (Some content) annotations None [].

Definition create_rich_text_block (content : str) (annotations : option dict)
    (link : option str) (block_type : str) : json :=
  BlocksAPI.create_block normalize_url block_type (Some content) annotations link [].

End Builders.
End BlockBuilders.

(** ** Arguments rejected before anything is sent

    The [ValueError]s of the page, database and configuration helpers,
    by the check that raises them. *)

Inductive argument_error : Type :=
| PageSizeNotPositive          (* "page_size must be positive" *)
| InvalidOperator              (* "Operator must be 'and' or 'or'" *)
| InvalidDirection             (* "Direction must be 'ascending' or 'descending'" *)
| NoApiKey                     (* "No API key provided and NOTION_API_KEY ..." *)
| MissingConfiguration (keys : list str).
                               (* "Missing required configuration: ..." *)

(** ** api/pages.py: creation and retrieval *)

Module Pages.
Section Pages.
Variable srv : service.
Variable datetime : Type.
Variable isoformat : datetime -> str.

Definition create_page (parent_id : str) (properties : dict)
    (children : option (list json)) (is_database : bool) : io srv json :=
  let parent_type := if is_database then lit "database_id" else lit "page_id" in
  let body :=
    [(lit "parent",
      JDict (Dict.set parent_type (JStr parent_id) [(lit "type", JStr parent_type)]));
     (lit "properties", JDict properties)] in
  let body :=
    match children with
    | Some ((_ :: _) as c) => Dict.set (lit "children") (JList c) body
    | _ => body
    end in
  call (mkRequest POST (lit "pages") [] (Some (JDict body))).

Definition create_todo_properties (title : str) (description : option str)
    (due_date : option datetime) (priority : option str)
    (tags : option (list str)) (status : option str) : dict :=
  let properties :=
    [(lit "Task", JDict [(lit "title", text_run title)])] in
  let properties :=
    match description with
    | Some ((_ :: _) as d) =>
        Dict.set (lit "Description") (JDict [(lit "rich_text", text_run d)])
          properties
    | _ => properties
    end in
  let properties :=
    match due_date with
    | Some d =>
        Dict.set (lit "Due Date")
          (JDict [(lit "date", JDict [(lit "start", JStr (isoformat d))])])
          properties
    | None => properties
    end in
  let properties :=
    match priority with
    | Some ((_ :: _) as p) =>
        Dict.set (lit "Priority")
          (JDict [(lit "select", JDict [(lit "name", JStr p)])]) properties
    | _ => properties
    end in
  let properties :=
    match tags with
    | Some ((_ :: _) as l) =>
        Dict.set (lit "Tags")
          (JDict [(lit "multi_select",
                   JList (map (fun tag => JDict [(lit "name", JStr tag)]) l))])
          properties
    | _ => properties
    end in
  let properties :=
    match status with
    | Some ((_ :: _) as x) =>
        Dict.set (lit "Status")
          (JDict [(lit "status", JDict [(lit "name", JStr x)])]) properties
    | _ => properties
    end in
  properties.

Definition get_page (page_id : str) : io srv json :=
  call (mkRequest GET (lit "pages/" ++ page_id) [] None).

(** The check on [page_size] comes before the request is built. *)
Definition get_property_item (page_id property_id : str) (page_size : Z)
  : argument_error + io srv json :=
  if (page_size <=? 0)%Z then inl PageSizeNotPositive
  else
    inr (call (mkRequest GET
                 (lit "pages/" ++ page_id ++ lit "/properties/" ++ property_id)
                 [(lit "page_size", JInt page_size)] None)).

End Pages.
End Pages.

(** ** api/databases.py *)

(** The third argument of [create_date_filter]: a string, a [datetime]
    or [None]. *)
Inductive date_value (datetime : Type) : Type :=
| DateString (s : str)
| DateTime (d : datetime)
| DateNone.

Arguments DateString {datetime} s.
Arguments DateTime {datetime} d.
Arguments DateNone {datetime}.

Definition is_none (v : json) : bool :=
  match v with JNone => true | _ => false end.

Module DatabasesAPI.
Section Databases.
Variable srv : service.
Variable datetime : Type.
Variable isoformat : datetime -> str.

Definition create_database (parent_page_id title : str) (properties : dict)
  : io srv json :=
  call (mkRequest POST (lit "databases") []
          (Some (JDict
             [(lit "parent",
               JDict [(lit "type", S_ "page_id");
                      (lit "page_id", JStr parent_page_id)]);
              (lit "title", text_run title);
              (lit "properties", JDict properties)]))).

Definition query_database (database_id : str)
    (filter_conditions : option dict) (sorts : option (list json))
    (start_cursor : option str) (page_size : Z) : io srv json :=
  let body := [(lit "page_size", JInt page_size)] in
  let body :=
    match filter_conditions with
    | Some ((_ :: _) as f) => Dict.set (lit "filter") (JDict f) body
    | _ => body
    end in
  let body :=
    match sorts with
    | Some ((_ :: _) as s) => Dict.set (lit "sorts") (JList s) body
    | _ => body
    end in
  let body :=
    match start_cursor with
    | Some ((_ :: _) as c) => Dict.set (lit "start_cursor") (JStr c) body
    | _ => body
    end in
  call (mkRequest POST (lit "databases/" ++ database_id ++ lit "/query") []
          (Some (JDict body))).

Definition create_filter (conditions : list json) (operator : str)
  : argument_error + dict :=
  if negb (existsb (str_eqb operator) [lit "and"; lit "or"])
  then inl InvalidOperator
  else inr [(operator, JList conditions)].

Definition create_date_filter (property_name condition : str)
    (value : date_value datetime) : dict :=
  let value :=
    match value with
    | DateTime d => JStr (isoformat d)
    | DateString s => JStr s
    | DateNone => JNone
    end in
  let date :=
    if is_none value
       && existsb (str_eqb condition) [lit "is_empty"; lit "is_not_empty"]
    then Dict.set condition (JBool true) []
    else Dict.set condition value [] in
  [(lit "property", JStr property_name); (lit "date", JDict date)].

Definition create_text_filter (property_name condition value : str) : dict :=
  [(lit "property", JStr property_name);
   (lit "text", JDict [(condition, JStr value)])].

Definition create_number_filter (property_name condition : str) (value : Z)
  : dict :=
  [(lit "property", JStr property_name);
   (lit "number", JDict [(condition, JInt value)])].

Definition create_search_filter (query : str) (property_name : option str)
  : dict :=
  match property_name with
  | Some ((_ :: _) as p) =>
      [(lit "property", JStr p);
       (lit "rich_text", JDict [(lit "contains", JStr query)])]
  | _ => [(lit "title", JDict [(lit "contains", JStr query)])]
  end.

Definition create_sort (property_name direction : str)
  : argument_error + dict :=
  if negb (existsb (str_eqb direction) [lit "ascending"; lit "descending"])
  then inl InvalidDirection
  else inr [(lit "property", JStr property_name);
            (lit "direction", JStr direction)].

Definition update_database (database_id : str) (title : option str)
    (properties : option dict) (archived : option bool) : io srv json :=
  let body : dict := [] in
  let body :=
    match title with
    | Some ((_ :: _) as t) => Dict.set (lit "title") (text_run t) body
    | _ => body
    end in
  let body :=
    match properties with
    | Some ((_ :: _) as p) => Dict.set (lit "properties") (JDict p) body
    | _ => body
    end in
  let body :=
    match archived with
    | Some a => Dict.set (lit "archived") (JBool a) body
    | None => body
    end in
  call (mkRequest PATCH (lit "databases/" ++ database_id) [] (Some (JDict body))).

Definition get_database (database_id : str) : io srv json :=
  call (mkRequest GET (lit "databases/" ++ database_id) [] None).

Definition list_databases : io srv json :=
  call (mkRequest POST (lit "search") []
          (Some (JDict [(lit "filter",
                         JDict [(lit "value", S_ "database");
                                (lit "property", S_ "object")])]))).

Definition search_database (database_id query : str)
    (property_name : option str) (sorts : option (list json))
    (start_cursor : option str) (page_size : Z) : io srv json :=
  let filter_obj := create_search_filter query property_name in
  query_database database_id (Some filter_obj) sorts start_cursor page_size.

End Databases.
End DatabasesAPI.

(** ** utils/auth.py *)

Module Auth.
Section Environment.

(** [os.getenv]: the environment of the process. *)
Variable getenv : str -> option str.

Definition get_auth_headers (api_key : option str) : argument_error + dict :=
  let api_key :=
    match api_key with
    | None => getenv (lit "NOTION_API_KEY")
    | Some _ => api_key
    end in
  match api_key with
  | Some ((_ :: _) as key) =>
      if str_eqb (strip key) [] then inl NoApiKey
      else inr [(lit "Authorization", JStr (lit "Bearer " ++ key));
                (lit "Content-Type", S_ "application/json");
                (lit "Notion-Version", S_ "2022-06-28")]
  | _ => inl NoApiKey
  end.

(** [not value or value.strip() == ""] *)
Definition unset (value : option str) : bool :=
  match value with
  | Some ((_ :: _) as v) => str_eqb (strip v) []
  | _ => true
  end.

Definition validate_config : argument_error + unit :=
  let required_config :=
    [(lit "NOTION_API_KEY", getenv (lit "NOTION_API_KEY"));
     (lit "NOTION_DATABASE_ID", getenv (lit "NOTION_DATABASE_ID"))] in
  let missing := map fst (filter (fun kv => unset (snd kv)) required_config) in
  match missing with
  | _ :: _ => inl (MissingConfiguration missing)
  | [] => inr tt
  end.

End Environment.
End Auth.

(** ** server.py: the retry decorator *)

Module Server.

(** The class [ErrorCode]. *)
Definition AUTHENTICATION_ERROR : Z := -32001.
Definition CONNECTION_ERROR : Z := -32002.
Definition INVALID_DATABASE : Z := -32003.
Definition INVALID_BLOCK : Z := -32004.
Definition INVALID_PARAMETERS : Z := -32005.
Definition API_ERROR : Z := -32006.

(** The exceptions outside the class [Exception], which no
    [except Exception] catches. *)
Inductive base_exception : Type :=
| CancelledError               (* [asyncio.CancelledError] *)
| KeyboardInterrupt
| SystemExit
| GeneratorExit.

(** What a call raises: an [McpError], of which the code of the
    [ErrorData] is kept, another exception of the class [Exception], or
    an exception outside that class. *)
Inductive raised : Type :=
| McpError (code : Z)
| Exception (e : exn)
| BaseException (b : base_exception).

(** What the wrapper does besides calling the function. *)
Inductive event : Type :=
| Called                       (* the call of the wrapped function *)
| Slept (seconds : Z)          (* [await asyncio.sleep(...)] *)
| ClientEnsured.               (* [await self.ensure_client()] *)

(** The [McpError] that replaces the exception of the last attempt. *)
Definition final_code (e : exn) : Z :=
  match e with
  | HTTPStatusError status_code =>
      if (status_code =? 401)%Z then AUTHENTICATION_ERROR
      else if (status_code =? 404)%Z then INVALID_DATABASE
      else API_ERROR
  | TransportError => CONNECTION_ERROR
  | _ => API_ERROR
  end.

Section Retry.

(** The state that the wrapped function and [ensure_client] act on, and
    the type of the value that the function returns. *)
Variable W : Type.
Variable T : Type.

Variable func : W -> W * (raised + T).

(** [self.ensure_client], when the first positional argument is there
    and counts as true. *)
Variable ensure_client : option (W -> W * (raised + unit)).

(** The wrapper returns the value of the function, or [last_error]
    after the loop. *)
Inductive returned : Type :=
| Value (v : T)
| LastError (e : option exn).

(** The [for] loop over the attempts that are left. *)
Fixpoint attempts (retry_count : Z) (range : list Z) (last_error : option exn)
    (w : W) (log : list event) : W * list event * (raised + returned) :=
  match range with
  | [] => (w, log, inr (LastError last_error))
  | attempt :: rest =>
      let '(w, r) := func w in
      let log := log ++ [Called] in
      match r with
      | inr v => (w, log, inr (Value v))
      | inl (McpError code) => (w, log, inl (McpError code))
      | inl (BaseException b) => (w, log, inl (BaseException b))
      | inl (Exception e) =>
          let last_error := Some e in
          if (attempt <? retry_count - 1)%Z then
            let log := log ++ [Slept (2 ^ attempt)] in
            match ensure_client with
            | Some ensure =>
                let '(w, r) := ensure w in
                let log := log ++ [ClientEnsured] in
                match r with
                | inl x => (w, log, inl x)
                | inr _ => attempts retry_count rest last_error w log
                end
            | None => attempts retry_count rest last_error w log
            end
          else (w, log, inl (McpError (final_code e)))
      end
  end.

(** [range(retry_count)] *)
Definition range (n : Z) : list Z := map Z.of_nat (seq 0 (Z.to_nat n)).

Definition with_retry (retry_count : Z) (w : W)
  : W * list event * (raised + returned) :=
  attempts retry_count (range retry_count) None w [].

End Retry.
End Server.

(** * Statements

    The notions that the properties below are stated with. *)

Definition is_some {A} (o : option A) : bool :=
  match o with Some _ => true | None => false end.

(** A line that the normalization keeps. *)
Definition kept (line : str) : bool := truthy (JStr (strip line)).

(** ** Documents made of the recognized constructs *)

(** What a line starts with: the three headings, a bullet, a numeral,
    the two to_do boxes, a quote mark, or nothing (a paragraph). *)
Inductive marker : Type :=
| H1 | H2 | H3 | Bullet | Num (n : nat) | Todo (checked : bool) | Quoted | Plain.

Inductive item : Type :=
| Blank (raw : str)
    (* a line of whitespace *)
| Line (lead : str) (m : marker) (text : str) (pad : str)
    (* a one-line construct, with whitespace around it *)
| Code (language pad : str) (body : list str) (closing_pad : str).
    (* a fenced code block, with whitespace after its fences *)

Definition marker_text (m : marker) : str :=
  match m with
  | H1 => lit "# "
  | H2 => lit "## "
  | H3 => lit "### "
  | Bullet => lit "- "
  | Num n => str_of_nat n ++ lit ". "
  | Todo false => lit "[ ] "
  | Todo true => lit "[x] "
  | Quoted => lit "> "
  | Plain => []
  end.

Definition marker_type (m : marker) : BlockType :=
  match m with
  | H1 => HEADING_1
  | H2 => HEADING_2
  | H3 => HEADING_3
  | Bullet => BULLETED_LIST
  | Num _ => NUMBERED_LIST
  | Todo _ => TO_DO
  | Quoted => QUOTE
  | Plain => PARAGRAPH
  end.

Definition marker_extra (m : marker) : dict :=
  match m with
  | Todo c => [(lit "checked", JBool c)]
  | _ => []
  end.

Definition item_lines (it : item) : list str :=
  match it with
  | Blank raw => [raw]
  | Line lead m text pad => [lead ++ marker_text m ++ text ++ pad]
  | Code language pad body closing_pad =>
      (fence ++ language ++ pad) :: body ++ [fence ++ closing_pad]
  end.

Definition render (doc : list item) : str :=
  join [newline] (flat_map item_lines doc).

(** The text of a construct: something at both ends, one line, at most
    2000 characters. *)
Definition wf_text (t : str) : bool :=
  tight t && free_of newline t && (length t <=? MAX_TEXT_LENGTH).

(** A paragraph is a line that no earlier rule of the parser takes. *)
Definition unmarked (t : str) : bool :=
  negb (startswith fence t)
  && negb (startswith (lit "# ") t) && negb (startswith (lit "## ") t)
  && negb (startswith (lit "### ") t) && negb (startswith (lit "- ") t)
  && negb (is_some (numbered_rest t))
  && negb (startswith (lit "[ ] ") t) && negb (startswith (lit "[x] ") t)
  && negb (startswith (lit "> ") t).

(** The language tag: nothing, or one line of at most 2000 characters
    that does not end in whitespace. *)
Definition wf_language (l : str) : bool :=
  match l with
  | [] => true
  | c :: _ => negb (isspace (last l c)) && free_of newline l
              && (length l <=? MAX_TEXT_LENGTH)
  end.

(** A line inside a code block: one line that is not a fence. *)
Definition code_line (l : str) : bool :=
  free_of newline l && negb (startswith fence (rstrip l)).

(** The content that the parser stores for the body of a code block. *)
Definition code_text (body : list str) : str :=
  join [newline] (map rstrip body).

(** Whitespace on one line. *)
Definition wf_pad (p : str) : bool := blank p && free_of newline p.

(** Only a paragraph may be indented; one that is not is a line that no
    earlier rule of the parser takes. *)
Definition wf_lead (lead : str) (m : marker) (text : str) : bool :=
  match m, lead with
  | Plain, [] => unmarked text
  | Plain, _ :: _ => true
  | _, [] => true
  | _, _ :: _ => false
  end.

Definition wf_item (it : item) : bool :=
  match it with
  | Blank raw => wf_pad raw
  | Line lead m text pad =>
      wf_text text && wf_pad lead && wf_pad pad && wf_lead lead m text
  | Code language pad body closing_pad =>
      wf_language language && wf_pad pad && wf_pad closing_pad
      && forallb code_line body && truthy (JStr (code_text body))
  end.

(** The numerals: every numbered item carries its position in its run
    of numbered items, where any other construct ends the run; a
    numbered item right after a code block that came right after a
    numbered item is left out ([actual] is the counter of the
    serializer, which a code block does not reset). *)
Fixpoint numbering (intended actual : nat) (doc : list item) : bool :=
  match doc with
  | [] => true
  | Blank _ :: rest => numbering intended actual rest
  | Line _ (Num n) _ _ :: rest =>
      (n =? intended + 1) && (intended =? actual)
      && numbering (intended + 1) (actual + 1) rest
  | Line _ _ _ _ :: rest => numbering 0 0 rest
  | Code _ _ _ _ :: rest => numbering 0 actual rest
  end.

Definition well_formed (doc : list item) : bool :=
  forallb wf_item doc && numbering 0 0 doc.

(** The blocks that the constructs stand for. *)
Definition text_block (ty : BlockType) (text : str) (extra : dict) : json :=
  JDict [(lit "type", JStr (BlockTypes.value ty));
         (BlockTypes.value ty, JDict ((lit "rich_text", text_run text) :: extra))].

Definition code_block (language content : str) : json :=
  JDict [(lit "type", JStr (BlockTypes.value CODE));
         (BlockTypes.value CODE,
          JDict (match language with
                 | [] => []
                 | _ :: _ => [(lit "rich_text", text_run (strip language));
                              (lit "language", JStr language)]
                 end ++ [(lit "content", JStr content)]))].

Definition item_blocks (it : item) : list json :=
  match it with
  | Blank _ => []
  | Line _ m text _ => [text_block (marker_type m) text (marker_extra m)]
  | Code language _ body _ => [code_block language (code_text body)]
  end.

Definition doc_blocks (doc : list item) : list json := flat_map item_blocks doc.

(** The [extra_props] that the parser passes for a language tag. *)
Definition language_props (language : str) : dict :=
  match language with
  | _ :: _ => [(lit "language", JStr language)]
  | [] => []
  end.

(** A block with a [type] entry that is a string. *)
Definition has_type (b : json) : Prop :=
  exists ty, getitem b (S_ "type") = Ok (JStr ty).

Definition sample_document : list item :=
  [Line [] H1 (lit "Title") []; Blank [];
   Line [] Plain (lit "Body text") (lit "  "); Blank (lit "  ");
   Line [] Bullet (lit "A") []; Line [] Bullet (lit "B") [];
   Line [] (Num 1) (lit "First") []; Line [] (Num 2) (lit "Second") (lit " ");
   Line (lit "   ") Plain (lit "- Sub-item") [];
   Code (lit "python") (lit " ")
        [lit "def example():"; lit "    return 1  "; []; lit "x"] (lit "  ");
   Line [] (Todo false) (lit "Task pending") [];
   Line [] (Todo true) (lit "Task completed") [];
   Line [] Quoted (lit "Important note") []; Line [] (Num 1) (lit "Again") []].

(** ** Blocks for the serializer *)

Definition numbered_code_numbered : result (list json) :=
  a <- create_block (lit "a") (BlockTypes.value NUMBERED_LIST) None None ;;
  c <- create_block (lit "x") (BlockTypes.value CODE) None None ;;
  b <- create_block (lit "b") (BlockTypes.value NUMBERED_LIST) None None ;;
  Ok [a; c; b].

Definition numbered_quote_numbered : result (list json) :=
  a <- create_block (lit "a") (BlockTypes.value NUMBERED_LIST) None None ;;
  c <- create_block (lit "x") (BlockTypes.value QUOTE) None None ;;
  b <- create_block (lit "b") (BlockTypes.value NUMBERED_LIST) None None ;;
  Ok [a; c; b].

(** ** Requests of the batched append *)

(** The [after] anchor and the [children] of the body of a request. *)
Definition anchor (r : request) : option json :=
  match req_json r with
  | Some (JDict d) => Dict.get (lit "after") d
  | _ => None
  end.

Definition sent_children (r : request) : option json :=
  match req_json r with
  | Some (JDict d) => Dict.get (lit "children") d
  | _ => None
  end.

(** A block that carries the id [i]: a dictionary with an [id] entry
    that counts as true (a string that is not empty, for one). *)
Definition carries_id (b : json) (i : json) : Prop :=
  exists d, b = JDict d /\ Dict.get (lit "id") d = Some i /\ truthy i = true.

(** The response to an append: a [results] list whose last entry, if
    there is one, has an id. *)
Definition append_response (body : json) : Prop :=
  exists r, getitem body (S_ "results") = Ok r /\
            (truthy r = true ->
             exists i, (last <- getitem r (JInt (-1)) ;; getitem last (S_ "id")) = Ok i).

(** The service accepts every request with such a response. *)
Definition accepts_appends (srv : service) : Prop :=
  forall st r, exists st' code body,
    serve srv st r = (st', Response code body) /\
    is_success code = true /\ append_response body.

Definition hundred_fifty_blocks : list json :=
  map (fun k => JDict [(lit "id", JStr (lit "in-" ++ str_of_nat k))]) (seq 1 150).

Definition returned_block : json :=
  JDict [(lit "results", JList [JDict [(lit "id", S_ "returned")]])].

(** ** Todo records *)

Definition json_of_opt (o : option str) : json :=
  match o with Some x => JStr x | None => JNone end.

Definition todo_with_empty_tags : TodoProperties str :=
  mkTodo (lit "x") None None None (Some []) None.

Definition sample_todo : TodoProperties str :=
  mkTodo (lit "Test Task") (Some (lit "Basic description"))
         (Some (lit "2024-01-01T09:30:00")) (Some (lit "high"))
         (Some [lit "work"; lit "urgent"]) (Some (lit "in_progress")).

(** A sample of [datetime]: the text that [isoformat] prints, and
    whether the value lies in a repeated interval of its time zone, which
    the text does not tell and [fromisoformat] does not give back. *)
Definition stamp : Type := (str * bool)%type.

Definition stamp_isoformat (d : stamp) : str := fst d.

Definition stamp_fromisoformat (s : str) : option stamp := Some (s, false).

Definition stamped_todo (repeated : bool) : TodoProperties stamp :=
  mkTodo (lit "Test Task") (Some (lit "Basic description"))
         (Some (lit "2024-10-27T02:30:00+01:00", repeated)) (Some (lit "high"))
         (Some [lit "work"; lit "urgent"]) (Some (lit "in_progress")).

(** The record with another due date. *)
Definition with_due_date {datetime} (t : TodoProperties datetime)
    (d : option datetime) : TodoProperties datetime :=
  mkTodo (task t) (description t) d (priority t) (tags t) (status t).

(** ** Stores of blocks *)

(** The block [b] after [checked] of the block [id] has been set. *)
Definition with_checked (id : str) (c : bool) (b : Remote.stored_block) : Remote.stored_block :=
  if Remote.has_id id b
  then Remote.mkStored (Remote.sb_id b) (Remote.sb_parent b) (Remote.sb_type b) c
         (Remote.sb_is_subtask b)
  else b.

(** A parent with 101 subtasks: all checked but the first and the last. *)
Definition crowded_store : Remote.store :=
  Remote.mkStored (lit "p") None TO_DO false false
  :: map (fun k => Remote.mkStored (lit "s" ++ str_of_nat k) (Some (lit "p")) TO_DO
                     (negb ((k =? 1) || (k =? 101))) true)
         (seq 1 101).

(** A parent with two subtasks, both unchecked. *)
Definition family_store : Remote.store :=
  [Remote.mkStored (lit "p") None TO_DO false false;
   Remote.mkStored (lit "s1") (Some (lit "p")) TO_DO false true;
   Remote.mkStored (lit "s2") (Some (lit "p")) TO_DO false true].

Definition after_update (sid : str) (c : bool) (st : Remote.store) : Remote.store :=
  state (fst (BlocksAPI.update_subtask_status (srv:=Remote.srv) sid c true
                (start (srv:=Remote.srv) st))).

(** ** The parser's language tag *)

(** The language tag that the parser holds was cut from a fence line
    among [seen]: it is empty or not blank, and when it is longer than
    the limit so is that line. *)
Definition tag_from (seen : list str) (st : parser_state) : Prop :=
  forall l, code_language st = Some l ->
    (l = [] \/ blank l = false) /\
    (MAX_TEXT_LENGTH < length l ->
     exists line, In line seen /\ startswith fence (rstrip line) = true /\
                  MAX_TEXT_LENGTH < length line).

(** The state [st2] is the state [st] with the blocks [pre] in front:
    what the parser holds when it meets the same lines after others. *)
Definition shifted (pre : list json) (st st2 : parser_state) : Prop :=
  in_code_block st2 = in_code_block st /\
  blocks st2 = pre ++ blocks st /\
  (in_code_block st = true ->
   code_content st2 = code_content st /\ code_language st2 = code_language st).

(** ** Lines of the serializer *)

(** A headed line and the block it stands for. *)
Definition text_item_block (it : marker * str) : json :=
  text_block (marker_type (fst it)) (snd it) (marker_extra (fst it)).

(** Two list items of the same kind. *)
Definition same_list (m m' : marker) : bool :=
  match m, m' with
  | Bullet, Bullet => true
  | Num _, Num _ => true
  | _, _ => false
  end.

(** The lines that one expects for blocks of text: one line per block,
    numbered items counted from the last block that is not one, and an
    empty line between two blocks unless both are list items of the
    same kind. *)
Fixpoint text_lines (counter : nat) (items : list (marker * str)) : list str :=
  match items with
  | [] => []
  | (m, t) :: rest =>
      let counter' := match m with Num _ => counter + 1 | _ => 0 end in
      match m with
      | Num _ => str_of_nat (counter + 1) ++ lit ". " ++ t
      | _ => marker_text m ++ t
      end
      :: match rest with
         | [] => []
         | (m', _) :: _ =>
             if same_list m m' then text_lines counter' rest
             else [] :: text_lines counter' rest
         end
  end.

(** ** Rich text *)

(** The annotations that the rich text builder lets through: no key
    outside the six known ones, and a [color], if there is one, that is
    a string. *)
Definition annotations_accepted (annotations : option dict) : bool :=
  match annotations with
  | Some a =>
      forallb (fun k => existsb (str_eqb k) valid_annotations) (Dict.keys a)
      && match Dict.get (lit "color") a with
         | Some c => is_str c
         | None => true
         end
  | None => true
  end.

(** The one-element rich text array with the given content, link and
    annotations; an empty link or an empty set of annotations is left
    out. *)
Definition rich_text_run (content : str) (link : option str)
    (annotations : option dict) : json :=
  JList
    [JDict
       ([(lit "type", S_ "text");
         (lit "text",
          JDict ((lit "content", JStr content)
                 :: match link with
                    | Some ((_ :: _) as l) => [(lit "link", JDict [(lit "url", JStr l)])]
                    | _ => []
                    end))]
        ++ match annotations with
           | Some ((_ :: _) as a) => [(lit "annotations", JDict a)]
           | _ => []
           end)].

(** ** Batches *)

Definition is_dict (v : json) : bool :=
  match v with JDict _ => true | _ => false end.

(** The id under which the next batch is placed after a block: its
    [id] entry, when there is one that counts as true. *)
Definition id_anchor (b : json) : option json :=
  match dget b (lit "id") JNone with
  | inr i => if truthy i then Some i else None
  | inl _ => None
  end.

(** The batch number [k] of size [size]. *)
Definition batch (size : nat) (blocks : list json) (k : nat) : list json :=
  firstn size (skipn (k * size) blocks).

(** The request for the batch number [k]: the first one is placed after
    the caller's anchor, a later one after the input block just before
    the batch. *)
Definition batch_request (block_id : str) (blocks : list json) (size : nat)
    (after : json) (k : nat) : request :=
  mkRequest PATCH (lit "blocks/" ++ block_id ++ lit "/children") []
    (Some (JDict
       ((lit "children", JList (batch size blocks k))
        :: match (if k =? 0 then (if truthy after then Some after else None)
                  else id_anchor (nth (k * size - 1) blocks JNone)) with
           | Some i => [(lit "after", i)]
           | None => []
           end))).

Definition five_blocks : list json :=
  map (fun k => JDict [(lit "id", JStr (lit "b" ++ str_of_nat k))]) (seq 1 5).

(** ** Configuration *)

(** The key that [get_auth_headers] uses: the argument when there is
    one, otherwise the variable of the environment. *)
Definition effective_key (getenv : str -> option str) (api_key : option str)
  : option str :=
  match api_key with
  | Some key => Some key
  | None => getenv (lit "NOTION_API_KEY")
  end.

(** A variable that is set to something other than whitespace. *)
Definition is_set (value : option str) : bool :=
  match value with
  | Some v => negb (blank v)
  | None => false
  end.

Definition sample_environment (name : str) : option str :=
  if str_eqb name (lit "NOTION_API_KEY") then Some (lit "secret_abc")
  else if str_eqb name (lit "NOTION_DATABASE_ID") then Some (lit "db-1")
  else None.

(** ** Attempts *)





(** The log of [count] attempts that failed and were waited after,
    from the attempt number [from] on: the call, the wait of 2^attempt
    seconds and, when there is an instance, the renewal of the client. *)
Fixpoint failed_attempts (renew : bool) (from count : nat) : list Server.event :=
  match count with
  | 0 => []
  | S rest =>
      [Server.Called; Server.Slept (2 ^ Z.of_nat from)]
      ++ (if renew then [Server.ClientEnsured] else [])
      ++ failed_attempts renew (S from) rest
  end.

(** What the wrapper makes of the result of the call that ends the
    attempts: the value is returned, an exception of the class
    [Exception] is replaced by its [McpError], anything else is raised
    as it is. *)
Definition settled {T} (r : Server.raised + T)
  : Server.raised + Server.returned T :=
  match r with
  | inr v => inr (Server.Value v)
  | inl (Server.Exception e) => inl (Server.McpError (Server.final_code e))
  | inl x => inl x
  end.


(** ** Blocks of text as a document *)

(** The document that the lines of [text_lines] spell: the items with
    their numerals as counted, and an empty line where one is put. *)
Fixpoint lines_document (counter : nat) (items : list (marker * str)) : list item :=
  match items with
  | [] => []
  | (m, t) :: rest =>
      let counter' := match m with Num _ => counter + 1 | _ => 0 end in
      Line [] (match m with Num _ => Num (counter + 1) | _ => m end) t []
      :: match rest with
         | [] => []
         | (m', _) :: _ =>
             if same_list m m' then lines_document counter' rest
             else Blank [] :: lines_document counter' rest
         end
  end.

(** A block of text that a line can stand for: text of one line with
    something at both ends, at most 2000 characters, and, for a
    paragraph, no marker of another construct in front. *)
Definition line_item (it : marker * str) : bool :=
  wf_text (snd it) && wf_lead [] (fst it) (snd it).

(** ** What the parser makes *)

(** The code block of a fence pair with neither a language tag nor
    content. *)
Definition empty_code_block : json :=
  JDict [(lit "type", S_ "code"); (lit "code", JDict [])].

(** The code block of a fence pair with a language tag and no content. *)
Definition language_only_block (language : str) : json :=
  JDict [(lit "type", S_ "code");
         (lit "code",
          JDict [(lit "rich_text", text_run (strip language));
                 (lit "language", JStr language)])].

(** The four shapes of a block that comes out of the parser. *)
Definition parser_block (b : json) : Prop :=
  (exists m t, b = text_item_block (m, t))
  \/ (exists language content,
        truthy (JStr content) = true /\ b = code_block language content)
  \/ (exists language, language <> [] /\ b = language_only_block language)
  \/ b = empty_code_block.

(** * Properties *)

(** ** Strings *)

Module PyFacts.

Lemma str_eqb_refl (a : str) : str_eqb a a = true.
Proof.
  induction a as [|c a IH]; simpl; [reflexivity|].
  now rewrite Ascii.eqb_refl, IH.
Qed.

Lemma str_eqb_eq (a b : str) : str_eqb a b = true <-> a = b.
Proof.
  split; [|intros ->; apply str_eqb_refl].
  revert b; induction a as [|c a IH]; intros [|d b]; simpl; try discriminate; auto.
  intros H. apply andb_true_iff in H as [H1 H2].
  apply Ascii.eqb_eq in H1. apply IH in H2. now subst.
Qed.

Lemma str_eqb_neq (a b : str) : str_eqb a b = false <-> a <> b.
Proof.
  split.
  - intros H E. apply str_eqb_eq in E. congruence.
  - intros H. destruct (str_eqb a b) eqn:E; [|reflexivity].
    apply str_eqb_eq in E. contradiction.
Qed.

Lemma lstrip_blank (s : str) : blank s = true -> lstrip s = [].
Proof.
  induction s as [|c s IH]; simpl; [reflexivity|].
  intros H. apply andb_true_iff in H as [Hc Hs]. rewrite Hc. auto.
Qed.

Lemma lstrip_nil_blank (s : str) : lstrip s = [] -> blank s = true.
Proof.
  induction s as [|c s IH]; simpl; [reflexivity|].
  destruct (isspace c); simpl; [assumption|discriminate].
Qed.

Lemma blank_rev (s : str) : blank (rev s) = blank s.
Proof.
  unfold blank. induction s as [|c s IH]; simpl; [reflexivity|].
  rewrite forallb_app, IH. simpl. rewrite andb_true_r. apply andb_comm.
Qed.

Lemma blank_app (a b : str) : blank (a ++ b) = blank a && blank b.
Proof. apply forallb_app. Qed.

Lemma rstrip_blank (s : str) : blank s = true -> rstrip s = [].
Proof.
  intros H. unfold rstrip. rewrite lstrip_blank; [reflexivity|].
  now rewrite blank_rev.
Qed.

Lemma strip_blank (s : str) : blank s = true -> strip s = [].
Proof. intros H. unfold strip. now rewrite rstrip_blank. Qed.

Lemma lstrip_app_nonblank (a b : str) :
  blank a = false -> lstrip (a ++ b) = lstrip a ++ b.
Proof.
  induction a as [|c a IH]; simpl; [discriminate|].
  destruct (isspace c); simpl; auto.
Qed.

Lemma lstrip_nonblank (s : str) : blank s = false -> lstrip s <> [].
Proof.
  intros H E. apply lstrip_nil_blank in E. congruence.
Qed.

Lemma blank_lstrip (s : str) : blank (lstrip s) = blank s.
Proof.
  induction s as [|c s IH]; simpl; [reflexivity|].
  destruct (isspace c) eqn:E; simpl; [assumption|now rewrite E].
Qed.

Lemma blank_rstrip (s : str) : blank (rstrip s) = blank s.
Proof.
  unfold rstrip. now rewrite blank_rev, blank_lstrip, blank_rev.
Qed.

Lemma strip_nonblank (s : str) : blank s = false -> strip s <> [].
Proof.
  intros H. unfold strip. apply lstrip_nonblank. now rewrite blank_rstrip.
Qed.

Lemma truthy_strip (s : str) : truthy (JStr (strip s)) = negb (blank s).
Proof.
  destruct (blank s) eqn:E.
  - now rewrite strip_blank.
  - apply strip_nonblank in E. now destruct (strip s).
Qed.

Lemma lstrip_head (c : ascii) (s : str) :
  isspace c = false -> lstrip (c :: s) = c :: s.
Proof. intros H. simpl. now rewrite H. Qed.

Lemma rstrip_snoc (s : str) (c : ascii) :
  isspace c = false -> rstrip (s ++ [c]) = s ++ [c].
Proof.
  intros H. unfold rstrip. rewrite rev_app_distr. simpl. rewrite H.
  simpl. now rewrite rev_involutive.
Qed.

Lemma tight_snoc (s : str) :
  tight s = true -> exists s' c, s = s' ++ [c] /\ isspace c = false.
Proof.
  destruct s as [|a s]; [discriminate|]. unfold tight.
  intros H. apply andb_true_iff in H as [_ H].
  destruct (exists_last (l:=a :: s)) as [s' [c E]]; [discriminate|].
  exists s', c. split; [assumption|].
  rewrite E in H. rewrite last_last in H. now destruct (isspace c).
Qed.

Lemma tight_head (s : str) :
  tight s = true -> exists c r, s = c :: r /\ isspace c = false.
Proof.
  destruct s as [|a s]; [discriminate|]. unfold tight.
  intros H. apply andb_true_iff in H as [H _].
  exists a, s. split; [reflexivity|]. now destruct (isspace a).
Qed.

Lemma rstrip_tight (s : str) : tight s = true -> rstrip s = s.
Proof.
  intros H. destruct (tight_snoc _ H) as [s' [c [-> Hc]]].
  now apply rstrip_snoc.
Qed.

Lemma lstrip_tight (s : str) : tight s = true -> lstrip s = s.
Proof.
  intros H. destruct (tight_head _ H) as [c [r [-> Hc]]].
  now apply lstrip_head.
Qed.

Lemma strip_tight (s : str) : tight s = true -> strip s = s.
Proof.
  intros H. unfold strip. rewrite rstrip_tight by assumption.
  now apply lstrip_tight.
Qed.

Lemma rstrip_app_blank (s w : str) : blank w = true -> rstrip (s ++ w) = rstrip s.
Proof.
  intros H. unfold rstrip. rewrite rev_app_distr.
  f_equal. revert H. rewrite <- (blank_rev w).
  induction (rev w) as [|c r IH]; simpl; [reflexivity|].
  intros H. apply andb_true_iff in H as [Hc Hr]. rewrite Hc. auto.
Qed.

Lemma lstrip_blank_app (w s : str) : blank w = true -> lstrip (w ++ s) = lstrip s.
Proof.
  induction w as [|c w IH]; simpl; [reflexivity|].
  intros H. apply andb_true_iff in H as [Hc Hw]. rewrite Hc. auto.
Qed.

Lemma split_nonempty (c : ascii) (s : str) : split c s <> [].
Proof.
  induction s as [|x s IH]; simpl; [discriminate|].
  destruct (Ascii.eqb x c); [discriminate|].
  destruct (split c s); [contradiction|discriminate].
Qed.

Lemma split_free (c : ascii) (a : str) : free_of c a = true -> split c a = [a].
Proof.
  induction a as [|x a IH]; simpl; [reflexivity|].
  intros H. apply andb_true_iff in H as [Hx Ha].
  apply negb_true_iff in Hx. rewrite Hx, (IH Ha). reflexivity.
Qed.

Lemma split_app_sep (c : ascii) (a b : str) :
  free_of c a = true -> split c (a ++ c :: b) = a :: split c b.
Proof.
  induction a as [|x a IH]; simpl.
  - intros _. now rewrite Ascii.eqb_refl.
  - intros H. apply andb_true_iff in H as [Hx Ha].
    apply negb_true_iff in Hx. rewrite Hx, (IH Ha). reflexivity.
Qed.

Lemma rstrip_app_nonblank (a s : str) :
  blank s = false -> rstrip (a ++ s) = a ++ rstrip s.
Proof.
  intros H. unfold rstrip. rewrite rev_app_distr.
  rewrite lstrip_app_nonblank by now rewrite blank_rev.
  now rewrite rev_app_distr, rev_involutive.
Qed.

Lemma strip_blank_app (w s : str) : blank w = true -> strip (w ++ s) = strip s.
Proof.
  intros H. destruct (blank s) eqn:B.
  - rewrite !strip_blank; [reflexivity|assumption|].
    now rewrite blank_app, H, B.
  - unfold strip. rewrite rstrip_app_nonblank by assumption.
    now apply lstrip_blank_app.
Qed.

Lemma strip_app_blank (s w : str) : blank w = true -> strip (s ++ w) = strip s.
Proof. intros H. unfold strip. now rewrite rstrip_app_blank. Qed.

Lemma split_app_sep_any (c : ascii) (a b : str) :
  split c (a ++ c :: b) = split c a ++ split c b.
Proof.
  induction a as [|x a IH]; simpl.
  - now rewrite Ascii.eqb_refl.
  - destruct (Ascii.eqb x c); [now rewrite IH|].
    rewrite IH. destruct (split c a) as [|h t] eqn:E; [|reflexivity].
    now apply split_nonempty in E.
Qed.

Lemma split_join (c : ascii) (parts : list str) :
  parts <> [] -> split c (join [c] parts) = flat_map (split c) parts.
Proof.
  induction parts as [|x rest IH]; [contradiction|]. intros _.
  destruct rest as [|y rest].
  - simpl. now rewrite app_nil_r.
  - change (join [c] (x :: y :: rest)) with (x ++ c :: join [c] (y :: rest)).
    rewrite split_app_sep_any, IH by discriminate. reflexivity.
Qed.

Lemma split_snoc (c x : ascii) (s : str) :
  split c (s ++ [x])
  = if Ascii.eqb x c then split c s ++ [[]]
    else removelast (split c s) ++ [last (split c s) [] ++ [x]].
Proof.
  induction s as [|y s IH].
  - simpl. destruct (Ascii.eqb x c); reflexivity.
  - cbn [app split]. rewrite IH.
    pose proof (split_nonempty c s) as N.
    destruct (split c s) as [|h t]; [contradiction|].
    destruct (Ascii.eqb y c), (Ascii.eqb x c); try reflexivity;
      destruct t; reflexivity.
Qed.

End PyFacts.

Import PyFacts.

(** ** The rich text builder *)

Section RichText.

Lemma validate_content_blank (s : str) :
  blank s = true -> validate_content s = Err (ValueError ContentEmpty).
Proof.
  intros H. unfold validate_content.
  rewrite truthy_strip, H. simpl. now rewrite orb_true_r.
Qed.

Lemma validate_content_long (s : str) :
  blank s = false -> MAX_TEXT_LENGTH < length s ->
  validate_content s = Err (ValueError ContentTooLong).
Proof.
  intros H L. unfold validate_content.
  rewrite truthy_strip, H.
  assert (truthy (JStr s) = true) as ->.
  { destruct s; [discriminate H|reflexivity]. }
  simpl. apply Nat.ltb_lt in L. now rewrite L.
Qed.

Lemma validate_content_ok (s : str) :
  blank s = false -> length s <= MAX_TEXT_LENGTH ->
  validate_content s = Ok (strip s).
Proof.
  intros H L. unfold validate_content.
  rewrite truthy_strip, H.
  assert (truthy (JStr s) = true) as ->.
  { destruct s; [discriminate H|reflexivity]. }
  simpl. apply Nat.ltb_ge in L. now rewrite L.
Qed.

(** The single run that [create_rich_text] returns for plain content. *)
Lemma create_rich_text_plain (s : str) :
  blank s = false -> length s <= MAX_TEXT_LENGTH ->
  create_rich_text (JStr s) None None = Ok (text_run (strip s)).
Proof.
  intros H L. unfold create_rich_text.
  assert (truthy (JStr s) = true) as ->.
  { destruct s; [discriminate H|reflexivity]. }
  simpl. now rewrite validate_content_ok.
Qed.

Lemma create_rich_text_blank (s : str) :
  blank s = true ->
  create_rich_text (JStr s) None None = Err (ValueError ContentEmpty).
Proof.
  intros H. unfold create_rich_text.
  destruct (truthy (JStr s)); simpl; [|reflexivity].
  now rewrite validate_content_blank.
Qed.

End RichText.

(** C5, as the claim has it, fails: a string of 2001 spaces is rejected
    for being empty, not for its length. *)
Lemma C5_blank_2001_is_content_empty :
  length (repeat " "%char 2001) = 2001 /\
  create_rich_text (JStr (repeat " "%char 2001)) None None
    = Err (ValueError ContentEmpty) /\
  create_rich_text (JStr (repeat " "%char 2001)) None None
    <> Err (ValueError ContentTooLong).
Proof.
  split; [apply repeat_length|].
  assert (create_rich_text (JStr (repeat " "%char 2001)) None None
          = Err (ValueError ContentEmpty)) as E.
  { apply create_rich_text_blank. vm_compute. reflexivity. }
  split; [exact E|]. rewrite E. discriminate.
Qed.

(** C5 (amended): [create_rich_text] with the empty string, with a
    string of whitespace only, or with [None] fails with the
    content-empty error; a string of length 2001 fails, with the length
    error when it is not blank and with the content-empty error when it
    is; a string of length 2000 that is not blank succeeds and yields
    one run with the stripped content. *)
Theorem C5_validation_boundary :
  create_rich_text (JStr []) None None = Err (ValueError ContentEmpty) /\
  create_rich_text JNone None None = Err (ValueError ContentEmpty) /\
  (forall s, blank s = true ->
     create_rich_text (JStr s) None None = Err (ValueError ContentEmpty)) /\
  (forall s, length s = 2001 -> blank s = false ->
     create_rich_text (JStr s) None None = Err (ValueError ContentTooLong)) /\
  (forall s, length s = 2000 -> blank s = false ->
     create_rich_text (JStr s) None None = Ok (text_run (strip s))).
Proof.
  split; [reflexivity|]. split; [reflexivity|].
  split; [exact create_rich_text_blank|]. split.
  - intros s L B. unfold create_rich_text.
    assert (truthy (JStr s) = true) as ->.
    { destruct s; [discriminate B|reflexivity]. }
    simpl. rewrite validate_content_long; [reflexivity|assumption|].
    unfold MAX_TEXT_LENGTH. lia.
  - intros s L B. apply create_rich_text_plain; [assumption|].
    unfold MAX_TEXT_LENGTH. lia.
Qed.

Lemma C5_validation_boundary_witness :
  create_rich_text (JStr (lit "   ")) None None = Err (ValueError ContentEmpty) /\
  create_rich_text (JStr (repeat "x"%char 2001)) None None
    = Err (ValueError ContentTooLong) /\
  create_rich_text (JStr (repeat "x"%char 2000)) None None
    = Ok (text_run (strip (repeat "x"%char 2000))).
Proof.
  destruct C5_validation_boundary as [_ [_ [Hb [Hl Hok]]]].
  split; [apply Hb; reflexivity|].
  split; [apply Hl; vm_compute; reflexivity|].
  apply Hok; vm_compute; reflexivity.
Defined.

(** ** The block builders *)




(** ** The serializer *)

(** C3: a code block between two numbered items does not reset the
    counter (the second item comes out as [2.]), where a quote between
    them does. *)
Lemma C3_code_block_keeps_counter :
  (bs <- numbered_code_numbered ;; blocks_to_markdown bs)
    = Ok (nl "1. a||```|x|```||2. b") /\
  (bs <- numbered_quote_numbered ;; blocks_to_markdown bs)
    = Ok (nl "1. a||> x||1. b").
Proof. split; vm_compute; reflexivity. Qed.

(** C10: the empty fence parses to a code block with neither a
    [content] nor a [rich_text] entry, on which [blocks_to_markdown]
    raises [KeyError]. *)
Theorem C10_empty_fence_not_serializable :
  let block := JDict [(lit "type", S_ "code"); (lit "code", JDict [])] in
  parse_markdown_to_blocks (fence ++ [newline] ++ fence) = Ok [block] /\
  (exists inner,
     getitem block (S_ "code") = Ok (JDict inner) /\
     Dict.get (lit "content") inner = None /\
     Dict.get (lit "rich_text") inner = None) /\
  blocks_to_markdown [block] = Err (KeyError (S_ "rich_text")).
Proof.
  split; [vm_compute; reflexivity|]. split.
  - exists []. repeat split.
  - vm_compute. reflexivity.
Qed.

(** ** The page client *)

(** C8, as the claim has it, fails: an empty mapping is a supplied
    [properties] argument, and the body that is sent does not hold it. *)
Lemma C8_empty_properties_not_sent :
  let w := start (srv:=mock (JDict [])) tt in
  let out := PagesAPI.update_page (lit "page") (Some []) None w in
  snd out = Ok (JDict []) /\
  sent (fst out) = [mkRequest PATCH (lit "pages/page") [] (Some (JDict []))] /\
  Dict.mem (lit "properties") [] = false.
Proof. repeat split. Qed.

(** C8 (amended): [update_page] fails with the nothing-to-update
    [ValueError], sending nothing and leaving the world as it is, when
    both arguments are [None]; in every other case it raises no
    [ValueError] and sends one [PATCH pages/{id}] whose body holds
    [properties] exactly when a non-empty mapping was supplied, [archived]
    exactly when it was supplied, and no other key. *)
Theorem C8_update_page (srv : service) (w : world srv) (page_id : str)
    (properties : option dict) (archived : option bool) :
  (properties = None /\ archived = None ->
   PagesAPI.update_page page_id properties archived w
   = (w, Err (ValueError NothingToUpdate))) /\
  (~ (properties = None /\ archived = None) ->
   exists body,
     sent (fst (PagesAPI.update_page page_id properties archived w))
     = sent w ++ [mkRequest PATCH (lit "pages/" ++ page_id) [] (Some (JDict body))] /\
     (forall e, snd (PagesAPI.update_page page_id properties archived w)
                <> Err (ValueError e)) /\
     Dict.get (lit "properties") body
     = match properties with
       | Some ((_ :: _) as p) => Some (JDict p)
       | _ => None
       end /\
     Dict.get (lit "archived") body = option_map JBool archived /\
     (forall k, Dict.mem k body = true ->
                k = lit "properties" \/ k = lit "archived")).
Proof.
  split.
  - intros [-> ->]. reflexivity.
  - intros H.
    assert (forall body,
              sent (fst (call (srv:=srv) (mkRequest PATCH (lit "pages/" ++ page_id) []
                                    (Some (JDict body))) w))
              = sent w ++ [mkRequest PATCH (lit "pages/" ++ page_id) [] (Some (JDict body))]
              /\ forall e, snd (call (srv:=srv)
                                  (mkRequest PATCH (lit "pages/" ++ page_id) []
                                     (Some (JDict body))) w)
                           <> Err (ValueError e)) as Hcall.
    { intros body. unfold call.
      destruct (serve srv (state w) _) as [st [code b|]]; simpl.
      - destruct (is_success code); simpl; split; try reflexivity; discriminate.
      - split; [reflexivity|discriminate]. }
    assert (forall k v, Dict.mem k [(lit "properties", v)] = true -> k = lit "properties") as K1.
    { intros k v. unfold Dict.mem. cbn [Dict.get].
      destruct (str_eqb k (lit "properties")) eqn:E; [|discriminate].
      intros _. now apply str_eqb_eq. }
    assert (forall k v, Dict.mem k [(lit "archived", v)] = true -> k = lit "archived") as K2.
    { intros k v. unfold Dict.mem. cbn [Dict.get].
      destruct (str_eqb k (lit "archived")) eqn:E; [|discriminate].
      intros _. now apply str_eqb_eq. }
    destruct properties as [[|kv p]|], archived as [a|];
      try (exfalso; apply H; split; reflexivity).
    + exists [(lit "archived", JBool a)].
      destruct (Hcall [(lit "archived", JBool a)]) as [S1 S2].
      repeat split; try assumption; try reflexivity. intros k Hk. right. eauto.
    + exists []. destruct (Hcall []) as [S1 S2].
      repeat split; try assumption; try reflexivity. intros k Hk. unfold Dict.mem in Hk. simpl in Hk. discriminate Hk.
    + exists [(lit "properties", JDict (kv :: p)); (lit "archived", JBool a)].
      destruct (Hcall [(lit "properties", JDict (kv :: p)); (lit "archived", JBool a)])
        as [S1 S2].
      repeat split; try assumption; try reflexivity.
      intros k. unfold Dict.mem. cbn [Dict.get].
      destruct (str_eqb k (lit "properties")) eqn:E1.
      * intros _. left. now apply str_eqb_eq.
      * destruct (str_eqb k (lit "archived")) eqn:E2; [|discriminate].
        intros _. right. now apply str_eqb_eq.
    + exists [(lit "properties", JDict (kv :: p))].
      destruct (Hcall [(lit "properties", JDict (kv :: p))]) as [S1 S2].
      repeat split; try assumption; try reflexivity. intros k Hk. left. eauto.
    + exists [(lit "archived", JBool a)].
      destruct (Hcall [(lit "archived", JBool a)]) as [S1 S2].
      repeat split; try assumption; try reflexivity. intros k Hk. right. eauto.
Qed.

Lemma C8_update_page_witness :
  let w := start (srv:=mock (JDict [])) tt in
  PagesAPI.update_page (lit "page") None None w
  = (w, Err (ValueError NothingToUpdate)) /\
  exists body,
    sent (fst (PagesAPI.update_page (lit "page") None (Some true) w))
    = sent w ++ [mkRequest PATCH (lit "pages/page") [] (Some (JDict body))] /\
    Dict.get (lit "archived") body = Some (JBool true).
Proof.
  intros w. split.
  - apply (proj1 (C8_update_page w (lit "page") None None)). split; reflexivity.
  - destruct (proj2 (C8_update_page w (lit "page") None (Some true)))
      as [body [S1 [_ [_ [A _]]]]].
    + intros [_ A]. discriminate A.
    + exists body. split; assumption.
Defined.

(** ** Batched append *)

Section Append.
Variable srv : service.
Hypothesis accepting : accepts_appends srv.

Lemma append_batch_sends (block_id : str) (blocks : list json) (n i : nat)
    (after batch_after : json) (results : list json) (w : world srv) :
  (if i =? 0 then Ok after
   else match nth_error blocks (i - 1) with
        | Some b => dget b (lit "id") JNone
        | None => Err IndexError
        end) = Ok batch_after ->
  exists w' after' result,
    BlocksAPI.append_batch block_id blocks n i (after, results) w
    = (w', Ok (after', results ++ [result])) /\
    sent w' = sent w ++
      [mkRequest PATCH (lit "blocks/" ++ block_id ++ lit "/children") []
         (Some (JDict ((lit "children", JList (firstn n (skipn i blocks)))
                       :: (if truthy batch_after
                           then [(lit "after", batch_after)] else []))))].
Proof.
  intros Hb. unfold BlocksAPI.append_batch, bind.
  assert ((if i =? 0 then ret after
           else match nth_error blocks (i - 1) with
                | Some b => lift (dget b (lit "id") JNone)
                | None => raise IndexError
                end) w = (w, Ok batch_after)) as ->.
  { destruct (i =? 0); [unfold ret; now inversion Hb|].
    destruct (nth_error blocks (i - 1)); [unfold lift; now rewrite Hb|discriminate]. }
  cbv beta iota. unfold call at 1. cbv beta iota.
  destruct (accepting (state w)
              (mkRequest PATCH (lit "blocks/" ++ block_id ++ lit "/children") []
                 (Some (JDict ((lit "children", JList (firstn n (skipn i blocks)))
                               :: (if truthy batch_after
                                   then [(lit "after", batch_after)] else []))))))
    as [st' [code [body [E [Hc [r [Hr Hlast]]]]]]].
  rewrite E, Hc. cbv beta iota. unfold lift at 1. rewrite Hr. cbv beta iota.
  destruct (truthy r) eqn:T.
  - destruct (Hlast eq_refl) as [i' Hi]. unfold lift. rewrite Hi.
    unfold ret. eexists _, _, _. split; reflexivity.
  - unfold ret. eexists _, _, _. split; reflexivity.
Qed.

End Append.

(** C2: with 150 blocks that carry an id, a batch size of 100 and a
    service that accepts appends, [append_children] sends exactly two
    requests, with the first 100 and the last 50 blocks; the first
    carries the caller's anchor and the second the id of the 100th input
    block, whatever the first response returned.  With a batch size
    above 100 it raises the batch-size [ValueError] and sends nothing. *)
Theorem C2_batched_append (srv : service) (w : world srv) (block_id : str)
    (blocks : list json) (after : json) :
  (length blocks = 150 ->
   (forall b, In b blocks -> exists i, carries_id b i) ->
   accepts_appends srv ->
   exists r1 r2 b100 i,
     sent (fst (BlocksAPI.append_children block_id blocks after 100 w))
     = sent w ++ [r1; r2] /\
     nth_error blocks 99 = Some b100 /\ carries_id b100 i /\
     anchor r2 = Some i /\
     anchor r1 = (if truthy after then Some after else None) /\
     sent_children r1 = Some (JList (firstn 100 blocks)) /\
     sent_children r2 = Some (JList (skipn 100 blocks))) /\
  (forall batch_size, (100 < batch_size)%Z ->
   BlocksAPI.append_children block_id blocks after batch_size w
   = (w, Err (ValueError BatchSizeExceeded))).
Proof.
  split.
  - intros L Hid Hsrv.
    destruct (nth_error blocks 99) as [b100|] eqn:E99.
    2:{ apply nth_error_None in E99. lia. }
    destruct (Hid b100 (nth_error_In _ _ E99)) as [i [d [-> [Hd Hi]]]].
    unfold BlocksAPI.append_children.
    change (100 <? 100)%Z with false. rewrite L.
    change (100 <? Z.of_nat 150)%Z with true.
    change (100 =? 0)%Z with false. change (100 <? 0)%Z with false.
    change (py_range 150 (Z.to_nat 100)) with [0; 100].
    change (Z.to_nat 100) with 100.
    cbv iota. unfold bind at 1. cbn [BlocksAPI.for_each]. unfold bind at 1.
    destruct (append_batch_sends Hsrv block_id blocks 100 0 after [] w
                (batch_after:=after) eq_refl)
      as [w1 [after1 [res1 [E1 S1]]]].
    rewrite E1. unfold bind at 1.
    destruct (append_batch_sends Hsrv block_id blocks 100 100 after1 ([] ++ [res1]) w1
                (batch_after:=i))
      as [w2 [after2 [res2 [E2 S2]]]].
    { change (100 =? 0) with false. change (100 - 1) with 99. rewrite E99.
      cbv iota. unfold dget. now rewrite Hd. }
    rewrite E2. unfold ret. cbn [fst].
    eexists _, _, (JDict d), i. split.
    { rewrite S2, S1, <- app_assoc. reflexivity. }
    split; [reflexivity|]. split; [exists d; auto|].
    rewrite Hi. split; [reflexivity|]. split.
    { unfold anchor. cbn [req_json]. now destruct (truthy after). }
    split.
    { unfold sent_children. cbn [req_json]. reflexivity. }
    unfold sent_children. cbn [req_json]. cbn [Dict.get].
    change (str_eqb (lit "children") (lit "children")) with true. cbv iota.
    do 2 f_equal. apply firstn_all2. rewrite length_skipn. lia.
  - intros batch_size H. unfold BlocksAPI.append_children.
    apply Z.ltb_lt in H. now rewrite H.
Qed.

Lemma C2_batched_append_witness :
  exists r1 r2,
    sent (fst (BlocksAPI.append_children (lit "page") hundred_fifty_blocks JNone 100
                 (start (srv:=mock returned_block) tt)))
    = [r1; r2] /\
    anchor r2 = Some (JStr (lit "in-100")).
Proof.
  destruct (proj1 (C2_batched_append (start (srv:=mock returned_block) tt)
                     (lit "page") hundred_fifty_blocks JNone))
    as [r1 [r2 [b100 [i [S [E [C [A _]]]]]]]].
  - reflexivity.
  - intros b Hb. unfold hundred_fifty_blocks in Hb.
    apply in_map_iff in Hb as [k [<- _]].
    exists (JStr (lit "in-" ++ str_of_nat k)),
           [(lit "id", JStr (lit "in-" ++ str_of_nat k))].
    repeat split.
  - intros st r. exists tt, 200%Z, returned_block.
    split; [reflexivity|]. split; [reflexivity|].
    eexists. split; [reflexivity|]. intros _. eexists. reflexivity.
  - exists r1, r2. split; [exact S|].
    vm_compute in E. injection E as <-.
    destruct C as [d [Ed [Hd _]]]. injection Ed as <-.
    vm_compute in Hd. injection Hd as <-. exact A.
Defined.

(** ** Todo properties *)

(** C9, as the claim has it, fails: a record with an empty tag list is
    valid, its [Tags] entry is left out although the input is there, and
    it comes back with no tag list. *)
Lemma C9_empty_tags_not_preserved :
  valid_todo todo_with_empty_tags = true /\
  Dict.mem (lit "Tags") (to_notion_properties (fun d => d) todo_with_empty_tags) = false /\
  from_notion_properties Some
    (JDict (to_notion_properties (fun d => d) todo_with_empty_tags))
  = Ok (mkTodo (lit "x") None None None None None) /\
  mkTodo (lit "x") None None None None None <> todo_with_empty_tags.
Proof. repeat split; try reflexivity. discriminate. Qed.

Section TodoRoundTrip.

Variable datetime : Type.
Variable isoformat : datetime -> str.
Variable fromisoformat : str -> option datetime.

Notation bag t := (to_notion_properties isoformat t).

Ltac by_cases t :=
  unfold to_notion_properties;
  destruct (description t) as [[|? ?]|], (due_date t), (priority t) as [[|? ?]|],
           (tags t) as [[|? ?]|], (status t) as [[|? ?]|]; reflexivity.

Lemma bag_task (t : TodoProperties datetime) :
  Dict.get (lit "Task") (bag t)
  = Some (JDict [(lit "title", text_run (firstn MAX_TITLE_LENGTH (task t)))]).
Proof. by_cases t. Qed.

Lemma bag_description (t : TodoProperties datetime) :
  Dict.get (lit "Description") (bag t)
  = match description t with
    | Some ((_ :: _) as d) =>
        Some (JDict [(lit "rich_text", text_run (firstn MAX_TEXT_LENGTH d))])
    | _ => None
    end.
Proof. by_cases t. Qed.

Lemma bag_due_date (t : TodoProperties datetime) :
  Dict.get (lit "Due Date") (bag t)
  = match due_date t with
    | Some d => Some (JDict [(lit "date", JDict [(lit "start", JStr (isoformat d))])])
    | None => None
    end.
Proof. by_cases t. Qed.

Lemma bag_priority (t : TodoProperties datetime) :
  Dict.get (lit "Priority") (bag t)
  = match priority t with
    | Some ((_ :: _) as p) => Some (JDict [(lit "select", JDict [(lit "name", JStr p)])])
    | _ => None
    end.
Proof. by_cases t. Qed.

Lemma bag_tags (t : TodoProperties datetime) :
  Dict.get (lit "Tags") (bag t)
  = match tags t with
    | Some ((_ :: _) as l) =>
        Some (JDict [(lit "multi_select",
                      JList (map (fun tag => JDict [(lit "name", JStr tag)]) l))])
    | _ => None
    end.
Proof. by_cases t. Qed.

Lemma bag_status (t : TodoProperties datetime) :
  Dict.get (lit "Status") (bag t)
  = match status t with
    | Some ((_ :: _) as x) => Some (JDict [(lit "status", JDict [(lit "name", JStr x)])])
    | _ => None
    end.
Proof. by_cases t. Qed.

Lemma names_of_tags (l : list str) :
  map_result (fun tag => getitem tag (S_ "name"))
             (map (fun tag => JDict [(lit "name", JStr tag)]) l)
  = Ok (map JStr l).
Proof.
  induction l as [|x l IH]; [reflexivity|].
  cbn [map map_result]. rewrite IH. reflexivity.
Qed.

Lemma as_str_list_strs (l : list str) : as_str_list (map JStr l) = Ok l.
Proof.
  induction l as [|x l IH]; [reflexivity|].
  cbn [map as_str_list]. rewrite IH. reflexivity.
Qed.

Lemma opt_in_nonempty (allowed : list string) (x : str) :
  Forall (fun a => lit a <> []) allowed ->
  opt_in allowed (Some x) = true -> x <> [].
Proof.
  intros Hall H ->. unfold opt_in in H.
  induction Hall as [|a l Ha _ IH]; [discriminate|].
  cbn [existsb] in H. apply orb_true_iff in H as [H|H]; [|auto].
  apply str_eqb_eq in H. congruence.
Qed.

Lemma validate_pattern_in (field : string) (allowed : list string) (v : option str) :
  opt_in allowed v = true -> validate_pattern field allowed v = Ok v.
Proof.
  destruct v as [x|]; [|reflexivity]. unfold opt_in, validate_pattern.
  now intros ->.
Qed.

Lemma valid_task_ok (v : str) :
  truthy (JStr v) = true -> str_eqb (strip v) v = true ->
  length v <= MAX_TITLE_LENGTH ->
  validate_task (firstn MAX_TITLE_LENGTH v) = Ok v.
Proof.
  intros T S L. rewrite firstn_all2 by assumption.
  apply str_eqb_eq in S. unfold validate_task. rewrite S, T.
  apply Nat.ltb_ge in L. now rewrite L.
Qed.

Lemma valid_description_ok (d : str) :
  truthy (JStr d) = true -> str_eqb (strip d) d = true ->
  length d <= MAX_TEXT_LENGTH ->
  validate_description (Some (firstn MAX_TEXT_LENGTH d)) = Ok (Some d).
Proof.
  intros T S L. rewrite firstn_all2 by assumption.
  apply str_eqb_eq in S. unfold validate_description. rewrite S, T.
  apply Nat.ltb_ge in L. now rewrite L.
Qed.

Lemma new_TodoProperties_valid (t : TodoProperties datetime) :
  valid_todo t = true ->
  new_TodoProperties (JStr (task t)) (json_of_opt (description t)) (due_date t)
    (json_of_opt (priority t)) (option_map (map JStr) (tags t))
    (json_of_opt (status t))
  = Ok t.
Proof.
  intros V. unfold valid_todo in V.
  apply andb_true_iff in V as [V Vs]. apply andb_true_iff in V as [V Vp].
  apply andb_true_iff in V as [V Vd]. apply andb_true_iff in V as [V Vl].
  apply andb_true_iff in V as [Vt Vk].
  destruct t as [tk de du pr tg st].
  cbn [task description due_date priority tags status] in *.
  unfold new_TodoProperties.
  assert (validate_task tk = Ok tk) as ->.
  { apply Nat.leb_le in Vl.
    rewrite <- (firstn_all2 (n:=MAX_TITLE_LENGTH) tk) at 1 by assumption.
    now apply valid_task_ok. }
  cbn [rbind].
  assert (d <- as_opt_str (json_of_opt de) ;; validate_description d = Ok de) as E.
  { destruct de as [d|]; [|reflexivity]. cbn [json_of_opt as_opt_str rbind].
    apply andb_true_iff in Vd as [Vd Vdl]. apply andb_true_iff in Vd as [Vdt Vdk].
    apply Nat.leb_le in Vdl.
    rewrite <- (firstn_all2 (n:=MAX_TEXT_LENGTH) d) at 1 by assumption.
    now apply valid_description_ok. }
  destruct (as_opt_str (json_of_opt de)) as [e|d] eqn:Ed; [discriminate E|].
  cbn [rbind] in E |- *. rewrite E. cbn [rbind].
  assert (forall o, as_opt_str (json_of_opt o) = Ok o) as A by (now intros [x|]).
  rewrite !A. cbn [rbind].
  rewrite (validate_pattern_in "priority" _ _ Vp). cbn [rbind].
  assert ((match option_map (map JStr) tg with
           | Some l => l' <- as_str_list l ;; Ok (Some l')
           | None => Ok None
           end) = Ok tg) as ->.
  { destruct tg as [l|]; [|reflexivity]. cbn [option_map].
    now rewrite as_str_list_strs. }
  cbn [rbind]. now rewrite (validate_pattern_in "status" _ _ Vs).
Qed.

Lemma nonempty_allowed :
  Forall (fun a => lit a <> []) priorities /\ Forall (fun a => lit a <> []) statuses.
Proof. split; repeat constructor; discriminate. Qed.

(** C9 (amended): for a valid record whose tags are absent or a list
    that is not empty, the property bag read back is the record with
    its due date replaced by [fromisoformat] of its [isoformat] text,
    and reading fails when [fromisoformat] refuses that text; so the
    round trip is the identity exactly when there is no due date or the
    due date is read back as itself.  Each optional field is in the bag
    exactly when its input is there. *)
Theorem C9_todo_roundtrip (t : TodoProperties datetime) :
  valid_todo t = true -> tags t <> Some [] ->
  from_notion_properties fromisoformat (JDict (bag t))
  = match due_date t with
    | None => Ok t
    | Some d =>
        match fromisoformat (isoformat d) with
        | Some d' => Ok (with_due_date t (Some d'))
        | None => Err (ValueError InvalidIsoformat)
        end
    end /\
  (from_notion_properties fromisoformat (JDict (bag t)) = Ok t
   <-> forall d, due_date t = Some d -> fromisoformat (isoformat d) = Some d) /\
  Dict.mem (lit "Task") (bag t) = true /\
  Dict.mem (lit "Description") (bag t) = is_some (description t) /\
  Dict.mem (lit "Due Date") (bag t) = is_some (due_date t) /\
  Dict.mem (lit "Priority") (bag t) = is_some (priority t) /\
  Dict.mem (lit "Tags") (bag t) = is_some (tags t) /\
  Dict.mem (lit "Status") (bag t) = is_some (status t).
Proof.
  intros V T.
  assert (forall du, new_TodoProperties (JStr (task t)) (json_of_opt (description t))
                       du (json_of_opt (priority t))
                       (option_map (map JStr) (tags t)) (json_of_opt (status t))
                     = Ok (with_due_date t du)) as N.
  { intros du. exact (new_TodoProperties_valid (with_due_date t du) V). }
  assert (from_notion_properties fromisoformat (JDict (bag t))
          = match due_date t with
            | None => Ok t
            | Some d =>
                match fromisoformat (isoformat d) with
                | Some d' => Ok (with_due_date t (Some d'))
                | None => Err (ValueError InvalidIsoformat)
                end
            end /\
          Dict.mem (lit "Task") (bag t) = true /\
          Dict.mem (lit "Description") (bag t) = is_some (description t) /\
          Dict.mem (lit "Due Date") (bag t) = is_some (due_date t) /\
          Dict.mem (lit "Priority") (bag t) = is_some (priority t) /\
          Dict.mem (lit "Tags") (bag t) = is_some (tags t) /\
          Dict.mem (lit "Status") (bag t) = is_some (status t)) as [R M].
  { unfold valid_todo in V.
    apply andb_true_iff in V as [V Vs]. apply andb_true_iff in V as [V Vp].
    apply andb_true_iff in V as [V Vd]. apply andb_true_iff in V as [V Vl].
    apply andb_true_iff in V as [Vt Vk].
    unfold from_notion_properties, prop_get, dget, getitem, S_, Dict.mem.
    rewrite bag_task, bag_description, bag_due_date, bag_priority, bag_tags,
      bag_status.
    apply Nat.leb_le in Vl. rewrite (firstn_all2 (task t)) by assumption.
    assert (match description t with
            | Some ((_ :: _) as d) =>
                Some (JDict [(lit "rich_text", text_run (firstn MAX_TEXT_LENGTH d))])
            | _ => None
            end
            = option_map (fun d => JDict [(lit "rich_text", text_run d)])
                (description t)
            /\ (description t <> Some [])) as [-> D].
    { destruct (description t) as [d|]; [|split; [reflexivity|discriminate]].
      apply andb_true_iff in Vd as [Vd Vdl]. apply andb_true_iff in Vd as [Vdt Vdk].
      apply Nat.leb_le in Vdl.
      rewrite (firstn_all2 d) by assumption.
      destruct d; [discriminate Vdt|]. split; [reflexivity|discriminate]. }
    assert (priority t <> Some []) as P.
    { intros E. rewrite E in Vp.
      now apply (opt_in_nonempty (proj1 nonempty_allowed)) in Vp. }
    assert (status t <> Some []) as S.
    { intros E. rewrite E in Vs.
      now apply (opt_in_nonempty (proj2 nonempty_allowed)) in Vs. }
    clear Vt Vk Vl Vd Vp Vs.
    destruct t as [tk de du pr tg st]. unfold with_due_date in *.
    cbn [task description due_date priority tags status] in *.
    destruct de as [[|? ?]|]; try (now contradiction D);
    destruct du as [d|];
    destruct pr as [[|? ?]|]; try (now contradiction P);
    destruct tg as [[|? ?]|]; try (now contradiction T);
    destruct st as [[|? ?]|]; try (now contradiction S);
    cbn -[new_TodoProperties map_result map];
    try destruct (fromisoformat (isoformat d)) as [d'|];
    cbn -[new_TodoProperties map_result map];
    rewrite ?names_of_tags;
    cbn -[new_TodoProperties map_result map];
    (split; [first [exact (N _)|reflexivity]|repeat split]). }
  split; [exact R|]. split; [|exact M].
  rewrite R. destruct t as [tk de [d|] pr tg st]; unfold with_due_date;
    cbn [task description due_date priority tags status].
  - destruct (fromisoformat (isoformat d)) as [d'|] eqn:F; split.
    + intros H d0 [= <-]. injection H as ->. exact F.
    + intros H. specialize (H d eq_refl). rewrite F in H.
      injection H as ->. reflexivity.
    + discriminate.
    + intros H. specialize (H d eq_refl). rewrite F in H. discriminate H.
  - split; [intros _ d; discriminate|reflexivity].
Qed.

End TodoRoundTrip.

Lemma C9_todo_roundtrip_witness :
  from_notion_properties stamp_fromisoformat
    (JDict (to_notion_properties stamp_isoformat (stamped_todo false)))
  = Ok (stamped_todo false)
  /\ from_notion_properties stamp_fromisoformat
       (JDict (to_notion_properties stamp_isoformat (stamped_todo true)))
     = Ok (stamped_todo false).
Proof.
  split.
  - exact (proj1 (@C9_todo_roundtrip stamp stamp_isoformat stamp_fromisoformat
                    (stamped_todo false) eq_refl ltac:(discriminate))).
  - exact (proj1 (@C9_todo_roundtrip stamp stamp_isoformat stamp_fromisoformat
                    (stamped_todo true) eq_refl ltac:(discriminate))).
Defined.

(** ** Subtasks on the remote block store *)

Module RemoteFacts.
Import Remote.

Lemma route_block (id : str) :
  free_of "/" id = true -> route (lit "blocks/" ++ id) = Some (id, false).
Proof.
  intros H. unfold route.
  change (lit "blocks/" ++ id) with (lit "blocks" ++ "/"%char :: id).
  rewrite split_app_sep by reflexivity. rewrite split_free by exact H. reflexivity.
Qed.

Lemma route_children (id : str) :
  free_of "/" id = true ->
  route (lit "blocks/" ++ id ++ lit "/children") = Some (id, true).
Proof.
  intros H. unfold route.
  change (lit "blocks/" ++ id ++ lit "/children")
    with (lit "blocks" ++ "/"%char :: (id ++ "/"%char :: lit "children")).
  rewrite split_app_sep by reflexivity. rewrite split_app_sep by exact H.
  rewrite split_free by reflexivity. reflexivity.
Qed.

Lemma has_id_with_checked (id id' : str) (c : bool) (b : stored_block) :
  has_id id (with_checked id' c b) = has_id id b.
Proof. unfold with_checked. now destruct (has_id id' b). Qed.

Lemma is_child_with_checked (id id' : str) (c : bool) (b : stored_block) :
  is_child_of id (with_checked id' c b) = is_child_of id b.
Proof. unfold with_checked. now destruct (has_id id' b). Qed.

Lemma lookup_set_checked (id id' : str) (c : bool) (st : store) :
  lookup id (set_checked id' c st) = option_map (with_checked id' c) (lookup id st).
Proof.
  unfold lookup, set_checked. induction st as [|b st IH]; [reflexivity|].
  cbn [map find]. fold (with_checked id' c b). rewrite has_id_with_checked.
  destruct (has_id id b); [reflexivity|exact IH].
Qed.

Lemma children_set_checked (id id' : str) (c : bool) (st : store) :
  children id (set_checked id' c st) = map (with_checked id' c) (children id st).
Proof.
  unfold children, set_checked. induction st as [|b st IH]; [reflexivity|].
  cbn [map filter]. fold (with_checked id' c b). rewrite is_child_with_checked.
  destruct (is_child_of id b); cbn [map]; now rewrite IH.
Qed.

(** Setting the flag of a block that is not among the children of [id]
    leaves the children of [id] as they are. *)
Lemma children_set_checked_other (id : str) (c : bool) (st : store) :
  (forall b, In b st -> has_id id b = true -> is_child_of id b = false) ->
  children id (set_checked id c st) = children id st.
Proof.
  intros H. rewrite children_set_checked.
  rewrite <- (map_id (children id st)) at 2. apply map_ext_in.
  intros b Hb. apply filter_In in Hb as [Hin Hc]. unfold with_checked.
  destruct (has_id id b) eqn:E; [|reflexivity].
  rewrite (H b Hin E) in Hc. discriminate.
Qed.

Lemma is_subtask_block_json (b : stored_block) :
  BlocksAPI.is_subtask_block (block_json b) = Ok (is_subtask b).
Proof. destruct b as [id [p|] [] ch sub]; reflexivity. Qed.

Lemma subtasks_of_page (page : list stored_block) :
  BlocksAPI.filter_result BlocksAPI.is_subtask_block (map block_json page)
  = Ok (map block_json (filter is_subtask page)).
Proof.
  induction page as [|b page IH]; [reflexivity|].
  cbn [map BlocksAPI.filter_result filter].
  rewrite is_subtask_block_json, IH. cbn [rbind].
  now destruct (is_subtask b).
Qed.

Lemma checked_field (b : stored_block) :
  is_subtask b = true ->
  (todo <- getitem (block_json b) (S_ "to_do") ;; getitem todo (S_ "checked"))
  = Ok (JBool (sb_checked b)).
Proof. destruct b as [id [p|] [] ch sub]; try discriminate; reflexivity. Qed.

Lemma all_checked_subtasks (l : list stored_block) :
  forallb is_subtask l = true ->
  BlocksAPI.all_checked (map block_json l) = Ok (forallb sb_checked l).
Proof.
  induction l as [|b l IH]; [reflexivity|].
  cbn [forallb map BlocksAPI.all_checked]. intros H.
  apply andb_true_iff in H as [Hb Hl].
  pose proof (checked_field b Hb) as C.
  destruct (getitem (block_json b) (S_ "to_do")) as [e|todo]; [discriminate C|].
  cbn [rbind] in C |- *. rewrite C. cbn [rbind truthy].
  destruct (sb_checked b); [exact (IH Hl)|reflexivity].
Qed.

Lemma forallb_filter_self {A} (f : A -> bool) (l : list A) :
  forallb f (filter f l) = true.
Proof.
  induction l as [|a l IH]; [reflexivity|]. cbn [filter].
  destruct (f a) eqn:E; [cbn [forallb]; now rewrite E|exact IH].
Qed.

End RemoteFacts.

Section RemoteCalls.

Import RemoteFacts.

Notation W st log := (mkWorld Remote.srv st log).

Lemma get_block_remote (id : str) (st : Remote.store) (log : list request)
    (b : Remote.stored_block) :
  free_of "/" id = true -> Remote.lookup id st = Some b ->
  BlocksAPI.get_block (srv:=Remote.srv) id (W st log)
  = (W st (log ++ [mkRequest GET (lit "blocks/" ++ id) [] None]),
     Ok (Remote.block_json b)).
Proof.
  intros F L. unfold BlocksAPI.get_block, call.
  cbn [serve Remote.srv state sent]. unfold Remote.serve.
  cbn [req_url req_method]. rewrite route_block by assumption. rewrite L.
  reflexivity.
Qed.

Lemma update_block_remote (id : str) (c : bool) (st : Remote.store)
    (log : list request) (b : Remote.stored_block) :
  free_of "/" id = true -> Remote.lookup id st = Some b ->
  Remote.sb_type b = TO_DO ->
  BlocksAPI.update_block (srv:=Remote.srv) id (BlocksAPI.checked_update c) (W st log)
  = (W (Remote.set_checked id c st)
       (log ++ [mkRequest PATCH (lit "blocks/" ++ id) []
                  (Some (BlocksAPI.checked_update c))]),
     Ok (Remote.block_json (with_checked id c b))).
Proof.
  intros F L T. unfold BlocksAPI.update_block, call.
  cbn [serve Remote.srv state sent]. unfold Remote.serve.
  cbn [req_url req_method req_json]. rewrite route_block by assumption.
  unfold Remote.patch_block. rewrite L, T.
  unfold BlocksAPI.checked_update.
  change (Dict.get (BlockTypes.value TO_DO)
            [(lit "to_do", JDict [(lit "checked", JBool c)])])
    with (Some (JDict [(lit "checked", JBool c)])).
  change (BlockTypes.eqb TO_DO TO_DO) with true. cbv iota beta.
  change (Dict.get (lit "checked") [(lit "checked", JBool c)]) with (Some (JBool c)).
  cbv iota beta. rewrite lookup_set_checked, L. reflexivity.
Qed.

Lemma get_subtasks_remote (id : str) (st : Remote.store) (log : list request) :
  free_of "/" id = true ->
  BlocksAPI.get_subtasks (srv:=Remote.srv) id 100 (W st log)
  = (W st (log ++ [mkRequest GET (lit "blocks/" ++ id ++ lit "/children")
                     [(lit "page_size", JInt 100)] None]),
     Ok (map Remote.block_json
           (filter Remote.is_subtask (firstn 100 (Remote.children id st))))).
Proof.
  intros F. unfold BlocksAPI.get_subtasks, BlocksAPI.get_block_children, bind, call.
  cbn [serve Remote.srv state sent]. unfold Remote.serve.
  cbn [req_url req_method req_params]. rewrite route_children by assumption.
  unfold Remote.list_children.
  change (Dict.get (lit "page_size") [(lit "page_size", JInt 100)])
    with (Some (JInt 100)).
  change (Dict.get (lit "start_cursor") [(lit "page_size", JInt 100)])
    with (@None json).
  cbv iota beta.
  change ((1 <=? 100)%Z && (100 <=? 100)%Z) with true.
  change (Z.to_nat 100) with 100. cbv iota beta.
  change (is_success 200) with true. cbv iota beta. unfold lift.
  match goal with
  | |- context [getitem (JDict ?d) (S_ "results")] =>
      change (getitem (JDict d) (S_ "results"))
        with (Ok (JList (map Remote.block_json
                           (firstn 100 (Remote.children id st)))))
  end.
  cbn [rbind iterate]. rewrite subtasks_of_page. reflexivity.
Qed.

Lemma with_checked_found (id : str) (c : bool) (st : Remote.store)
    (b : Remote.stored_block) :
  Remote.lookup id st = Some b ->
  with_checked id c b
  = Remote.mkStored (Remote.sb_id b) (Remote.sb_parent b) (Remote.sb_type b) c
      (Remote.sb_is_subtask b).
Proof.
  intros L. apply find_some in L as [_ L]. unfold with_checked. now rewrite L.
Qed.

Lemma type_with_checked (id : str) (c : bool) (b : Remote.stored_block) :
  Remote.sb_type (with_checked id c b) = Remote.sb_type b.
Proof. unfold with_checked. now destruct (Remote.has_id id b). Qed.

Lemma parent_id_of_block (b : Remote.stored_block) (pid : str) :
  Remote.sb_parent b = Some pid ->
  (parent <- dget (Remote.block_json b) (lit "parent") (JDict []) ;;
   dget parent (lit "block_id") JNone) = Ok (JStr pid).
Proof. destruct b as [id p [] ch sub]; cbn [Remote.sb_parent]; intros ->; reflexivity. Qed.

(** What [update_subtask_status] does to the store when the subtask and
    its parent are to_do blocks: two updates, the second one with the
    conjunction over the subtasks on the first page of children. *)
Lemma update_subtask_status_remote (st : Remote.store) (sid pid : str) (c : bool)
    (sb pb : Remote.stored_block) :
  free_of "/" sid = true -> free_of "/" pid = true -> pid <> [] ->
  Remote.lookup sid st = Some sb -> Remote.sb_type sb = TO_DO ->
  Remote.sb_parent sb = Some pid ->
  Remote.lookup pid st = Some pb -> Remote.sb_type pb = TO_DO ->
  let st1 := Remote.set_checked sid c st in
  let all := forallb Remote.sb_checked
               (filter Remote.is_subtask (firstn 100 (Remote.children pid st1))) in
  exists log response,
    BlocksAPI.update_subtask_status (srv:=Remote.srv) sid c true (start (srv:=Remote.srv) st)
    = (W (Remote.set_checked pid all st1) log, Ok response).
Proof.
  intros Fs Fp Np Ls Ts Ps Lp Tp st1 all.
  unfold BlocksAPI.update_subtask_status, bind, start.
  rewrite (@update_block_remote sid c st [] sb Fs Ls Ts). cbv iota beta.
  fold st1.
  assert (Remote.lookup sid st1 = Some (with_checked sid c sb)) as Ls1.
  { unfold st1. now rewrite lookup_set_checked, Ls. }
  rewrite (@get_block_remote sid st1 _ _ Fs Ls1). cbv iota beta. unfold lift at 1.
  rewrite (@parent_id_of_block (with_checked sid c sb) pid).
  2:{ rewrite (@with_checked_found sid c st sb Ls). exact Ps. }
  cbv iota beta.
  assert (truthy (JStr pid) = true) as -> by (destruct pid; [contradiction|reflexivity]).
  unfold lift at 1. cbn [format]. cbv iota beta.
  rewrite (@get_subtasks_remote pid st1 _ Fp). cbv iota beta. unfold lift at 1.
  rewrite all_checked_subtasks by apply forallb_filter_self.
  cbv iota beta. fold all.
  assert (Remote.lookup pid st1 = Some (with_checked sid c pb)) as Lp1.
  { unfold st1. now rewrite lookup_set_checked, Lp. }
  rewrite (@update_block_remote pid all st1 _ _ Fp Lp1).
  2:{ now rewrite type_with_checked. }
  eexists _, _. reflexivity.
Qed.

End RemoteCalls.

(** C7: the code does not do what the claim says, and what the
    docstring of [get_subtasks] ("all subtasks") and the comment in
    [update_subtask_status] ("all sibling subtasks") say.  With 101
    subtasks, of which the last is not checked, checking the first
    leaves the parent checked: only the first page of 100 children is
    read. *)
Lemma C7_subtask_beyond_first_page_ignored :
  let st' := after_update (lit "s1") true crowded_store in
  length (Remote.subtasks (lit "p") st') = 101 /\
  Remote.checked_of (lit "p") st' = Some true /\
  forallb Remote.sb_checked (Remote.subtasks (lit "p") st') = false.
Proof. vm_compute. repeat split. Qed.

(** What the code does do: after [update_subtask_status] with
    [update_parent] on a to_do subtask whose parent is a to_do block
    (and not its own child), the call succeeds and the parent's
    [checked] is the conjunction of [checked] over the subtasks among
    the first 100 children of the parent; when the parent has at most
    100 children that is the conjunction over all its direct subtasks,
    as the claim has it.  For a parent with two unchecked subtasks,
    checking the first leaves the parent unchecked and checking the
    second afterwards checks it. *)
Theorem C7_parent_recomputed :
  (forall (st : Remote.store) (sid pid : str) (c : bool)
          (sb pb : Remote.stored_block),
     free_of "/" sid = true -> free_of "/" pid = true -> pid <> [] ->
     Remote.lookup sid st = Some sb -> Remote.sb_type sb = TO_DO ->
     Remote.sb_parent sb = Some pid ->
     Remote.lookup pid st = Some pb -> Remote.sb_type pb = TO_DO ->
     (forall b, In b st -> Remote.has_id pid b = true ->
                Remote.is_child_of pid b = false) ->
     let st' := after_update sid c st in
     (exists response,
        snd (BlocksAPI.update_subtask_status (srv:=Remote.srv) sid c true
               (start (srv:=Remote.srv) st)) = Ok response) /\
     Remote.checked_of pid st'
     = Some (forallb Remote.sb_checked
               (filter Remote.is_subtask (firstn 100 (Remote.children pid st')))) /\
     (length (Remote.children pid st) <= 100 ->
      Remote.checked_of pid st'
      = Some (forallb Remote.sb_checked (Remote.subtasks pid st')))) /\
  (let st1 := after_update (lit "s1") true family_store in
   let st2 := after_update (lit "s2") true st1 in
   Remote.checked_of (lit "p") family_store = Some false /\
   Remote.checked_of (lit "p") st1 = Some false /\
   Remote.checked_of (lit "p") st2 = Some true).
Proof.
  split; [|vm_compute; repeat split].
  intros st sid pid c sb pb Fs Fp Np Ls Ts Ps Lp Tp Hself st'.
  destruct (@update_subtask_status_remote st sid pid c sb pb Fs Fp Np Ls Ts Ps Lp Tp)
    as [log [response E]].
  unfold st', after_update. rewrite E. cbn [fst snd state].
  set (st1 := Remote.set_checked sid c st) in *.
  set (all := forallb Remote.sb_checked
                (filter Remote.is_subtask (firstn 100 (Remote.children pid st1)))) in *.
  assert (Remote.children pid (Remote.set_checked pid all st1)
          = Remote.children pid st1) as Hc.
  { apply RemoteFacts.children_set_checked_other.
    intros b Hb Hid. unfold st1, Remote.set_checked in Hb.
    apply in_map_iff in Hb as [b0 [<- Hb0]].
    fold (with_checked sid c b0) in *.
    rewrite RemoteFacts.has_id_with_checked in Hid.
    rewrite RemoteFacts.is_child_with_checked. now apply Hself. }
  assert (Remote.checked_of pid (Remote.set_checked pid all st1) = Some all) as Hp.
  { unfold Remote.checked_of. rewrite RemoteFacts.lookup_set_checked.
    unfold st1. rewrite RemoteFacts.lookup_set_checked, Lp. cbn [option_map].
    f_equal. unfold with_checked at 1.
    rewrite RemoteFacts.has_id_with_checked.
    apply find_some in Lp as [_ Lp]. now rewrite Lp. }
  split; [now exists response|]. split.
  - rewrite Hp, Hc. reflexivity.
  - intros Hlen. rewrite Hp. unfold Remote.subtasks. rewrite Hc. unfold all.
    rewrite firstn_all2; [reflexivity|].
    unfold st1. rewrite RemoteFacts.children_set_checked, length_map. exact Hlen.
Qed.

Lemma C7_parent_recomputed_witness :
  let st' := after_update (lit "s1") true family_store in
  Remote.checked_of (lit "p") st'
  = Some (forallb Remote.sb_checked (Remote.subtasks (lit "p") st')).
Proof.
  intros st'.
  refine (proj2 (proj2 (proj1 C7_parent_recomputed family_store (lit "s1") (lit "p") true
            (Remote.mkStored (lit "s1") (Some (lit "p")) TO_DO false true)
            (Remote.mkStored (lit "p") None TO_DO false false)
            eq_refl eq_refl _ eq_refl eq_refl eq_refl eq_refl eq_refl _)) _).
  - discriminate.
  - intros b Hb Hid. simpl in Hb.
    destruct Hb as [<-|[<-|[<-|[]]]]; first [reflexivity | discriminate Hid].
  - simpl. lia.
Defined.

(** ** Normalization *)

Module NormalizeFacts.

Lemma normalized_lines_eq (s : str) :
  normalized_lines s = map strip (filter kept (split newline s)).
Proof. reflexivity. Qed.

Lemma normalized_cons_space (c : ascii) (r : str) :
  isspace c = true -> normalized_lines (c :: r) = normalized_lines r.
Proof.
  intros H. rewrite !normalized_lines_eq. cbn [split].
  destruct (Ascii.eqb c newline).
  - reflexivity.
  - pose proof (split_nonempty newline r) as N.
    destruct (split newline r) as [|h t]; [contradiction|].
    assert (strip (c :: h) = strip h) as S.
    { change (c :: h) with ([c] ++ h). apply strip_blank_app. cbn. now rewrite H. }
    assert (kept (c :: h) = kept h) as K by (unfold kept; now rewrite S).
    cbn [filter]. rewrite K. destruct (kept h); [|reflexivity].
    cbn [map]. now rewrite S.
Qed.

Lemma normalized_lstrip (s : str) : normalized_lines (lstrip s) = normalized_lines s.
Proof.
  induction s as [|c r IH]; [reflexivity|]. cbn [lstrip].
  destruct (isspace c) eqn:E; [|reflexivity].
  now rewrite normalized_cons_space.
Qed.

Lemma normalized_snoc_space (r : str) (c : ascii) :
  isspace c = true -> normalized_lines (r ++ [c]) = normalized_lines r.
Proof.
  intros H. rewrite !normalized_lines_eq, split_snoc.
  pose proof (split_nonempty newline r) as N.
  destruct (Ascii.eqb c newline).
  - rewrite filter_app, map_app. cbn. now rewrite app_nil_r.
  - rewrite (app_removelast_last [] N) at 3.
    assert (forall l, strip (l ++ [c]) = strip l) as S.
    { intros l. apply strip_app_blank. cbn. now rewrite H. }
    assert (forall l, kept (l ++ [c]) = kept l) as K.
    { intros l. unfold kept. now rewrite S. }
    rewrite !filter_app, !map_app. f_equal. cbn [filter]. rewrite K.
    destruct (kept (last (split newline r) [])); [|reflexivity].
    cbn [map]. now rewrite S.
Qed.

Lemma normalized_rstrip (s : str) : normalized_lines (rstrip s) = normalized_lines s.
Proof.
  induction s as [|c r IH] using rev_ind; [reflexivity|].
  destruct (isspace c) eqn:E.
  - rewrite rstrip_app_blank by (cbn; now rewrite E).
    now rewrite normalized_snoc_space.
  - now rewrite rstrip_snoc.
Qed.

Lemma normalized_strip (s : str) : normalized_lines (strip s) = normalized_lines s.
Proof. unfold strip. now rewrite normalized_lstrip, normalized_rstrip. Qed.

Lemma normalized_join (parts : list str) :
  normalized_lines (join [newline] parts) = flat_map normalized_lines parts.
Proof.
  destruct parts as [|x rest]; [reflexivity|].
  rewrite normalized_lines_eq, split_join by discriminate.
  generalize (x :: rest). intros l.
  induction l as [|y l IH]; [reflexivity|].
  cbn [flat_map]. now rewrite filter_app, map_app, IH.
Qed.

Lemma normalized_blank (s : str) : blank s = true -> normalized_lines s = [].
Proof.
  intros H. rewrite <- normalized_strip. now rewrite strip_blank.
Qed.

(** Whitespace around a line does not reach the normalization. *)
Lemma normalized_padded (lead line pad : str) :
  blank lead = true -> blank pad = true ->
  normalized_lines (lead ++ line ++ pad) = normalized_lines line.
Proof.
  intros L P. rewrite <- (normalized_strip (lead ++ line ++ pad)).
  rewrite strip_blank_app by assumption. rewrite strip_app_blank by assumption.
  apply normalized_strip.
Qed.

End NormalizeFacts.

(** ** The parser on one-line constructs and fences *)

Module ParseFacts.

Lemma digits_of_uint_digits (u : Decimal.uint) :
  forallb isdigit (digits_of_uint u) = true.
Proof. induction u; simpl; auto. Qed.

Lemma str_of_nat_digits (n : nat) :
  exists d ds, str_of_nat n = d :: ds /\ isdigit d = true /\ forallb isdigit ds = true.
Proof.
  unfold str_of_nat. pose proof (digits_of_uint_digits (Nat.to_uint n)) as H.
  assert (Nat.to_uint n <> Decimal.Nil) as N.
  { rewrite <- (DecimalNat.Unsigned.of_to n), DecimalNat.Unsigned.to_of.
    apply DecimalFacts.unorm_nonnil. }
  destruct (Nat.to_uint n); try contradiction; simpl in *;
    eexists _, _; (split; [reflexivity|split; [reflexivity|exact H]]).
Qed.

Lemma digit_facts (d : ascii) :
  isdigit d = true ->
  isspace d = false /\ Ascii.eqb d newline = false /\
  Ascii.eqb "`" d = false /\ Ascii.eqb "#" d = false /\ Ascii.eqb "-" d = false /\
  Ascii.eqb "[" d = false /\ Ascii.eqb ">" d = false /\ Ascii.eqb d "." = false.
Proof.
  destruct d as [[] [] [] [] [] [] [] []]; intros H; try discriminate H;
    repeat split.
Qed.

Lemma skip_digits_app (ds rest : str) :
  forallb isdigit ds = true ->
  skip_digits (ds ++ "."%char :: rest) = "."%char :: rest.
Proof.
  induction ds as [|d ds IH]; [reflexivity|]. cbn [forallb app skip_digits].
  intros H. apply andb_true_iff in H as [Hd Hs]. rewrite Hd. auto.
Qed.

Lemma numbered_rest_numeral (n : nat) (t : str) :
  numbered_rest (str_of_nat n ++ lit ". " ++ t) = Some t.
Proof.
  destruct (str_of_nat_digits n) as [d [ds [-> [Hd Hs]]]].
  unfold numbered_rest. cbn [app]. rewrite Hd.
  change (lit ". " ++ t) with ("."%char :: " "%char :: t).
  rewrite skip_digits_app by assumption. reflexivity.
Qed.

Lemma wf_text_facts (t : str) :
  wf_text t = true ->
  tight t = true /\ free_of newline t = true /\ length t <= MAX_TEXT_LENGTH
  /\ blank t = false /\ truthy (JStr t) = true.
Proof.
  unfold wf_text. intros H.
  apply andb_true_iff in H as [H L]. apply andb_true_iff in H as [T F].
  apply Nat.leb_le in L. repeat split; try assumption.
  - destruct (tight_head _ T) as [c [r [-> Hc]]]. cbn. now rewrite Hc.
  - destruct t; [discriminate T|reflexivity].
Qed.

Lemma create_block_text (ty : BlockType) (t : str) (extra : option dict) :
  ty <> CODE -> tight t = true -> length t <= MAX_TEXT_LENGTH ->
  create_block t (BlockTypes.value ty) None extra
  = Ok (JDict (Dict.set (BlockTypes.value ty)
                 (JDict (match extra with
                         | Some ((_ :: _) as e) =>
                             Dict.update [(lit "rich_text", text_run t)] e
                         | _ => [(lit "rich_text", text_run t)]
                         end))
                 [(lit "type", JStr (BlockTypes.value ty))])).
Proof.
  intros N T L. unfold create_block.
  assert (truthy (JStr t) = true) as -> by (destruct t; [discriminate T|reflexivity]).
  cbn [negb andb].
  assert (blank t = false) as B.
  { destruct (tight_head _ T) as [c [r [-> Hc]]]. cbn. now rewrite Hc. }
  rewrite (create_rich_text_plain _ B L), (strip_tight _ T).
  destruct ty; try contradiction; reflexivity.
Qed.

Ltac decide_prefix t :=
  repeat match goal with
  | |- context [startswith ?p (?q ++ t)] =>
      first [ change (startswith p (q ++ t)) with true
            | change (startswith p (q ++ t)) with false ]
  end.

Lemma startswith_digit (p rest : str) (d : ascii) (c : ascii) :
  isdigit d = true ->
  In c ["`"; "#"; "-"; "["; ">"]%char ->
  startswith (c :: p) (d :: rest) = false.
Proof.
  intros Hd Hc. cbn [startswith].
  destruct (digit_facts _ Hd) as [_ [_ [F1 [F2 [F3 [F4 [F5 _]]]]]]].
  cbn in Hc. destruct Hc as [<-|[<-|[<-|[<-|[<-|[]]]]]];
    first [now rewrite F1 | now rewrite F2 | now rewrite F3
          | now rewrite F4 | now rewrite F5].
Qed.

Lemma unmarked_facts (t : str) :
  unmarked t = true ->
  startswith fence t = false /\
  startswith (lit "# ") t = false /\ startswith (lit "## ") t = false /\
  startswith (lit "### ") t = false /\ startswith (lit "- ") t = false /\
  numbered_rest t = None /\
  startswith (lit "[ ] ") t = false /\ startswith (lit "[x] ") t = false /\
  startswith (lit "> ") t = false.
Proof.
  unfold unmarked. intros H.
  repeat (apply andb_true_iff in H as [H ?]).
  repeat match goal with
         | X : negb _ = true |- _ => apply negb_true_iff in X
         end.
  repeat split; try assumption.
  destruct (numbered_rest t); [discriminate|reflexivity].
Qed.

Lemma line_not_fence (m : marker) (t : str) :
  (m = Plain -> unmarked t = true) ->
  startswith fence (marker_text m ++ t) = false.
Proof.
  intros U. destruct m as [| | | |n|[]| |]; try reflexivity.
  - cbn [marker_text]. destruct (str_of_nat_digits n) as [d [ds [-> [Hd _]]]].
    rewrite <- app_assoc. cbn [app]. apply startswith_digit; [assumption|].
    cbn. auto.
  - cbn [marker_text app]. now apply unmarked_facts, U.
Qed.

Lemma line_block_marker (m : marker) (t : str) :
  wf_text t = true -> (m = Plain -> unmarked t = true) ->
  line_block (marker_text m ++ t)
  = Ok (text_block (marker_type m) t (marker_extra m)).
Proof.
  intros W U. destruct (wf_text_facts _ W) as [T [_ [L _]]].
  unfold line_block.
  destruct m as [| | | |n|[]| |]; cbn [marker_text marker_type marker_extra].
  - decide_prefix t. cbv iota. change (skipn 2 (lit "# " ++ t)) with t.
    rewrite (strip_tight _ T), create_block_text by (assumption || discriminate).
    reflexivity.
  - decide_prefix t. cbv iota. change (skipn 3 (lit "## " ++ t)) with t.
    rewrite (strip_tight _ T), create_block_text by (assumption || discriminate).
    reflexivity.
  - decide_prefix t. cbv iota. change (skipn 4 (lit "### " ++ t)) with t.
    rewrite (strip_tight _ T), create_block_text by (assumption || discriminate).
    reflexivity.
  - decide_prefix t. cbv iota. change (skipn 2 (lit "- " ++ t)) with t.
    rewrite (strip_tight _ T), create_block_text by (assumption || discriminate).
    reflexivity.
  - rewrite <- app_assoc. rewrite numbered_rest_numeral.
    destruct (str_of_nat_digits n) as [d [ds [-> [Hd _]]]]. cbn [app].
    unfold lit. cbn [list_ascii_of_string].
    rewrite !startswith_digit by (assumption || (cbn; auto)).
    fold (lit ". ").
    rewrite (strip_tight _ T), create_block_text by (assumption || discriminate).
    reflexivity.
  - decide_prefix t. cbv iota.
    change (numbered_rest (lit "[x] " ++ t)) with (@None str). cbv iota.
    change (skipn 4 (lit "[x] " ++ t)) with t.
    rewrite (strip_tight _ T), create_block_text by (assumption || discriminate).
    reflexivity.
  - decide_prefix t. cbv iota.
    change (numbered_rest (lit "[ ] " ++ t)) with (@None str). cbv iota.
    change (skipn 4 (lit "[ ] " ++ t)) with t.
    rewrite (strip_tight _ T), create_block_text by (assumption || discriminate).
    reflexivity.
  - decide_prefix t. cbv iota.
    change (numbered_rest (lit "> " ++ t)) with (@None str). cbv iota.
    change (skipn 2 (lit "> " ++ t)) with t.
    rewrite (strip_tight _ T), create_block_text by (assumption || discriminate).
    reflexivity.
  - cbn [app].
    destruct (unmarked_facts _ (U eq_refl))
      as [_ [-> [-> [-> [-> [-> [-> [-> ->]]]]]]]].
    rewrite (strip_tight _ T), create_block_text by (assumption || discriminate).
    reflexivity.
Qed.

Lemma space_facts (c : ascii) :
  isspace c = true ->
  isdigit c = false /\
  Ascii.eqb "`" c = false /\ Ascii.eqb "#" c = false /\ Ascii.eqb "-" c = false /\
  Ascii.eqb "[" c = false /\ Ascii.eqb ">" c = false.
Proof.
  destruct c as [[] [] [] [] [] [] [] []]; intros H; try discriminate H;
    repeat split.
Qed.

(** An indented line is a paragraph. *)
Lemma indented_line (c : ascii) (l t : str) :
  isspace c = true -> blank l = true -> wf_text t = true ->
  startswith fence ((c :: l) ++ t) = false /\
  line_block ((c :: l) ++ t) = Ok (text_block PARAGRAPH t []).
Proof.
  intros Hc Hl W. destruct (wf_text_facts _ W) as [T [_ [L _]]].
  destruct (space_facts _ Hc) as [D [F1 [F2 [F3 [F4 F5]]]]].
  split.
  - unfold fence, lit. cbn [list_ascii_of_string app startswith]. now rewrite F1.
  - unfold line_block, numbered_rest, lit.
    cbn [list_ascii_of_string app startswith]. rewrite F2, F3, F4, F5, D.
    cbn [andb]. change (c :: l ++ t) with ((c :: l) ++ t).
    rewrite strip_blank_app by (cbn; now rewrite Hc).
    rewrite (strip_tight _ T), create_block_text by (assumption || discriminate).
    reflexivity.
Qed.

Lemma rstrip_line (lead : str) (m : marker) (t pad : str) :
  tight t = true -> blank pad = true ->
  rstrip (lead ++ marker_text m ++ t ++ pad) = lead ++ marker_text m ++ t.
Proof.
  intros T P. rewrite !app_assoc. rewrite rstrip_app_blank by assumption.
  destruct (tight_snoc _ T) as [t' [c [-> Hc]]].
  rewrite app_assoc. now apply rstrip_snoc.
Qed.

Lemma wf_pad_facts (p : str) :
  wf_pad p = true -> blank p = true /\ free_of newline p = true.
Proof. unfold wf_pad. intros H. now apply andb_true_iff in H. Qed.

Lemma parse_line_marker (i : nat) (lead : str) (m : marker) (t pad : str)
    (st : parser_state) :
  in_code_block st = false ->
  wf_text t = true -> wf_pad lead = true -> wf_pad pad = true ->
  wf_lead lead m t = true ->
  parse_line i (lead ++ marker_text m ++ t ++ pad) st
  = Ok (mkParser (blocks st ++ [text_block (marker_type m) t (marker_extra m)])
          false (code_content st) (code_language st)).
Proof.
  intros C W Wl Wp U. destruct (wf_text_facts _ W) as [T [_ [_ [_ Tr]]]].
  destruct (wf_pad_facts _ Wl) as [Bl _]. destruct (wf_pad_facts _ Wp) as [Bp _].
  unfold parse_line. rewrite (@rstrip_line lead m t pad T Bp), C.
  assert (truthy (JStr (lead ++ marker_text m ++ t)) = true) as ->.
  { destruct t; [discriminate Tr|]. destruct lead; [|reflexivity].
    now destruct (marker_text m). }
  cbn [negb andb].
  destruct lead as [|c l].
  - cbn [app].
    assert (m = Plain -> unmarked t = true) as U'.
    { intros ->. exact U. }
    rewrite (@line_not_fence m t U'). now rewrite (@line_block_marker m t W U').
  - assert (m = Plain) as -> by (destruct m; (reflexivity || discriminate U)).
    cbn [marker_text marker_type marker_extra app].
    cbn [blank forallb] in Bl. apply andb_true_iff in Bl as [Hc Hl].
    destruct (@indented_line c l t Hc Hl W) as [F B].
    cbn [app] in F, B. now rewrite F, B.
Qed.

Lemma parse_line_blank (i : nat) (raw : str) (st : parser_state) :
  in_code_block st = false -> blank raw = true ->
  parse_line i raw st = Ok st.
Proof.
  intros C B. unfold parse_line. now rewrite (@rstrip_blank raw B), C.
Qed.

(** *** Fenced code *)

Lemma lstrip_starts (s : str) :
  lstrip s = [] \/ exists c r, lstrip s = c :: r /\ isspace c = false.
Proof.
  induction s as [|c s IH]; [now left|]. cbn [lstrip].
  destruct (isspace c) eqn:E; [exact IH|]. right. now exists c, s.
Qed.

Lemma rstrip_ends (s : str) :
  rstrip s = [] \/ exists r c, rstrip s = r ++ [c] /\ isspace c = false.
Proof.
  unfold rstrip. destruct (lstrip_starts (rev s)) as [->|[c [r [-> Hc]]]].
  - now left.
  - right. exists (rev r), c. now split.
Qed.

Lemma blank_snoc (r : str) (c : ascii) : isspace c = false -> blank (r ++ [c]) = false.
Proof. intros H. rewrite blank_app. cbn. rewrite H. now rewrite andb_false_r. Qed.

(** The language tag taken from an opening fence is empty or not blank. *)
Lemma language_not_blank (opening : str) :
  skipn 3 (rstrip opening) = [] \/ blank (skipn 3 (rstrip opening)) = false.
Proof.
  destruct (rstrip_ends opening) as [->|[r [c [-> Hc]]]]; [now left|].
  rewrite skipn_app.
  destruct (3 - length r) as [|k] eqn:E.
  - right. cbn [skipn]. now apply blank_snoc.
  - left. rewrite skipn_all2 by lia. cbn [skipn app]. now destruct k.
Qed.

Lemma create_block_code (language content : str) :
  (language = [] \/ blank language = false) ->
  length language <= MAX_TEXT_LENGTH ->
  truthy (JStr content) = true ->
  create_block content (BlockTypes.value CODE) None (Some (language_props language))
  = Ok (code_block language content).
Proof.
  intros B L T. unfold create_block. rewrite T. cbn [negb andb].
  change (BlockTypes.of_value (BlockTypes.value CODE)) with (Some CODE).
  cbv iota beta. cbn [rbind].
  change (BlockTypes.eqb CODE CODE) with true. cbv iota.
  destruct language as [|c l].
  - reflexivity.
  - destruct B as [B|B]; [discriminate B|].
    cbn [language_props].
    change (Dict.get (lit "language") [(lit "language", JStr (c :: l))])
      with (Some (JStr (c :: l))).
    cbv iota. rewrite (create_rich_text_plain _ B L). reflexivity.
Qed.

Lemma parse_opening (i : nat) (opening : str) (st : parser_state) :
  in_code_block st = false ->
  startswith fence (rstrip opening) = true ->
  parse_line i opening st
  = Ok (mkParser (blocks st) true [] (Some (skipn 3 (rstrip opening)))).
Proof.
  intros C F. unfold parse_line. rewrite F, C.
  assert (truthy (JStr (rstrip opening)) = true) as ->.
  { destruct (rstrip opening); [discriminate F|reflexivity]. }
  cbn [negb andb]. do 3 f_equal.
  destruct (3 <? length (rstrip opening)) eqn:E; [reflexivity|].
  apply Nat.ltb_ge in E. symmetry. now apply skipn_all2.
Qed.

Lemma parse_body (body rest : list str) :
  Forall (fun l => startswith fence (rstrip l) = false) body ->
  forall (i : nat) (bs : list json) (acc : list str) (language : option str),
  parse_lines i (body ++ rest) (mkParser bs true acc language)
  = parse_lines (length body + i) rest
      (mkParser bs true (acc ++ map rstrip body) language).
Proof.
  induction 1 as [|l body Hl _ IH]; intros i bs acc language.
  - cbn [app map length]. now rewrite app_nil_r.
  - cbn [app parse_lines]. unfold parse_line at 1.
    cbn [in_code_block blocks code_content code_language].
    rewrite Hl, andb_false_r. cbn [rbind]. rewrite IH.
    cbn [map length]. rewrite <- app_assoc. cbn [app].
    now rewrite Nat.add_succ_r.
Qed.

Lemma parse_closing (i : nat) (closing language : str) (bs : list json)
    (lines : list str) :
  startswith fence (rstrip closing) = true ->
  (language = [] \/ blank language = false) ->
  length language <= MAX_TEXT_LENGTH ->
  truthy (JStr (join [newline] lines)) = true ->
  parse_line i closing (mkParser bs true lines (Some language))
  = Ok (mkParser (bs ++ [code_block language (join [newline] lines)])
          false lines None).
Proof.
  intros F B L T. unfold parse_line. rewrite F.
  cbn [in_code_block blocks code_content code_language].
  rewrite andb_false_r. cbn [negb].
  assert ((match lines with
           | _ :: _ => join [newline] lines
           | [] => []
           end) = join [newline] lines) as -> by now destruct lines.
  fold (language_props language).
  now rewrite (@create_block_code language (join [newline] lines) B L T).
Qed.

(** A fenced block, from the opening to the closing fence. *)
Lemma parse_code_block (i : nat) (st : parser_state) (opening closing : str)
    (body rest : list str) :
  in_code_block st = false ->
  startswith fence (rstrip opening) = true ->
  Forall (fun l => startswith fence (rstrip l) = false) body ->
  startswith fence (rstrip closing) = true ->
  length (skipn 3 (rstrip opening)) <= MAX_TEXT_LENGTH ->
  truthy (JStr (code_text body)) = true ->
  parse_lines i (opening :: body ++ closing :: rest) st
  = parse_lines (S (length body + S i)) rest
      (mkParser (blocks st ++ [code_block (skipn 3 (rstrip opening)) (code_text body)])
         false (map rstrip body) None).
Proof.
  intros C Fo Fb Fc L T. cbn [parse_lines].
  rewrite (@parse_opening i opening st C Fo). cbn [rbind].
  rewrite (@parse_body body (closing :: rest) Fb). cbn [app parse_lines].
  rewrite (@parse_closing _ closing _ (blocks st) (map rstrip body)
             Fc (language_not_blank opening) L T).
  reflexivity.
Qed.

End ParseFacts.

(** C4, as the claim has it, fails: the trailing whitespace of a line
    between the fences does not reach the content. *)
Lemma C4_trailing_whitespace_dropped :
  parse_markdown_to_blocks (nl "```|x  |```") = Ok [code_block [] (lit "x")] /\
  (inner <- getitem (code_block [] (lit "x")) (S_ "code") ;;
   getitem inner (S_ "content")) = Ok (S_ "x") /\
  lit "x" <> lit "x  ".
Proof. repeat split; try reflexivity. discriminate. Qed.

(** C4 (amended): from an opening fence on, every line up to the closing
    fence is accumulated, blank lines included and no other rule
    applied, with its trailing whitespace removed; when the accumulated
    text is not empty, the one code block that the closing fence emits
    has these lines, joined by newlines, as its content. *)
Theorem C4_code_lines_accumulated (i : nat) (st : parser_state)
    (opening closing : str) (body rest : list str) :
  in_code_block st = false ->
  startswith fence (rstrip opening) = true ->
  Forall (fun l => startswith fence (rstrip l) = false) body ->
  startswith fence (rstrip closing) = true ->
  length (skipn 3 (rstrip opening)) <= MAX_TEXT_LENGTH ->
  join [newline] (map rstrip body) <> [] ->
  exists block,
    parse_lines i (opening :: body ++ closing :: rest) st
    = parse_lines (S (length body + S i)) rest
        (mkParser (blocks st ++ [block]) false (map rstrip body) None) /\
    getitem block (S_ "type") = Ok (S_ "code") /\
    (inner <- getitem block (S_ "code") ;; getitem inner (S_ "content"))
    = Ok (JStr (join [newline] (map rstrip body))).
Proof.
  intros C Fo Fb Fc L T.
  exists (code_block (skipn 3 (rstrip opening)) (code_text body)). split.
  - apply ParseFacts.parse_code_block; try assumption.
    unfold code_text. now destruct (join [newline] (map rstrip body)).
  - split; [reflexivity|]. unfold code_block, code_text.
    now destruct (skipn 3 (rstrip opening)).
Qed.

Lemma C4_code_lines_accumulated_witness :
  exists block,
    parse_lines 0 [nl "```python"; nl "def f():  "; nl ""; nl "    return 1 "; nl "```"]
                parser_init
    = Ok (mkParser [block] false [nl "def f():"; nl ""; nl "    return 1"] None) /\
    (inner <- getitem block (S_ "code") ;; getitem inner (S_ "content"))
    = Ok (JStr (nl "def f():||    return 1")).
Proof.
  destruct (@C4_code_lines_accumulated 0 parser_init (nl "```python") (nl "```")
              [nl "def f():  "; nl ""; nl "    return 1 "] [])
    as [block [P [_ Cn]]].
  - reflexivity.
  - reflexivity.
  - repeat constructor.
  - reflexivity.
  - vm_compute. lia.
  - discriminate.
  - exists block. split; [exact P|exact Cn].
Defined.

(** ** Round trip *)

Module RoundTripFacts.
Import ParseFacts NormalizeFacts.

Lemma free_of_app (c : ascii) (a b : str) :
  free_of c (a ++ b) = free_of c a && free_of c b.
Proof. apply forallb_app. Qed.

Lemma digits_free_of_newline (ds : str) :
  forallb isdigit ds = true -> free_of newline ds = true.
Proof.
  induction ds as [|d ds IH]; [reflexivity|]. cbn [forallb free_of].
  intros H. apply andb_true_iff in H as [Hd Hs].
  destruct (digit_facts _ Hd) as [_ [-> _]]. cbn [negb andb]. now apply IH.
Qed.

Lemma marker_free_of_newline (m : marker) : free_of newline (marker_text m) = true.
Proof.
  destruct m as [| | | |n|[]| |]; try reflexivity.
  cbn [marker_text]. rewrite free_of_app.
  destruct (str_of_nat_digits n) as [d [ds [-> [Hd Hs]]]].
  rewrite (@digits_free_of_newline (d :: ds)); [reflexivity|].
  cbn [forallb]. now rewrite Hd, Hs.
Qed.

Lemma wf_language_facts (l : str) :
  wf_language l = true ->
  (forall pad, blank pad = true -> rstrip (fence ++ l ++ pad) = fence ++ l)
  /\ free_of newline l = true /\ length l <= MAX_TEXT_LENGTH.
Proof.
  destruct l as [|c l].
  - intros _. repeat split; [|cbn; lia]. intros pad P. cbn [app].
    now rewrite rstrip_app_blank.
  - unfold wf_language. intros H.
    apply andb_true_iff in H as [H L]. apply andb_true_iff in H as [E F].
    apply Nat.leb_le in L. apply negb_true_iff in E.
    repeat split; try assumption. intros pad P.
    rewrite app_assoc, rstrip_app_blank by assumption.
    destruct (exists_last (l:=c :: l)) as [r [x Ex]]; [discriminate|].
    rewrite Ex in E |- *. rewrite last_last in E.
    rewrite app_assoc. now apply rstrip_snoc.
Qed.

Lemma item_lines_free (it : item) :
  wf_item it = true -> Forall (fun l => free_of newline l = true) (item_lines it).
Proof.
  destruct it as [raw|lead m t pad|language pad body cpad];
    cbn [wf_item item_lines]; intros H.
  - destruct (wf_pad_facts _ H) as [_ F]. now constructor.
  - apply andb_true_iff in H as [H _]. apply andb_true_iff in H as [H Wp].
    apply andb_true_iff in H as [W Wl].
    destruct (wf_text_facts _ W) as [_ [F _]].
    destruct (wf_pad_facts _ Wl) as [_ Fl]. destruct (wf_pad_facts _ Wp) as [_ Fp].
    constructor; [|constructor].
    now rewrite !free_of_app, marker_free_of_newline, Fl, F, Fp.
  - apply andb_true_iff in H as [H _]. apply andb_true_iff in H as [H Hb].
    apply andb_true_iff in H as [H Wc]. apply andb_true_iff in H as [Hl Wp].
    destruct (wf_language_facts _ Hl) as [_ [F _]].
    destruct (wf_pad_facts _ Wp) as [_ Fp]. destruct (wf_pad_facts _ Wc) as [_ Fc].
    constructor; [now rewrite !free_of_app, F, Fp|].
    apply Forall_app. split.
    + apply Forall_forall. intros l Hin.
      apply (proj1 (forallb_forall _ _) Hb) in Hin. unfold code_line in Hin.
      now apply andb_true_iff in Hin as [Hin _].
    + constructor; [|constructor]. now rewrite free_of_app, Fc.
Qed.

Lemma doc_lines_free (doc : list item) :
  forallb wf_item doc = true ->
  Forall (fun l => free_of newline l = true) (flat_map item_lines doc).
Proof.
  induction doc as [|it doc IH]; [constructor|]. cbn [forallb flat_map].
  intros H. apply andb_true_iff in H as [Hi Hd].
  apply Forall_app. split; [now apply item_lines_free|now apply IH].
Qed.

Lemma split_lines (lines : list str) :
  lines <> [] -> Forall (fun l => free_of newline l = true) lines ->
  split newline (join [newline] lines) = lines.
Proof.
  intros N F. rewrite split_join by assumption.
  clear N. induction F as [|l lines Hl _ IH]; [reflexivity|].
  cbn [flat_map]. now rewrite (split_free _ _ Hl), IH.
Qed.

(** The parser on the lines of a document. *)
Lemma parse_item (it : item) (rest : list str) (i : nat) (st : parser_state) :
  wf_item it = true -> in_code_block st = false ->
  exists j st',
    parse_lines i (item_lines it ++ rest) st = parse_lines j rest st' /\
    blocks st' = blocks st ++ item_blocks it /\ in_code_block st' = false.
Proof.
  intros W C.
  destruct it as [raw|lead m t pad|language pad body cpad];
    cbn [wf_item item_lines] in *.
  - destruct (wf_pad_facts _ W) as [B _]. exists (S i), st.
    cbn [app parse_lines item_blocks]. rewrite (@parse_line_blank i raw st C B).
    rewrite app_nil_r. now repeat split.
  - apply andb_true_iff in W as [W U]. apply andb_true_iff in W as [W Wp].
    apply andb_true_iff in W as [Wt Wl].
    eexists (S i), _. cbn [app parse_lines item_blocks].
    rewrite (@parse_line_marker i lead m t pad st C Wt Wl Wp U). cbn [rbind].
    split; [reflexivity|]. now split.
  - apply andb_true_iff in W as [W T]. apply andb_true_iff in W as [W Wb].
    apply andb_true_iff in W as [W Wc]. apply andb_true_iff in W as [Wl Wp].
    destruct (wf_language_facts _ Wl) as [R [_ L]].
    destruct (wf_pad_facts _ Wp) as [Bp _]. destruct (wf_pad_facts _ Wc) as [Bc _].
    assert (rstrip (fence ++ cpad) = fence) as Rc.
    { rewrite rstrip_app_blank by assumption. reflexivity. }
    assert (skipn 3 (rstrip (fence ++ language ++ pad)) = language) as K.
    { now rewrite (R pad Bp). }
    eexists _, _. cbn [app]. rewrite <- app_assoc. cbn [app].
    rewrite (@parse_code_block i st (fence ++ language ++ pad) (fence ++ cpad)
               body rest C).
    + rewrite K. split; [reflexivity|]. now split.
    + now rewrite (R pad Bp).
    + apply Forall_forall. intros l Hin.
      apply (proj1 (forallb_forall _ _) Wb) in Hin. unfold code_line in Hin.
      apply andb_true_iff in Hin as [_ Hin]. now apply negb_true_iff in Hin.
    + now rewrite Rc.
    + now rewrite K.
    + exact T.
Qed.

Lemma parse_doc (doc : list item) :
  forallb wf_item doc = true ->
  forall (i : nat) (st : parser_state),
  in_code_block st = false ->
  exists st',
    parse_lines i (flat_map item_lines doc) st = Ok st' /\
    blocks st' = blocks st ++ doc_blocks doc /\ in_code_block st' = false.
Proof.
  induction doc as [|it doc IH]; intros W i st C.
  - exists st. cbn. rewrite app_nil_r. now repeat split.
  - cbn [forallb] in W. apply andb_true_iff in W as [Wi Wd].
    cbn [flat_map].
    destruct (@parse_item it (flat_map item_lines doc) i st Wi C)
      as [j [st1 [E [B1 C1]]]].
    destruct (IH Wd j st1 C1) as [st' [E' [B' C']]].
    exists st'. rewrite E, E'. split; [reflexivity|]. split; [|assumption].
    rewrite B', B1. unfold doc_blocks. cbn [flat_map]. now rewrite app_assoc.
Qed.

Lemma doc_blocks_have_type (doc : list item) : Forall has_type (doc_blocks doc).
Proof.
  induction doc as [|it doc IH]; [constructor|].
  unfold doc_blocks. cbn [flat_map]. apply Forall_app. split; [|exact IH].
  destruct it as [raw|lead m t pad|language pad body cpad]; cbn [item_blocks];
    repeat constructor; eexists; reflexivity.
Qed.

Ltac pick_separator :=
  first [ exists [JStr []]; split; [now right|];
          simpl; rewrite <- ?app_assoc; reflexivity
        | exists []; split; [now left|];
          simpl; rewrite <- ?app_assoc; reflexivity ].

(** One turn of the loop of the serializer on the block of a line. *)
Lemma step_text (m : marker) (t : str) (total : nat) (tl : list json)
    (actual : nat) (md : list json) :
  Forall has_type tl ->
  exists sep,
    (sep = [] \/ sep = [JStr []]) /\
    to_markdown_loop total (text_block (marker_type m) t (marker_extra m) :: tl)
      actual md
    = to_markdown_loop total tl
        (match m with Num _ => actual + 1 | _ => 0 end)
        (md ++ [JStr (match m with
                      | Num _ => str_of_nat (actual + 1) ++ lit ". " ++ t
                      | _ => marker_text m ++ t
                      end)] ++ sep).
Proof.
  intros F. destruct tl as [|next tl'].
  - destruct m as [| | | |n|[]| |]; simpl; destruct (1 <? total); pick_separator.
  - inversion F as [|? ? [ty Hty] _]; subst.
    destruct next as [| | | | |d]; try discriminate Hty.
    simpl in Hty. destruct (Dict.get _ d) as [v|] eqn:G; [|discriminate Hty].
    injection Hty as ->.
    destruct m as [| | | |n|[]| |]; simpl; rewrite G; simpl;
      try pick_separator;
      match goal with
      | |- context [rbind (if ?c then _ else _) _] => destruct c; pick_separator
      end.
Qed.

(** One turn of the loop on a code block with content. *)
Lemma step_code (language content : str) (total : nat) (tl : list json)
    (actual : nat) (md : list json) :
  truthy (JStr content) = true ->
  exists sep,
    (sep = [] \/ sep = [JStr []]) /\
    to_markdown_loop total (code_block language content :: tl) actual md
    = to_markdown_loop total tl actual
        (md ++ [JStr (fence ++ language); JStr content; JStr fence] ++ sep).
Proof.
  intros T. destruct tl as [|next tl'].
  - destruct language as [|c l]; simpl; simpl in T; rewrite T; pick_separator.
  - destruct language as [|c l]; simpl; simpl in T; rewrite T; pick_separator.
Qed.

Lemma normalized_code_text (body : list str) :
  normalized_lines (code_text body) = flat_map normalized_lines body.
Proof.
  unfold code_text. rewrite normalized_join.
  induction body as [|l body IH]; [reflexivity|].
  cbn [map flat_map]. now rewrite normalized_rstrip, IH.
Qed.

Lemma normalized_separator (sep : list str) :
  sep = [] \/ sep = [[]] -> flat_map normalized_lines sep = [].
Proof. now intros [->| ->]. Qed.

Lemma separator_strings (sep : list json) :
  sep = [] \/ sep = [JStr []] ->
  exists sep', sep = map JStr sep' /\ (sep' = [] \/ sep' = [[]]).
Proof.
  intros [->| ->]; [exists []|exists [[]]]; split; auto.
Qed.

(** The serializer on the blocks of a document: what it appends has
    the normalized lines of the document. *)
Lemma to_markdown_doc (doc : list item) :
  forallb wf_item doc = true ->
  forall (total intended actual : nat) (acc : list str),
  numbering intended actual doc = true ->
  exists parts,
    to_markdown_loop total (doc_blocks doc) actual (map JStr acc)
    = Ok (map JStr (acc ++ parts)) /\
    flat_map normalized_lines parts
    = flat_map normalized_lines (flat_map item_lines doc).
Proof.
  induction doc as [|it doc IH]; intros W total intended actual acc N.
  - exists []. cbn. now rewrite app_nil_r.
  - cbn [forallb] in W. apply andb_true_iff in W as [Wi Wd].
    destruct it as [raw|lead m t pad|language pad body cpad].
    + cbn [wf_item] in Wi. destruct (wf_pad_facts _ Wi) as [B _].
      cbn [numbering] in N.
      destruct (IH Wd total intended actual acc N) as [parts [E P]].
      exists parts. split; [exact E|].
      cbn [flat_map item_lines app]. now rewrite (normalized_blank _ B).
    + cbn [wf_item] in Wi. apply andb_true_iff in Wi as [Wi _].
      apply andb_true_iff in Wi as [Wi Wp]. apply andb_true_iff in Wi as [Wt Wl].
      destruct (wf_text_facts _ Wt) as [T [Fr _]].
      destruct (wf_pad_facts _ Wl) as [Bl _]. destruct (wf_pad_facts _ Wp) as [Bp _].
      destruct (@step_text m t total (doc_blocks doc) actual (map JStr acc)
                  (doc_blocks_have_type doc)) as [sep [Hs E]].
      destruct (separator_strings Hs) as [sep' [-> Hs']].
      set (line := marker_text m ++ t).
      assert (exists intended' actual',
                numbering intended' actual' doc = true /\
                actual' = match m with Num _ => actual + 1 | _ => 0 end /\
                match m with
                | Num _ => str_of_nat (actual + 1) ++ lit ". " ++ t
                | _ => marker_text m ++ t
                end = line) as [intended' [actual' [N' [Ea El]]]].
      { destruct m as [| | | |n|c| |]; cbn [numbering] in N;
          try (exists 0, 0; now repeat split).
        apply andb_true_iff in N as [N N']. apply andb_true_iff in N as [N1 N2].
        apply Nat.eqb_eq in N1, N2. exists (intended + 1), (actual + 1).
        repeat split; [assumption|]. unfold line. cbn [marker_text].
        rewrite <- app_assoc. now rewrite N1, N2. }
      rewrite El, <- Ea in E.
      destruct (IH Wd total intended' actual' (acc ++ [line] ++ sep') N')
        as [parts [E' P]].
      exists ([line] ++ sep' ++ parts). split.
      * unfold doc_blocks. cbn [flat_map item_blocks app]. fold (doc_blocks doc).
        rewrite E. change [JStr line] with (map JStr [line]).
        rewrite <- !map_app. rewrite E'. now rewrite <- !app_assoc.
      * rewrite !flat_map_app, (normalized_separator Hs'), P.
        cbn [flat_map item_lines app]. rewrite app_nil_r. f_equal.
        unfold line. rewrite (app_assoc (marker_text m)). symmetry.
        now apply normalized_padded.
    + cbn [wf_item] in Wi. apply andb_true_iff in Wi as [Wi T].
      apply andb_true_iff in Wi as [Wi _]. apply andb_true_iff in Wi as [Wi Wc].
      apply andb_true_iff in Wi as [_ Wp].
      destruct (wf_pad_facts _ Wp) as [Bp _]. destruct (wf_pad_facts _ Wc) as [Bc _].
      cbn [numbering] in N.
      destruct (@step_code language (code_text body) total (doc_blocks doc) actual
                  (map JStr acc) T) as [sep [Hs E]].
      destruct (separator_strings Hs) as [sep' [-> Hs']].
      destruct (IH Wd total 0 actual
                  (acc ++ [fence ++ language; code_text body; fence] ++ sep') N)
        as [parts [E' P]].
      exists ([fence ++ language; code_text body; fence] ++ sep' ++ parts). split.
      * unfold doc_blocks. cbn [flat_map item_blocks app]. fold (doc_blocks doc).
        rewrite E.
        change [JStr (fence ++ language); JStr (code_text body); JStr fence]
          with (map JStr [fence ++ language; code_text body; fence]).
        rewrite <- !map_app. rewrite E'. now rewrite <- !app_assoc.
      * rewrite !flat_map_app, (normalized_separator Hs'), P.
        cbn [flat_map item_lines app]. rewrite normalized_code_text.
        rewrite !flat_map_app. cbn [flat_map]. rewrite !app_nil_r, <- !app_assoc.
        rewrite <- (normalized_padded [] (fence ++ language) pad eq_refl Bp).
        rewrite <- (normalized_padded [] fence cpad eq_refl Bc).
        cbn [app]. now rewrite <- !app_assoc.
Qed.

Lemma all_str_strings (parts : list str) : all_str (map JStr parts) = Ok parts.
Proof.
  induction parts as [|p parts IH]; [reflexivity|].
  cbn [map all_str]. now rewrite IH.
Qed.

End RoundTripFacts.

(** C1, as the claim has it, fails: a numbered item comes back with the
    numeral of its position in the list, not with the one it had. *)
Lemma C1_numeral_not_preserved :
  (bs <- parse_markdown_to_blocks (lit "2. item") ;; blocks_to_markdown bs)
  = Ok (lit "1. item") /\
  normalize (lit "1. item") = lit "1. item" /\
  normalize (lit "2. item") = lit "2. item" /\
  normalize (lit "1. item") <> normalize (lit "2. item").
Proof. repeat split; try reflexivity. discriminate. Qed.

(** C1 (amended): for a markdown document whose lines are blank lines,
    one-line constructs (a heading, bulleted, numbered, to_do or quote
    marker, one space and the text, or an unmarked or indented line as a
    paragraph; whitespace may follow, the text has something at both
    ends and at most 2000 characters) and fenced code blocks with some
    content (a language tag of at most 2000 characters and whitespace
    after the fences allowed), in which every numbered item carries its
    position in its run of numbered items and none follows a code block
    that follows a numbered item: parsing succeeds, serializing the
    blocks succeeds, and the two sides have the same normalization. *)
Theorem C1_round_trip (doc : list item) :
  well_formed doc = true ->
  exists blocks out,
    parse_markdown_to_blocks (render doc) = Ok blocks /\
    blocks_to_markdown blocks = Ok out /\
    normalize out = normalize (render doc).
Proof.
  intros W. unfold well_formed in W. apply andb_true_iff in W as [W N].
  unfold parse_markdown_to_blocks.
  destruct (truthy (JStr (render doc))) eqn:T; cbn [negb].
  - assert (flat_map item_lines doc <> []) as NE.
    { intros E. unfold render in T. now rewrite E in T. }
    unfold render at 1.
    rewrite (RoundTripFacts.split_lines NE (RoundTripFacts.doc_lines_free doc W)).
    destruct (RoundTripFacts.parse_doc doc W 0 parser_init eq_refl)
      as [st [E [B C]]].
    rewrite E. cbn [rbind]. rewrite C, B. cbn [parser_init blocks app].
    destruct (RoundTripFacts.to_markdown_doc doc W
                (length (doc_blocks doc)) 0 0 [] N) as [parts [E' P]].
    exists (doc_blocks doc), (strip (join [newline] parts)).
    split; [reflexivity|]. split.
    + unfold blocks_to_markdown. cbn [map] in E'. rewrite E'. cbn [rbind app].
      now rewrite RoundTripFacts.all_str_strings.
    + unfold normalize. f_equal.
      rewrite NormalizeFacts.normalized_strip, NormalizeFacts.normalized_join, P.
      unfold render. now rewrite NormalizeFacts.normalized_join.
  - exists [], []. split; [reflexivity|]. split; [reflexivity|].
    destruct (render doc); [reflexivity|discriminate T].
Qed.

Lemma C1_round_trip_witness :
  exists blocks out,
    parse_markdown_to_blocks (render sample_document) = Ok blocks /\
    blocks_to_markdown blocks = Ok out /\
    normalize out = normalize (render sample_document).
Proof. apply (C1_round_trip sample_document). vm_compute. reflexivity. Defined.

(** * Further properties

    Behaviour of the code beyond the statements of the specification. *)

(** ** More on strings *)

Module StripFacts.
Import PyFacts ParseFacts.

Lemma lstrip_suffix (s : str) : exists w, s = w ++ lstrip s /\ blank w = true.
Proof.
  induction s as [|c r IH].
  - now exists [].
  - cbn [lstrip]. destruct (isspace c) eqn:E.
    + destruct IH as [w [H B]]. exists (c :: w). split.
      * cbn. now rewrite <- H.
      * cbn. now rewrite E.
    + now exists [].
Qed.

Lemma rstrip_prefix (s : str) : exists w, s = rstrip s ++ w /\ blank w = true.
Proof.
  destruct (lstrip_suffix (rev s)) as [w [H B]].
  exists (rev w). split.
  - unfold rstrip. rewrite <- rev_app_distr, <- H. now rewrite rev_involutive.
  - now rewrite blank_rev.
Qed.

Lemma length_lstrip (s : str) : length (lstrip s) <= length s.
Proof.
  destruct (lstrip_suffix s) as [w [H _]].
  rewrite H at 2. rewrite length_app. lia.
Qed.

Lemma length_rstrip (s : str) : length (rstrip s) <= length s.
Proof.
  destruct (rstrip_prefix s) as [w [H _]].
  rewrite H at 2. rewrite length_app. lia.
Qed.

Lemma length_strip (s : str) : length (strip s) <= length s.
Proof.
  unfold strip. pose proof (length_lstrip (rstrip s)).
  pose proof (length_rstrip s). lia.
Qed.

Lemma last_default (l : str) (d d' : ascii) : l <> [] -> last l d = last l d'.
Proof.
  induction l as [|x l IH]; [congruence|]. intros _.
  destruct l as [|y l]; [reflexivity|].
  change (last (y :: l) d = last (y :: l) d'). apply IH. discriminate.
Qed.

Lemma last_app_cons (w : str) (c d : ascii) (r : str) :
  last (w ++ c :: r) d = last (c :: r) c.
Proof.
  induction w as [|x w IH].
  - apply last_default. discriminate.
  - cbn [app]. rewrite <- IH.
    assert (w ++ c :: r <> []) as N by (destruct w; discriminate).
    destruct (w ++ c :: r); [congruence|reflexivity].
Qed.

Lemma tight_ends (c : ascii) (r s' : str) (c' : ascii) :
  c :: r = s' ++ [c'] -> isspace c = false -> isspace c' = false ->
  tight (c :: r) = true.
Proof.
  intros E Hc Hc'. unfold tight. rewrite Hc. cbn [negb andb].
  rewrite E, last_last. now rewrite Hc'.
Qed.

(** What [strip] returns is empty or has text at both ends. *)
Lemma strip_shape (s : str) : strip s = [] \/ tight (strip s) = true.
Proof.
  unfold strip.
  destruct (lstrip_starts (rstrip s)) as [E|[c [r [E Hc]]]]; [now left|right].
  rewrite E.
  destruct (rstrip_ends s) as [N|[r' [c' [R Hc']]]].
  - rewrite N in E. discriminate E.
  - destruct (lstrip_suffix (rstrip s)) as [w [H _]].
    rewrite E in H. unfold tight. rewrite Hc. cbn [negb andb].
    rewrite <- (last_app_cons w c c r), <- H, R, last_last. now rewrite Hc'.
Qed.

Lemma strip_nonblank_tight (s : str) : blank s = false -> tight (strip s) = true.
Proof.
  intros B. destruct (strip_shape s) as [E|T]; [|exact T].
  now destruct (strip_nonblank _ B).
Qed.

Lemma strip_idempotent (s : str) : strip (strip s) = strip s.
Proof.
  destruct (strip_shape s) as [E|T].
  - rewrite E. reflexivity.
  - now apply strip_tight.
Qed.

Lemma blank_split (c : ascii) (s : str) :
  blank s = true -> Forall (fun l => blank l = true) (split c s).
Proof.
  induction s as [|x r IH]; intros B.
  - repeat constructor.
  - cbn in B. apply andb_true_iff in B. destruct B as [Bx Br].
    specialize (IH Br). cbn [split].
    destruct (Ascii.eqb x c).
    + constructor; [reflexivity|exact IH].
    + destruct (split c r) as [|h t].
      * repeat constructor. cbn. now rewrite Bx.
      * inversion IH; subst. constructor; [|assumption].
        cbn. now rewrite Bx.
Qed.

Lemma startswith_app (p s : str) :
  startswith p s = true -> s = p ++ skipn (length p) s.
Proof.
  revert s. induction p as [|x p IH]; intros s H; [reflexivity|].
  destruct s as [|y s]; [discriminate H|].
  cbn in H. apply andb_true_iff in H. destruct H as [E H].
  apply Ascii.eqb_eq in E. subst y. cbn. f_equal. now apply IH.
Qed.

Lemma skip_digits_suffix (s : str) : exists ds, s = ds ++ skip_digits s.
Proof.
  induction s as [|c r IH]; [now exists []|].
  cbn [skip_digits]. destruct (isdigit c).
  - destruct IH as [ds H]. exists (c :: ds). cbn. now rewrite <- H.
  - now exists [].
Qed.

Lemma numbered_rest_suffix (line rest : str) :
  numbered_rest line = Some rest -> exists p, line = (p ++ [" "%char]) ++ rest.
Proof.
  unfold numbered_rest. destruct line as [|c r]; [discriminate|].
  destruct (isdigit c); [|discriminate].
  destruct (skip_digits_suffix r) as [ds H].
  destruct (skip_digits r) as [|d [|sp rest']]; try discriminate.
  destruct (Ascii.eqb d ".") eqn:Ed; [|discriminate].
  destruct (Ascii.eqb sp " ") eqn:Es; [|discriminate].
  cbn [andb]. intros [= <-].
  apply Ascii.eqb_eq in Es. subst sp.
  exists (c :: ds ++ [d]). rewrite H at 1. cbn. f_equal.
  now rewrite <- !app_assoc.
Qed.

(** What follows a marker that ends in a space, on a line that ends in
    text, is not blank. *)
Lemma after_marker_nonblank (p rest r : str) (c : ascii) :
  (p ++ [" "%char]) ++ rest = r ++ [c] -> isspace c = false ->
  blank rest = false.
Proof.
  intros E Hc. destruct rest as [|x rest'] using rev_ind.
  - rewrite app_nil_r in E. apply app_inj_tail in E. destruct E as [_ <-].
    discriminate Hc.
  - rewrite app_assoc in E. apply app_inj_tail in E. destruct E as [_ ->].
    now apply blank_snoc.
Qed.

End StripFacts.

(** ** The parser on arbitrary text *)

Module ParserFacts.
Import PyFacts ParseFacts StripFacts.

(** The empty text goes through the loop like any other. *)
Lemma parse_unfold (md : str) :
  parse_markdown_to_blocks md
  = (st <- parse_lines 0 (split newline md) parser_init ;;
     if in_code_block st then Err (ValueError UnclosedCodeBlock)
     else Ok (blocks st)).
Proof. destruct md; reflexivity. Qed.

Lemma parse_lines_app (a b : list str) (i : nat) (st : parser_state) :
  parse_lines i (a ++ b) st
  = (st' <- parse_lines i a st ;; parse_lines (length a + i) b st').
Proof.
  revert i st. induction a as [|x a IH]; intros i st; [reflexivity|].
  cbn [app parse_lines length]. destruct (parse_line i x st) as [e|st']; [reflexivity|].
  cbn [rbind]. rewrite IH. now rewrite Nat.add_succ_r.
Qed.

Lemma parse_lines_blank (lines : list str) (i : nat) (st : parser_state) :
  Forall (fun l => blank l = true) lines -> in_code_block st = false ->
  parse_lines i lines st = Ok st.
Proof.
  intros F C. revert i. induction F as [|x l B F IH]; intros i; [reflexivity|].
  cbn [parse_lines]. rewrite (parse_line_blank i x st C B). apply IH.
Qed.

Lemma create_block_long (ty : BlockType) (t : str) (extra : option dict) :
  ty <> CODE -> tight t = true -> MAX_TEXT_LENGTH < length t ->
  create_block t (BlockTypes.value ty) None extra = Err (ValueError ContentTooLong).
Proof.
  intros N T L. unfold create_block.
  assert (truthy (JStr t) = true) as Tr by (destruct t; [discriminate T|reflexivity]).
  rewrite Tr. cbn [negb andb].
  assert (blank t = false) as B.
  { destruct (tight_head _ T) as [c [r [-> Hc]]]. cbn. now rewrite Hc. }
  assert (create_rich_text (JStr t) None None = Err (ValueError ContentTooLong)) as R.
  { unfold create_rich_text. rewrite Tr. simpl.
    now rewrite validate_content_long. }
  rewrite R. destruct ty; try contradiction; reflexivity.
Qed.

(** A block of text from a line that is not blank: built, or the text
    is too long. *)
Lemma text_outcome (ty : BlockType) (t : str) (extra : option dict) :
  ty <> CODE -> blank t = false ->
  (exists b, create_block (strip t) (BlockTypes.value ty) None extra = Ok b)
  \/ (MAX_TEXT_LENGTH < length t /\
      create_block (strip t) (BlockTypes.value ty) None extra
      = Err (ValueError ContentTooLong)).
Proof.
  intros N B. pose proof (strip_nonblank_tight _ B) as T.
  destruct (le_lt_dec (length (strip t)) MAX_TEXT_LENGTH) as [L|L].
  - left. eexists. now apply create_block_text.
  - right. split.
    + pose proof (length_strip t). lia.
    + now apply create_block_long.
Qed.

Lemma marked_outcome (ty : BlockType) (extra : option dict)
    (line p rest r : str) (c : ascii) :
  ty <> CODE -> line = (p ++ [" "%char]) ++ rest -> line = r ++ [c] ->
  isspace c = false ->
  (exists b, create_block (strip rest) (BlockTypes.value ty) None extra = Ok b)
  \/ (MAX_TEXT_LENGTH < length line /\
      create_block (strip rest) (BlockTypes.value ty) None extra
      = Err (ValueError ContentTooLong)).
Proof.
  intros N E R Hc.
  assert (blank rest = false) as B.
  { apply (@after_marker_nonblank p rest r c); [congruence|assumption]. }
  destruct (@text_outcome ty rest extra N B) as [H|[L H]]; [now left|right].
  split; [|exact H]. rewrite E, length_app. lia.
Qed.

Ltac marked E p :=
  apply startswith_app in E;
  match goal with
  | R : ?line = ?r ++ [?c], Hc : isspace ?c = false |- _ =>
      eapply (@marked_outcome _ _ line p _ r c);
      [discriminate|exact E|exact R|exact Hc]
  end.

(** A line that ends in text: a block, or the line is too long. *)
Lemma line_block_outcome (line r : str) (c : ascii) :
  line = r ++ [c] -> isspace c = false ->
  (exists b, line_block line = Ok b)
  \/ (MAX_TEXT_LENGTH < length line /\
      line_block line = Err (ValueError ContentTooLong)).
Proof.
  intros R Hc. unfold line_block.
  destruct (startswith (lit "# ") line) eqn:E1; [marked E1 (lit "#")|].
  destruct (startswith (lit "## ") line) eqn:E2; [marked E2 (lit "##")|].
  destruct (startswith (lit "### ") line) eqn:E3; [marked E3 (lit "###")|].
  destruct (startswith (lit "- ") line) eqn:E4; [marked E4 (lit "-")|].
  destruct (numbered_rest line) as [rest|] eqn:E5.
  { destruct (numbered_rest_suffix _ E5) as [p E].
    eapply (@marked_outcome _ _ line p _ r c);
      [discriminate|exact E|exact R|exact Hc]. }
  destruct (startswith (lit "[ ] ") line) eqn:E6; [marked E6 (lit "[ ]")|].
  destruct (startswith (lit "[x] ") line) eqn:E7; [marked E7 (lit "[x]")|].
  destruct (startswith (lit "> ") line) eqn:E8; [marked E8 (lit ">")|].
  apply text_outcome; [discriminate|]. rewrite R. now apply blank_snoc.
Qed.

(** A code block: built, or its language tag is too long. *)
Lemma code_outcome (language content : str) :
  language = [] \/ blank language = false ->
  (exists b, create_block content (BlockTypes.value CODE) None
               (Some (language_props language)) = Ok b)
  \/ (MAX_TEXT_LENGTH < length language /\
      create_block content (BlockTypes.value CODE) None
        (Some (language_props language)) = Err (ValueError ContentTooLong)).
Proof.
  intros B. unfold create_block.
  replace (negb (truthy (JStr content))
           && negb (str_eqb (BlockTypes.value CODE) (BlockTypes.value CODE)))
    with false by (now rewrite andb_comm).
  change (BlockTypes.of_value (BlockTypes.value CODE)) with (Some CODE).
  cbv iota beta. cbn [rbind].
  change (BlockTypes.eqb CODE CODE) with true. cbv iota.
  destruct language as [|c l].
  - left. eexists. reflexivity.
  - destruct B as [B|B]; [discriminate B|].
    cbn [language_props].
    change (Dict.get (lit "language") [(lit "language", JStr (c :: l))])
      with (Some (JStr (c :: l))).
    cbv iota.
    destruct (le_lt_dec (length (c :: l)) MAX_TEXT_LENGTH) as [L|L].
    + left. rewrite (create_rich_text_plain _ B L). eexists. reflexivity.
    + right. split; [exact L|].
      assert (create_rich_text (JStr (c :: l)) None None
              = Err (ValueError ContentTooLong)) as R.
      { unfold create_rich_text. simpl truthy. simpl.
        now rewrite validate_content_long. }
      rewrite R. reflexivity.
Qed.

Lemma tag_from_more (seen more : list str) (st st' : parser_state) :
  code_language st' = code_language st ->
  tag_from seen st -> tag_from (seen ++ more) st'.
Proof.
  intros S H l E. rewrite S in E. destruct (H l E) as [B L]. split; [exact B|].
  intros G. destruct (L G) as [line [I P]]. exists line. split; [|exact P].
  apply in_or_app. now left.
Qed.

Lemma parse_line_outcome (i : nat) (raw : str) (st : parser_state)
    (seen : list str) :
  tag_from seen st ->
  (exists st', parse_line i raw st = Ok st' /\ tag_from (seen ++ [raw]) st')
  \/ (MAX_TEXT_LENGTH < length raw /\
      parse_line i raw st
      = Err (ValueError (ErrorParsingLine (i + 1) ContentTooLong)))
  \/ ((exists line, In line seen /\ startswith fence (rstrip line) = true /\
                    MAX_TEXT_LENGTH < length line) /\
      parse_line i raw st = Err (ValueError ContentTooLong)).
Proof.
  intros Tg. unfold parse_line.
  destruct (rstrip_ends raw) as [N|[r [c [R Hc]]]].
  - rewrite N. cbn [truthy negb andb].
    destruct (in_code_block st) eqn:C; cbn [negb].
    + left. change (startswith fence []) with false. cbv iota.
      eexists. split; [reflexivity|].
      now apply (@tag_from_more seen [raw] st).
    + left. exists st. split; [reflexivity|].
      now apply (@tag_from_more seen [raw] st).
  - assert (truthy (JStr (rstrip raw)) = true) as ->
      by (rewrite R; destruct r; reflexivity).
    cbn [negb andb].
    destruct (startswith fence (rstrip raw)) eqn:F.
    + destruct (in_code_block st) eqn:C; cbn [negb].
      * assert (match code_language st with
                | Some ((_ :: _) as l) => [(lit "language", JStr l)]
                | _ => []
                end
                = language_props match code_language st with
                                 | Some l => l
                                 | None => []
                                 end) as ->
          by (destruct (code_language st) as [[|? ?]|]; reflexivity).
        assert (match code_language st with Some l => l | None => [] end = []
                \/ blank match code_language st with Some l => l | None => [] end
                   = false) as B.
        { destruct (code_language st) as [l|] eqn:E; [|now left].
          exact (proj1 (Tg l E)). }
        match goal with
        | |- context [create_block ?content _ _ _] =>
            destruct (code_outcome content B) as [[b ->]|[L ->]]
        end.
        -- left. eexists. split; [reflexivity|]. intros l E. discriminate E.
        -- right. right. split; [|reflexivity].
           destruct (code_language st) as [l|] eqn:E.
           ++ exact (proj2 (Tg l E) L).
           ++ cbn in L. unfold MAX_TEXT_LENGTH in L. lia.
      * left. eexists. split; [reflexivity|].
        intros l E. cbn [code_language] in E.
        pose proof (language_not_blank raw) as B.
        pose proof (length_rstrip raw) as LR.
        destruct (3 <? length (rstrip raw)) eqn:G; injection E as <-.
        -- split; [exact B|]. intros L. exists raw. split.
           ++ apply in_or_app. right. now left.
           ++ split; [exact F|].
              change (MAX_TEXT_LENGTH < length (skipn 3 (rstrip raw))) in L.
              rewrite length_skipn in L. lia.
        -- split; [now left|]. cbn. unfold MAX_TEXT_LENGTH. lia.
    + destruct (in_code_block st) eqn:C.
      * left. eexists. split; [reflexivity|].
        now apply (@tag_from_more seen [raw] st).
      * destruct (@line_block_outcome _ r c R Hc) as [[b ->]|[L ->]].
        -- left. eexists. split; [reflexivity|].
           now apply (@tag_from_more seen [raw] st).
        -- right. left. split; [|reflexivity].
           pose proof (length_rstrip raw). lia.
Qed.

Lemma parse_lines_failure (lines seen : list str) (st : parser_state) (e : exn) :
  tag_from seen st ->
  parse_lines (length seen) lines st = Err e ->
  (exists k line, nth_error (seen ++ lines) k = Some line /\
                  MAX_TEXT_LENGTH < length line /\
                  e = ValueError (ErrorParsingLine (k + 1) ContentTooLong))
  \/ (exists line, In line (seen ++ lines) /\
                   startswith fence (rstrip line) = true /\
                   MAX_TEXT_LENGTH < length line /\
                   e = ValueError ContentTooLong).
Proof.
  revert seen st. induction lines as [|raw rest IH]; intros seen st Tg H.
  - discriminate H.
  - cbn [parse_lines] in H.
    destruct (parse_line_outcome (length seen) raw Tg)
      as [[st' [P Tg']]|[[L P]|[[line [I [F L]]] P]]]; rewrite P in H.
    + cbn [rbind] in H.
      replace (S (length seen)) with (length (seen ++ [raw])) in H
        by (rewrite length_app; cbn; lia).
      specialize (IH _ _ Tg' H). rewrite <- app_assoc in IH. exact IH.
    + left. exists (length seen), raw. injection H as <-.
      rewrite nth_error_app2, Nat.sub_diag by lia. now repeat split.
    + right. exists line. injection H as <-. repeat split; try assumption.
      apply in_or_app. now left.
Qed.

Lemma parse_lines_shifted (lines : list str) (i j : nat) (pre : list json)
    (st st' st2 : parser_state) :
  parse_lines i lines st = Ok st' -> shifted pre st st2 ->
  exists st2', parse_lines j lines st2 = Ok st2' /\ shifted pre st' st2'.
Proof.
  revert i j st st2. induction lines as [|raw rest IH]; intros i j st st2 H Sh.
  - injection H as <-. now exists st2.
  - cbn [parse_lines] in *.
    destruct (parse_line i raw st) as [e|s1] eqn:P; [discriminate H|].
    cbn [rbind] in H.
    assert (exists s2, parse_line j raw st2 = Ok s2 /\ shifted pre s1 s2) as [s2 [P2 S2]].
    { clear H IH. unfold shifted in *. destruct Sh as [C [B K]].
      unfold parse_line in *. rewrite C.
      destruct (negb (truthy (JStr (rstrip raw))) && negb (in_code_block st)).
      { injection P as <-. exists st2. split; [reflexivity|tauto]. }
      destruct (startswith fence (rstrip raw)).
      - destruct (in_code_block st) eqn:Cs; cbn [negb] in *.
        + destruct (K eq_refl) as [K1 K2]. rewrite K1, K2.
          destruct (create_block _ _ _ _) as [e|b]; [discriminate P|].
          cbn [rbind] in *. injection P as <-. eexists. split; [reflexivity|].
          cbn. rewrite B, app_assoc. repeat split; discriminate.
        + injection P as <-. eexists. split; [reflexivity|].
          cbn. rewrite B. now repeat split.
      - destruct (in_code_block st) eqn:Cs.
        + destruct (K eq_refl) as [K1 K2]. rewrite K1, K2.
          injection P as <-. eexists. split; [reflexivity|].
          cbn. rewrite B. now repeat split.
        + destruct (line_block (rstrip raw)) as [[]|b]; try discriminate P.
          injection P as <-. eexists. split; [reflexivity|].
          cbn. rewrite B, app_assoc. repeat split; discriminate. }
    rewrite P2. cbn [rbind]. exact (IH _ _ _ _ H S2).
Qed.

Lemma parse_ok (md : str) (bs : list json) :
  parse_markdown_to_blocks md = Ok bs ->
  exists st, parse_lines 0 (split newline md) parser_init = Ok st /\
             in_code_block st = false /\ blocks st = bs.
Proof.
  rewrite parse_unfold.
  destruct (parse_lines 0 (split newline md) parser_init) as [e|st]; [discriminate|].
  cbn [rbind]. destruct (in_code_block st) eqn:C; [discriminate|].
  intros [= <-]. now exists st.
Qed.

End ParserFacts.

(** X1: text that is only whitespace (spaces, tabs, empty lines)
    parses to no block at all, and is not an error. *)
Theorem blank_markdown_has_no_blocks (markdown : str) :
  blank markdown = true -> parse_markdown_to_blocks markdown = Ok [].
Proof.
  intros B. rewrite ParserFacts.parse_unfold.
  rewrite ParserFacts.parse_lines_blank;
    [reflexivity|now apply StripFacts.blank_split|reflexivity].
Qed.

Lemma blank_markdown_has_no_blocks_witness :
  blank (nl "  ||   |") = true /\ parse_markdown_to_blocks (nl "  ||   |") = Ok [].
Proof.
  split; [reflexivity|]. apply blank_markdown_has_no_blocks. reflexivity.
Defined.

(** X2: the parser fails in three ways only.  An unclosed fence;
    a line of text longer than 2000 characters, reported with its
    1-based number; a fence line longer than 2000 characters whose
    language tag is refused when the block is closed, reported without
    a line number. *)
Theorem parser_failures (markdown : str) (e : exn) :
  parse_markdown_to_blocks markdown = Err e ->
  e = ValueError UnclosedCodeBlock
  \/ (exists k line, nth_error (split newline markdown) k = Some line /\
                     MAX_TEXT_LENGTH < length line /\
                     e = ValueError (ErrorParsingLine (k + 1) ContentTooLong))
  \/ (exists line, In line (split newline markdown) /\
                   startswith fence (rstrip line) = true /\
                   MAX_TEXT_LENGTH < length line /\
                   e = ValueError ContentTooLong).
Proof.
  rewrite ParserFacts.parse_unfold.
  destruct (parse_lines 0 (split newline markdown) parser_init) as [e'|st] eqn:P.
  - cbn [rbind]. intros [= <-]. right.
    apply (@ParserFacts.parse_lines_failure _ [] parser_init e'); [|exact P].
    intros l E. discriminate E.
  - cbn [rbind]. destruct (in_code_block st); [|discriminate].
    intros [= <-]. now left.
Qed.

Lemma parser_failures_witness :
  parse_markdown_to_blocks (nl "# Title|```python|x = 1")
  = Err (ValueError UnclosedCodeBlock)
  /\ (ValueError UnclosedCodeBlock = ValueError UnclosedCodeBlock
      \/ (exists k line,
            nth_error (split newline (nl "# Title|```python|x = 1")) k = Some line /\
            MAX_TEXT_LENGTH < length line /\
            ValueError UnclosedCodeBlock
            = ValueError (ErrorParsingLine (k + 1) ContentTooLong))
      \/ (exists line, In line (split newline (nl "# Title|```python|x = 1")) /\
                       startswith fence (rstrip line) = true /\
                       MAX_TEXT_LENGTH < length line /\
                       ValueError UnclosedCodeBlock = ValueError ContentTooLong)).
Proof.
  split; [reflexivity|]. apply parser_failures. reflexivity.
Defined.

(** X3: a fence that is opened after well-formed constructs and never
    closed makes the whole text fail, whatever the lines after it are. *)
Theorem unclosed_fence_rejected (doc : list item) (opening : str)
    (body : list str) :
  forallb wf_item doc = true ->
  free_of newline opening = true ->
  startswith fence (rstrip opening) = true ->
  forallb code_line body = true ->
  parse_markdown_to_blocks
    (join [newline] (flat_map item_lines doc ++ opening :: body))
  = Err (ValueError UnclosedCodeBlock).
Proof.
  intros W Fo So Cb.
  rewrite ParserFacts.parse_unfold, RoundTripFacts.split_lines.
  - rewrite ParserFacts.parse_lines_app.
    destruct (@RoundTripFacts.parse_doc doc W 0 parser_init eq_refl)
      as [st [-> [_ C]]].
    cbn [rbind parse_lines].
    rewrite (@ParseFacts.parse_opening _ opening st C So). cbn [rbind].
    rewrite <- (app_nil_r body), ParseFacts.parse_body.
    + reflexivity.
    + apply Forall_forall. intros l I.
      rewrite forallb_forall in Cb. specialize (Cb l I).
      unfold code_line in Cb. apply andb_true_iff in Cb.
      now apply negb_true_iff.
  - now destruct (flat_map item_lines doc).
  - apply Forall_app. split; [now apply RoundTripFacts.doc_lines_free|].
    constructor; [exact Fo|].
    apply Forall_forall. intros l I.
    rewrite forallb_forall in Cb. specialize (Cb l I).
    unfold code_line in Cb. now apply andb_true_iff in Cb.
Qed.

Lemma unclosed_fence_rejected_witness :
  parse_markdown_to_blocks
    (join [newline]
       (flat_map item_lines [Line [] H1 (lit "Title") []]
        ++ lit "```python" :: [lit "x = 1"; lit "# not a heading"]))
  = Err (ValueError UnclosedCodeBlock).
Proof.
  apply unclosed_fence_rejected; reflexivity.
Defined.

(** X4: parsing goes line by line and keeps nothing between
    constructs: when two texts parse, the first, a newline and the
    second parse to the blocks of the first followed by the blocks of
    the second. *)
Theorem parse_concatenation (a b : str) (blocks_a blocks_b : list json) :
  parse_markdown_to_blocks a = Ok blocks_a ->
  parse_markdown_to_blocks b = Ok blocks_b ->
  parse_markdown_to_blocks (a ++ newline :: b) = Ok (blocks_a ++ blocks_b).
Proof.
  intros A B.
  destruct (ParserFacts.parse_ok _ A) as [sa [Pa [Ca Ba]]].
  destruct (ParserFacts.parse_ok _ B) as [sb [Pb [Cb Bb]]].
  rewrite ParserFacts.parse_unfold, PyFacts.split_app_sep_any,
    ParserFacts.parse_lines_app, Pa.
  cbn [rbind].
  destruct (@ParserFacts.parse_lines_shifted _ 0
              (length (split newline a) + 0) blocks_a _ _ sa Pb)
    as [st [-> [C [E _]]]].
  - unfold shifted. rewrite Ca, Ba. cbn. rewrite app_nil_r.
    repeat split; discriminate.
  - cbn [rbind]. rewrite C, Cb, E, Bb. reflexivity.
Qed.

Lemma parse_concatenation_witness :
  parse_markdown_to_blocks (nl "# A|1. x" ++ newline :: nl "2. y|```|z|```")
  = Ok ([text_block HEADING_1 (lit "A") []; text_block NUMBERED_LIST (lit "x") []]
        ++ [text_block NUMBERED_LIST (lit "y") []; code_block [] (lit "z")]).
Proof.
  apply parse_concatenation; reflexivity.
Defined.

(** ** The serializer on blocks of text *)

Module SerializerFacts.
Import PyFacts ParseFacts StripFacts RoundTripFacts.

(** One turn of the loop when another block of text follows. *)
Lemma step_between (m m' : marker) (t t' : str) (total : nat)
    (tl : list json) (k : nat) (md : list json) :
  to_markdown_loop total
    (text_item_block (m, t) :: text_item_block (m', t') :: tl) k md
  = to_markdown_loop total (text_item_block (m', t') :: tl)
      (match m with Num _ => k + 1 | _ => 0 end)
      ((md ++ [JStr (match m with
                     | Num _ => str_of_nat (k + 1) ++ lit ". " ++ t
                     | _ => marker_text m ++ t
                     end)])
       ++ (if same_list m m' then [] else [JStr []])).
Proof.
  unfold text_item_block. cbn [fst snd].
  destruct m as [| | | |n|[]| |], m' as [| | | |n'|[]| |];
    simpl; rewrite ?app_nil_r; reflexivity.
Qed.

Lemma step_last (m : marker) (t : str) (total : nat) (k : nat)
    (md : list json) :
  to_markdown_loop total [text_item_block (m, t)] k md
  = Ok ((md ++ [JStr (match m with
                      | Num _ => str_of_nat (k + 1) ++ lit ". " ++ t
                      | _ => marker_text m ++ t
                      end)])
        ++ (if 1 <? total then [JStr []] else [])).
Proof.
  unfold text_item_block. cbn [fst snd].
  destruct m as [| | | |n|[]| |]; simpl; destruct (1 <? total);
    rewrite ?app_nil_r; reflexivity.
Qed.

Lemma loop_text_items (items : list (marker * str)) :
  items <> [] ->
  forall (total k : nat) (acc : list str),
  to_markdown_loop total (map text_item_block items) k (map JStr acc)
  = Ok (map JStr (acc ++ text_lines k items
                  ++ (if 1 <? total then [[]] else []))).
Proof.
  induction items as [|[m t] rest IH]; [congruence|]. intros _ total k acc.
  destruct rest as [|[m' t'] rest'].
  - cbn [map]. rewrite step_last. cbn [text_lines].
    rewrite !map_app. cbn [map app]. rewrite <- app_assoc.
    destruct (1 <? total); reflexivity.
  - cbn [map]. rewrite step_between.
    set (line := match m with
                 | Num _ => str_of_nat (k + 1) ++ lit ". " ++ t
                 | _ => marker_text m ++ t
                 end).
    replace ((map JStr acc ++ [JStr line])
             ++ (if same_list m m' then [] else [JStr []]))
      with (map JStr (acc ++ line :: (if same_list m m' then [] else [[]])))
      by (rewrite map_app; cbn [map]; destruct (same_list m m');
          cbn [map]; rewrite <- ?app_assoc; reflexivity).
    change (text_item_block (m', t') :: map text_item_block rest')
      with (map text_item_block ((m', t') :: rest')).
    rewrite IH by discriminate. do 2 f_equal.
    rewrite <- app_assoc. f_equal.
    change (text_lines k ((m, t) :: (m', t') :: rest'))
      with (line :: (if same_list m m'
                     then text_lines (match m with Num _ => k + 1 | _ => 0 end)
                            ((m', t') :: rest')
                     else [] :: text_lines (match m with Num _ => k + 1 | _ => 0 end)
                                  ((m', t') :: rest'))).
    destruct (same_list m m'); reflexivity.
Qed.

Lemma join_snoc_empty (sep : str) (parts : list str) :
  parts <> [] -> join sep (parts ++ [[]]) = join sep parts ++ sep.
Proof.
  induction parts as [|x r IH]; [congruence|]. intros _.
  destruct r as [|y r'].
  - cbn. now rewrite app_nil_r.
  - change (join sep ((x :: y :: r') ++ [[]]))
      with (x ++ sep ++ join sep ((y :: r') ++ [[]])).
    rewrite IH by discriminate.
    change (join sep (x :: y :: r')) with (x ++ sep ++ join sep (y :: r')).
    now rewrite <- !app_assoc.
Qed.

Lemma marker_line_starts (m : marker) (t : str) (k : nat) :
  tight t = true ->
  exists c r,
    match m with
    | Num _ => str_of_nat (k + 1) ++ lit ". " ++ t
    | _ => marker_text m ++ t
    end = c :: r /\ isspace c = false.
Proof.
  intros T. destruct m as [| | | |n|[]| |];
    try (eexists; eexists; split; [reflexivity|reflexivity]).
  - destruct (str_of_nat_digits (k + 1)) as [d [ds [-> [Hd _]]]].
    exists d. eexists. split; [reflexivity|].
    now destruct (digit_facts _ Hd).
  - exact (tight_head _ T).
Qed.

Lemma marker_line_ends (m : marker) (t : str) (k : nat) :
  tight t = true ->
  exists s c,
    match m with
    | Num _ => str_of_nat (k + 1) ++ lit ". " ++ t
    | _ => marker_text m ++ t
    end = s ++ [c] /\ isspace c = false.
Proof.
  intros T. destruct (tight_snoc _ T) as [s [c [-> Hc]]].
  exists (match m with
          | Num _ => str_of_nat (k + 1) ++ lit ". "
          | _ => marker_text m
          end ++ s), c.
  split; [|exact Hc]. destruct m; now rewrite <- ?app_assoc.
Qed.

Lemma text_lines_end (items : list (marker * str)) :
  items <> [] -> Forall (fun it => tight (snd it) = true) items ->
  forall k, exists s c,
    join [newline] (text_lines k items) = s ++ [c] /\ isspace c = false.
Proof.
  induction items as [|[m t] rest IH]; [congruence|]. intros _ F k.
  inversion F as [|? ? T F']; subst. cbn [snd] in T.
  destruct rest as [|[m' t'] rest'].
  - cbn [text_lines join]. now apply marker_line_ends.
  - destruct (IH ltac:(discriminate) F' (match m with Num _ => k + 1 | _ => 0 end))
      as [s [c [E Hc]]].
    set (line := match m with
                 | Num _ => str_of_nat (k + 1) ++ lit ". " ++ t
                 | _ => marker_text m ++ t
                 end).
    change (text_lines k ((m, t) :: (m', t') :: rest'))
      with (line :: (if same_list m m'
                     then text_lines (match m with Num _ => k + 1 | _ => 0 end)
                            ((m', t') :: rest')
                     else [] :: text_lines (match m with Num _ => k + 1 | _ => 0 end)
                                  ((m', t') :: rest'))).
    assert (text_lines (match m with Num _ => k + 1 | _ => 0 end)
              ((m', t') :: rest') <> []) as N by (destruct m'; discriminate).
    destruct (text_lines (match m with Num _ => k + 1 | _ => 0 end)
                ((m', t') :: rest')) as [|x xs] eqn:L; [congruence|].
    destruct (same_list m m').
    + change (join [newline] (line :: x :: xs))
        with (line ++ [newline] ++ join [newline] (x :: xs)).
      rewrite E. exists (line ++ [newline] ++ s), c.
      split; [now rewrite <- !app_assoc|exact Hc].
    + change (join [newline] (line :: [] :: x :: xs))
        with (line ++ [newline] ++ [newline] ++ join [newline] (x :: xs)).
      rewrite E. exists (line ++ [newline] ++ [newline] ++ s), c.
      split; [now rewrite <- !app_assoc|exact Hc].
Qed.

Lemma text_lines_tight (items : list (marker * str)) :
  items <> [] -> Forall (fun it => tight (snd it) = true) items ->
  tight (join [newline] (text_lines 0 items)) = true.
Proof.
  intros N F. destruct (text_lines_end N F 0) as [s [c [E Hc]]].
  destruct items as [|[m t] rest]; [congruence|].
  inversion F as [|? ? T _]; subst. cbn [snd] in T.
  destruct (@marker_line_starts m t 0 T) as [c0 [r0 [L H0]]].
  assert (exists r, join [newline] (text_lines 0 ((m, t) :: rest)) = c0 :: r)
    as [r R].
  { cbn [text_lines]. rewrite L.
    destruct rest as [|[m' t'] rest']; [now eexists|].
    destruct (same_list m m');
      match goal with
      | |- context [join _ (_ :: ?l)] => destruct l; eexists; reflexivity
      end. }
  rewrite R in *. now apply (@tight_ends c0 r s c).
Qed.

Lemma serialized_text (items : list (marker * str)) :
  Forall (fun it => tight (snd it) = true) items ->
  blocks_to_markdown (map text_item_block items)
  = Ok (join [newline] (text_lines 0 items)).
Proof.
  intros F. destruct items as [|it rest] eqn:E; [reflexivity|].
  rewrite <- E in *. assert (items <> []) as N by (rewrite E; discriminate).
  unfold blocks_to_markdown.
  rewrite (@loop_text_items items N _ 0 []). cbn [rbind app].
  rewrite all_str_strings. cbn [rbind]. f_equal.
  assert (text_lines 0 items <> []) as NL
    by (rewrite E; destruct it as [[] ?]; discriminate).
  pose proof (text_lines_tight N F) as T.
  destruct (1 <? length (map text_item_block items)).
  - rewrite join_snoc_empty by exact NL.
    rewrite strip_app_blank by reflexivity.
    now apply strip_tight.
  - rewrite app_nil_r. now apply strip_tight.
Qed.

End SerializerFacts.

(** X5: blocks of text are serialized one per line, in order, with the
    numerals of a run of numbered items counted 1, 2, 3, ..., an empty
    line between two blocks, and none between two bullets or two
    numbered items. *)
Theorem text_blocks_serialized (items : list (marker * str)) :
  Forall (fun it => tight (snd it) = true) items ->
  blocks_to_markdown (map text_item_block items)
  = Ok (join [newline] (text_lines 0 items)).
Proof. apply SerializerFacts.serialized_text. Qed.

Lemma text_blocks_serialized_witness :
  blocks_to_markdown
    (map text_item_block
       [(H1, lit "Plan"); (Num 7, lit "first"); (Num 7, lit "second");
        (Bullet, lit "a"); (Bullet, lit "b"); (Plain, lit "end")])
  = Ok (nl "# Plan||1. first|2. second||- a|- b||end").
Proof.
  apply (@text_blocks_serialized
           [(H1, lit "Plan"); (Num 7, lit "first"); (Num 7, lit "second");
            (Bullet, lit "a"); (Bullet, lit "b"); (Plain, lit "end")]).
  repeat constructor.
Defined.

(** X6: whatever the blocks, the text that the serializer returns has
    no whitespace at either end: it is empty or starts and ends with a
    character that is not whitespace. *)
Theorem serialized_text_is_trimmed (blocks : list json) (markdown : str) :
  blocks_to_markdown blocks = Ok markdown ->
  markdown = [] \/ tight markdown = true.
Proof.
  unfold blocks_to_markdown.
  destruct (to_markdown_loop _ _ _ _) as [e|parts]; [discriminate|].
  cbn [rbind]. destruct (all_str parts) as [e|lines]; [discriminate|].
  cbn [rbind]. intros [= <-]. apply StripFacts.strip_shape.
Qed.

Lemma serialized_text_is_trimmed_witness :
  blocks_to_markdown [code_block (lit "py") (lit "x  "); text_block QUOTE (lit "q ") []]
  = Ok (nl "```py|x  |```||> q")
  /\ (nl "```py|x  |```||> q" = []
      \/ tight (nl "```py|x  |```||> q") = true).
Proof.
  split; [reflexivity|].
  apply (@serialized_text_is_trimmed
           [code_block (lit "py") (lit "x  "); text_block QUOTE (lit "q ") []]).
  reflexivity.
Defined.

(** ** The builders on every input *)

Module BuilderFacts.
Import PyFacts ParseFacts StripFacts.

Lemma invalid_keys_none (a : dict) :
  invalid_annotation_keys a = []
  <-> forallb (fun k => existsb (str_eqb k) valid_annotations) (Dict.keys a) = true.
Proof.
  unfold invalid_annotation_keys. induction (Dict.keys a) as [|k ks IH].
  - now split.
  - cbn [filter forallb]. destruct (existsb (str_eqb k) valid_annotations).
    + cbn [negb andb]. exact IH.
    + cbn [negb andb]. split; discriminate.
Qed.

Lemma rich_text_iff (content : json) (link : option str)
    (annotations : option dict) (r : json) :
  create_rich_text content link annotations = Ok r
  <-> exists s,
        content = JStr s /\ blank s = false /\ length s <= MAX_TEXT_LENGTH
        /\ annotations_accepted annotations = true
        /\ r = rich_text_run (strip s) link annotations.
Proof.
  unfold create_rich_text, annotations_accepted. split.
  - destruct (truthy content) eqn:T; [|discriminate]. cbn [negb].
    intros H.
    assert (exists s, content = JStr s /\ blank s = false
                      /\ length s <= MAX_TEXT_LENGTH
                      /\ r = rich_text_run (strip s) link annotations) as K.
    { destruct (match annotations with Some (_ :: _ as a) => _ | _ => _ end)
        as [e|[]]; [discriminate H|].
      cbn [rbind] in H. destruct content as [| | |s| |]; try discriminate.
      cbn [new_RichTextContent] in H.
      destruct (blank s) eqn:B.
      { now rewrite validate_content_blank in H. }
      destruct (le_lt_dec (length s) MAX_TEXT_LENGTH) as [L|L].
      - rewrite (validate_content_ok _ B L) in H.
        cbn [rbind rtc_content rtc_link] in H.
        injection H as <-. exists s. repeat split; try assumption.
        unfold rich_text_run.
        destruct link as [[|c l]|], annotations as [[|kv a]|]; reflexivity.
      - now rewrite (validate_content_long _ B L) in H. }
    destruct K as [s [-> [B [L ->]]]]. exists s. repeat split; try assumption.
    destruct annotations as [[|kv a]|]; try reflexivity.
    pose proof (invalid_keys_none (kv :: a)) as K.
    destruct (invalid_annotation_keys (kv :: a)) as [|b bad]; [|discriminate H].
    rewrite (proj1 K eq_refl). cbn [andb].
    destruct (Dict.get (lit "color") (kv :: a)) as [c|]; [|reflexivity].
    destruct (is_str c); [reflexivity|discriminate H].
  - intros [s [-> [B [L [A ->]]]]].
    assert (truthy (JStr s) = true) as -> by (destruct s; [discriminate B|reflexivity]).
    cbn [negb].
    destruct annotations as [[|kv a]|].
    + cbn [rbind new_RichTextContent]. rewrite (validate_content_ok _ B L).
      destruct link as [[|c l]|]; reflexivity.
    + apply andb_true_iff in A. destruct A as [A1 A2].
      apply invalid_keys_none in A1. rewrite A1.
      destruct (Dict.get (lit "color") (kv :: a)) as [c|]; rewrite ?A2;
        cbn [rbind new_RichTextContent]; rewrite (validate_content_ok _ B L);
        destruct link as [[|c' l]|]; reflexivity.
    + cbn [rbind new_RichTextContent]. rewrite (validate_content_ok _ B L).
      destruct link as [[|c l]|]; reflexivity.
Qed.

Lemma of_value_value (s : str) (bt : BlockType) :
  BlockTypes.of_value s = Some bt -> BlockTypes.value bt = s.
Proof.
  unfold BlockTypes.of_value. intros H. apply find_some in H.
  destruct H as [_ H]. apply str_eqb_eq in H. now symmetry.
Qed.

Lemma value_of_value (bt : BlockType) :
  BlockTypes.of_value (BlockTypes.value bt) = Some bt.
Proof. destruct bt; reflexivity. Qed.

(** The block builder on the kinds other than code. *)
Lemma text_block_iff (content block_type : str)
    (annotations extra_props : option dict) (b : json) :
  block_type <> BlockTypes.value CODE ->
  create_block content block_type annotations extra_props = Ok b
  <-> exists bt,
        BlockTypes.of_value block_type = Some bt
        /\ blank content = false /\ length content <= MAX_TEXT_LENGTH
        /\ annotations_accepted annotations = true
        /\ b = JDict
                 [(lit "type", JStr block_type);
                  (block_type,
                   JDict
                     match extra_props with
                     | Some ((_ :: _) as e) =>
                         Dict.update
                           [(lit "rich_text",
                             rich_text_run (strip content) None annotations)] e
                     | _ => [(lit "rich_text",
                              rich_text_run (strip content) None annotations)]
                     end)].
Proof.
  intros N. unfold create_block.
  assert (str_eqb block_type (BlockTypes.value CODE) = false) as ->
    by now apply str_eqb_neq.
  cbn [negb]. rewrite andb_true_r. split.
  - destruct (truthy (JStr content)) eqn:T; [|discriminate]. cbn [negb].
    destruct (BlockTypes.of_value block_type) as [bt|] eqn:V; [|discriminate].
    pose proof (of_value_value _ V) as E.
    assert (BlockTypes.eqb bt CODE = false) as ->.
    { unfold BlockTypes.eqb. rewrite E. now apply str_eqb_neq. }
    intros H.
    destruct (match annotations with Some (_ :: _ as a) => _ | _ => _ end)
      as [e|[]]; [discriminate H|].
    cbn [rbind] in H.
    destruct (create_rich_text (JStr content) None annotations) as [e|rt] eqn:R;
      [discriminate H|].
    cbn [rbind] in H. apply rich_text_iff in R.
    destruct R as [s [Es [B [L [A ->]]]]]. injection Es as <-.
    injection H as <-. exists bt. repeat split; try assumption.
    subst block_type. destruct bt; reflexivity.
  - intros [bt [V [B [L [A ->]]]]].
    assert (truthy (JStr content) = true) as ->
      by (destruct content; [discriminate B|reflexivity]).
    cbn [negb]. rewrite V.
    pose proof (of_value_value _ V) as E.
    assert (BlockTypes.eqb bt CODE = false) as ->.
    { unfold BlockTypes.eqb. rewrite E. now apply str_eqb_neq. }
    assert (create_rich_text (JStr content) None annotations
            = Ok (rich_text_run (strip content) None annotations)) as ->.
    { apply rich_text_iff. exists content. now repeat split. }
    subst block_type. destruct annotations as [[|kv a]|].
    + destruct bt; reflexivity.
    + unfold annotations_accepted in A. apply andb_true_iff in A.
      destruct A as [A _]. apply invalid_keys_none in A. rewrite A.
      destruct bt; reflexivity.
    + destruct bt; reflexivity.
Qed.

End BuilderFacts.

(** X7: the rich text builder succeeds exactly on a string that is not
    blank and has at most 2000 characters, with annotations that it
    lets through; what it returns is one run with the content stripped,
    the link as given and the annotations as given. *)
Theorem create_rich_text_succeeds_iff (content : json) (link : option str)
    (annotations : option dict) (r : json) :
  create_rich_text content link annotations = Ok r
  <-> exists s,
        content = JStr s /\ blank s = false /\ length s <= MAX_TEXT_LENGTH
        /\ annotations_accepted annotations = true
        /\ r = rich_text_run (strip s) link annotations.
Proof. apply BuilderFacts.rich_text_iff. Qed.

(** X8: for every kind other than code the block builder succeeds
    exactly when the kind is one of the enumeration, the content is not
    blank and has at most 2000 characters, and the annotations are let
    through; the block is then the type tag and, under the kind, the
    rich text run of the stripped content, updated with the extra
    properties. *)
Theorem create_block_succeeds_iff (content block_type : str)
    (annotations extra_props : option dict) (b : json) :
  block_type <> BlockTypes.value CODE ->
  create_block content block_type annotations extra_props = Ok b
  <-> exists bt,
        BlockTypes.of_value block_type = Some bt
        /\ blank content = false /\ length content <= MAX_TEXT_LENGTH
        /\ annotations_accepted annotations = true
        /\ b = JDict
                 [(lit "type", JStr block_type);
                  (block_type,
                   JDict
                     match extra_props with
                     | Some ((_ :: _) as e) =>
                         Dict.update
                           [(lit "rich_text",
                             rich_text_run (strip content) None annotations)] e
                     | _ => [(lit "rich_text",
                              rich_text_run (strip content) None annotations)]
                     end)].
Proof. apply BuilderFacts.text_block_iff. Qed.

Lemma create_block_succeeds_iff_witness :
  create_block (lit " Buy milk ") (lit "to_do")
    (Some [(lit "bold", JBool true)]) (Some [(lit "checked", JBool false)])
  = Ok (JDict
          [(lit "type", S_ "to_do");
           (lit "to_do",
            JDict [(lit "rich_text",
                    rich_text_run (lit "Buy milk") None
                      (Some [(lit "bold", JBool true)]));
                   (lit "checked", JBool false)])]).
Proof.
  apply (proj2 (@create_block_succeeds_iff (lit " Buy milk ") (lit "to_do")
                  (Some [(lit "bold", JBool true)])
                  (Some [(lit "checked", JBool false)]) _ ltac:(discriminate))).
  exists TO_DO. repeat split. unfold MAX_TEXT_LENGTH. cbn. lia.
Defined.

(** X9: on text that has no whitespace around it, the builder of the
    block client and the validating builder of the formatting module
    make the same block, for every kind of the enumeration but code and
    divider. *)
Theorem builders_agree (normalize_url : str -> str) (bt : BlockType)
    (content : str) (annotations : option dict) :
  bt <> CODE -> bt <> DIVIDER ->
  tight content = true -> length content <= MAX_TEXT_LENGTH ->
  annotations_accepted annotations = true ->
  create_block content (BlockTypes.value bt) annotations None
  = Ok (BlocksAPI.create_block normalize_url (BlockTypes.value bt)
          (Some content) annotations None []).
Proof.
  intros NC ND T L A. apply BuilderFacts.text_block_iff.
  - destruct bt; try discriminate. contradiction.
  - exists bt. split; [apply BuilderFacts.value_of_value|].
    split.
    { destruct (PyFacts.tight_head _ T) as [c [r [-> Hc]]]. cbn. now rewrite Hc. }
    split; [exact L|]. split; [exact A|].
    rewrite (PyFacts.strip_tight _ T).
    destruct bt; try contradiction;
      destruct annotations as [[|kv a]|]; reflexivity.
Qed.

Lemma builders_agree_witness :
  create_block (lit "Note") (lit "quote") (Some [(lit "italic", JBool true)]) None
  = Ok (BlocksAPI.create_block (fun url => url) (lit "quote") (Some (lit "Note"))
          (Some [(lit "italic", JBool true)]) None []).
Proof.
  apply (@builders_agree (fun url => url) QUOTE (lit "Note")
           (Some [(lit "italic", JBool true)]));
    try discriminate; try reflexivity.
  unfold MAX_TEXT_LENGTH. cbn. lia.
Defined.

(** X10: the filter of [get_subtasks] keeps a block made by
    [create_todo_block] exactly when it was made as a subtask, whatever
    its text, state and annotations; a to_do block that the markdown
    parser makes is never kept. *)
Theorem subtask_flag_selects (normalize_url : str -> str) (content : str)
    (checked : bool) (annotations : option dict) (is_subtask : bool) (text : str) :
  BlocksAPI.is_subtask_block
    (BlocksAPI.create_todo_block normalize_url content checked annotations is_subtask)
  = Ok is_subtask
  /\ BlocksAPI.is_subtask_block
       (text_block TO_DO text [(lit "checked", JBool checked)])
     = Ok false.
Proof.
  split; [|reflexivity].
  destruct annotations as [[|kv a]|]; reflexivity.
Qed.

(** ** Batches of any size *)

Module BatchFacts.

Lemma ceil_index (n b k : nat) :
  0 < b -> k < (n + b - 1) / b -> k * b < n.
Proof.
  intros B K.
  assert (S k * b <= n + b - 1) as H.
  { transitivity (b * ((n + b - 1) / b)).
    - rewrite Nat.mul_comm. apply Nat.mul_le_mono_l. lia.
    - apply Nat.Div0.mul_div_le. }
  cbn in H. lia.
Qed.

Lemma ceil_covers (n b : nat) : 0 < b -> n <= (n + b - 1) / b * b.
Proof.
  intros B. pose proof (Nat.div_mod_eq (n + b - 1) b) as E.
  pose proof (Nat.mod_upper_bound (n + b - 1) b ltac:(lia)) as U.
  nia.
Qed.

Lemma concat_batches (blocks : list json) (b m k0 : nat) :
  length blocks <= (k0 + m) * b ->
  concat (map (batch b blocks) (seq k0 m)) = skipn (k0 * b) blocks.
Proof.
  revert k0. induction m as [|m IH]; intros k0 H.
  - cbn. symmetry. apply skipn_all2. lia.
  - cbn [seq map concat]. rewrite IH by lia. unfold batch.
    replace (skipn (S k0 * b) blocks) with (skipn b (skipn (k0 * b) blocks))
      by (rewrite skipn_skipn; f_equal; lia).
    apply firstn_skipn.
Qed.

Section Batches.
Variable srv : service.
Hypothesis accepting : accepts_appends srv.
Variable block_id : str.
Variable blocks : list json.
Variable size : nat.
Hypothesis dicts : forallb is_dict blocks = true.
Hypothesis positive : 0 < size.

Lemma batch_sent (k : nat) (after0 after : json) (results : list json)
    (w : world srv) :
  k * size < length blocks -> (k = 0 -> after = after0) ->
  exists w' after' result,
    BlocksAPI.append_batch block_id blocks size (k * size) (after, results) w
    = (w', Ok (after', results ++ [result])) /\
    sent w' = sent w ++ [batch_request block_id blocks size after0 k].
Proof.
  intros K A. destruct k as [|k].
  - specialize (A eq_refl). subst after0.
    destruct (@append_batch_sends srv accepting block_id blocks size 0 after after
                results w eq_refl) as [w' [after' [result [E Sd]]]].
    exists w', after', result. split; [exact E|]. rewrite Sd.
    unfold batch_request, batch. cbn [Nat.eqb Nat.mul].
    now destruct (truthy after).
  - assert (S k * size - 1 < length blocks) as I by lia.
    destruct (nth_error blocks (S k * size - 1)) as [b|] eqn:N.
    2:{ apply nth_error_None in N. lia. }
    assert (exists d, b = JDict d) as [d ->].
    { rewrite forallb_forall in dicts. specialize (dicts _ (nth_error_In _ _ N)).
      destruct b; try discriminate dicts. now eexists. }
    assert ((S k * size =? 0) = false) as Hz by (apply Nat.eqb_neq; nia).
    destruct (@append_batch_sends srv accepting block_id blocks size (S k * size)
                after
                (match Dict.get (lit "id") d with Some v => v | None => JNone end)
                results w) as [w' [after' [result [E Sd]]]].
    { destruct (S k * size =? 0) eqn:Q; [apply Nat.eqb_eq in Q; nia|].
      rewrite N. unfold dget. now destruct (Dict.get (lit "id") d). }
    exists w', after', result. split; [exact E|]. rewrite Sd.
    unfold batch_request, batch.
    destruct (S k * size =? 0) eqn:Q; [apply Nat.eqb_eq in Q; nia|].
    rewrite (nth_error_nth _ _ _ N). unfold id_anchor, dget.
    destruct (Dict.get (lit "id") d) as [v|]; [|reflexivity].
    now destruct (truthy v).
Qed.

Lemma batches_sent (m k0 : nat) (after0 after : json) (results : list json)
    (w : world srv) :
  (k0 + m) * size < length blocks + size -> (k0 = 0 -> after = after0) ->
  exists w' after' rs,
    BlocksAPI.for_each (map (fun k => k * size) (seq k0 m))
      (BlocksAPI.append_batch block_id blocks size) (after, results) w
    = (w', Ok (after', results ++ rs)) /\
    length rs = m /\
    sent w' = sent w ++ map (batch_request block_id blocks size after0) (seq k0 m).
Proof.
  revert k0 after results w. induction m as [|m IH]; intros k0 after results w K A.
  - exists w, after, []. cbn. unfold ret. now rewrite !app_nil_r.
  - cbn [seq map BlocksAPI.for_each]. unfold bind at 1.
    destruct (@batch_sent k0 after0 after results w ltac:(nia) A)
      as [w1 [after1 [r1 [E1 S1]]]].
    rewrite E1.
    destruct (IH (S k0) after1 (results ++ [r1]) w1 ltac:(nia) ltac:(discriminate))
      as [w2 [after2 [rs [E2 [L2 S2]]]]].
    rewrite E2. exists w2, after2, (r1 :: rs). split.
    { now rewrite <- app_assoc. }
    split; [cbn; now rewrite L2|].
    rewrite S2, S1, <- app_assoc. reflexivity.
Qed.

Lemma batch_request_facts (after : json) (k : nat) :
  sent_children (batch_request block_id blocks size after k) = Some (JList (batch size blocks k))
  /\ anchor (batch_request block_id blocks size after k)
     = (if k =? 0 then (if truthy after then Some after else None)
        else id_anchor (nth (k * size - 1) blocks JNone))
  /\ req_method (batch_request block_id blocks size after k) = PATCH
  /\ req_url (batch_request block_id blocks size after k) = lit "blocks/" ++ block_id ++ lit "/children".
Proof.
  unfold batch_request, sent_children, anchor. cbn [req_json req_method req_url].
  repeat split.
  destruct (if k =? 0 then _ else _) as [i|]; reflexivity.
Qed.

End Batches.
End BatchFacts.

(** X11: with a batch size between 1 and 100 that is smaller than the
    number of blocks, and a service that accepts appends, the blocks
    are sent in order in ceil(n / batch_size) requests to the children
    of the target: request number k carries the k-th batch, so that
    every block is sent exactly once, the first request carries the
    caller's anchor, and every later one the id of the input block just
    before its batch; one response per request is returned. *)
Theorem batched_append_partitions (srv : service) (w : world srv)
    (block_id : str) (blocks : list json) (after : json) (batch_size : Z) :
  accepts_appends srv ->
  forallb is_dict blocks = true ->
  (0 < batch_size <= 100)%Z ->
  (batch_size < Z.of_nat (length blocks))%Z ->
  let size := Z.to_nat batch_size in
  exists w' results reqs,
    BlocksAPI.append_children block_id blocks after batch_size w
    = (w', Ok (JList results))
    /\ sent w' = sent w ++ reqs
    /\ length reqs = (length blocks + size - 1) / size
    /\ length results = length reqs
    /\ concat (map (batch size blocks) (seq 0 (length reqs))) = blocks
    /\ forall k r, nth_error reqs k = Some r ->
         req_method r = PATCH
         /\ req_url r = lit "blocks/" ++ block_id ++ lit "/children"
         /\ sent_children r = Some (JList (batch size blocks k))
         /\ anchor r
            = if k =? 0 then (if truthy after then Some after else None)
              else id_anchor (nth (k * size - 1) blocks JNone).
Proof.
  intros Acc D B N size.
  assert (0 < size) as P by (unfold size; lia).
  unfold BlocksAPI.append_children.
  replace (100 <? batch_size)%Z with false by (symmetry; apply Z.ltb_ge; lia).
  replace (batch_size <? Z.of_nat (length blocks))%Z with true
    by (symmetry; apply Z.ltb_lt; lia).
  replace (batch_size =? 0)%Z with false by (symmetry; apply Z.eqb_neq; lia).
  replace (batch_size <? 0)%Z with false by (symmetry; apply Z.ltb_ge; lia).
  fold size. unfold py_range.
  set (m := (length blocks + size - 1) / size).
  destruct (@BatchFacts.batches_sent srv Acc block_id blocks size D P m 0
              after after [] w) as [w' [after' [rs [E [L Sd]]]]].
  { pose proof (Nat.Div0.mul_div_le (length blocks + size - 1) size).
    fold m in H. cbn [Nat.add]. nia. }
  { reflexivity. }
  unfold bind. rewrite E. unfold ret. cbn [snd app].
  eexists w', rs, _. split; [reflexivity|]. split; [exact Sd|].
  rewrite length_map, length_seq. split; [reflexivity|]. split; [exact L|].
  split.
  - rewrite BatchFacts.concat_batches; [reflexivity|].
    cbn [Nat.add]. apply BatchFacts.ceil_covers. exact P.
  - intros k r Hk. rewrite nth_error_map in Hk.
    destruct (nth_error (seq 0 m) k) as [k'|] eqn:Ek; [|discriminate Hk].
    injection Hk as <-.
    assert (k' = k) as ->.
    { pose proof (nth_error_Some (seq 0 m) k) as [H _].
      rewrite Ek in H. specialize (H ltac:(discriminate)).
      rewrite length_seq in H.
      rewrite (nth_error_nth' _ 0) in Ek by (now rewrite length_seq).
      rewrite seq_nth in Ek by exact H. now injection Ek. }
    destruct (@BatchFacts.batch_request_facts block_id blocks size after k)
      as [C [A [M U]]].
    now repeat split.
Qed.

Lemma batched_append_partitions_witness :
  exists w' results reqs,
    BlocksAPI.append_children (lit "page") five_blocks (S_ "start") 2
      (start (srv:=mock returned_block) tt)
    = (w', Ok (JList results))
    /\ length reqs = 3 /\ sent w' = reqs
    /\ map anchor reqs = [Some (S_ "start"); Some (S_ "b2"); Some (S_ "b4")].
Proof.
  destruct (@batched_append_partitions (mock returned_block)
              (start (srv:=mock returned_block) tt) (lit "page") five_blocks
              (S_ "start") 2)
    as [w' [results [reqs [E [Sd [L _]]]]]].
  - intros st r. exists tt, 200%Z, returned_block.
    split; [reflexivity|]. split; [reflexivity|].
    eexists. split; [reflexivity|]. intros _. eexists. reflexivity.
  - reflexivity.
  - lia.
  - cbn. lia.
  - exists w', results, reqs. split; [exact E|]. split; [exact L|].
    split; [exact Sd|].
    vm_compute in E. injection E as <- _. vm_compute in Sd. subst reqs.
    reflexivity.
Defined.

(** X12: a batch size that is not positive.  Below zero nothing is
    sent and an empty list comes back, so the blocks are dropped
    without a word; at zero with blocks to send the call fails on the
    step of the range, and nothing is sent either. *)
Theorem append_with_no_batch (srv : service) (w : world srv) (block_id : str)
    (blocks : list json) (after : json) (batch_size : Z) :
  ((batch_size < 0)%Z ->
   BlocksAPI.append_children block_id blocks after batch_size w
   = (w, Ok (JList [])))
  /\ (batch_size = 0%Z -> blocks <> [] ->
      BlocksAPI.append_children block_id blocks after batch_size w
      = (w, Err (ValueError RangeStepZero))).
Proof.
  unfold BlocksAPI.append_children. split.
  - intros N.
    replace (100 <? batch_size)%Z with false by (symmetry; apply Z.ltb_ge; lia).
    replace (batch_size <? Z.of_nat (length blocks))%Z with true
      by (symmetry; apply Z.ltb_lt; lia).
    replace (batch_size =? 0)%Z with false by (symmetry; apply Z.eqb_neq; lia).
    replace (batch_size <? 0)%Z with true by (symmetry; apply Z.ltb_lt; lia).
    reflexivity.
  - intros -> N. destruct blocks as [|b bs]; [congruence|].
    replace (0 <? Z.of_nat (length (b :: bs)))%Z with true
      by (symmetry; apply Z.ltb_lt; cbn [length]; lia).
    reflexivity.
Qed.

Lemma append_with_no_batch_witness :
  BlocksAPI.append_children (lit "page") five_blocks JNone (-1)
    (start (srv:=mock returned_block) tt)
  = (start (srv:=mock returned_block) tt, Ok (JList []))
  /\ BlocksAPI.append_children (lit "page") five_blocks JNone 0
       (start (srv:=mock returned_block) tt)
     = (start (srv:=mock returned_block) tt, Err (ValueError RangeStepZero)).
Proof.
  split.
  - apply (proj1 (@append_with_no_batch (mock returned_block)
                    (start (srv:=mock returned_block) tt) (lit "page")
                    five_blocks JNone (-1))). lia.
  - apply (proj2 (@append_with_no_batch (mock returned_block)
                    (start (srv:=mock returned_block) tt) (lit "page")
                    five_blocks JNone 0)); [reflexivity|discriminate].
Defined.

(** ** Subtasks on any service *)

Module SubtaskFacts.

Lemma filter_result_kept {A} (f : A -> result bool) (l r : list A) :
  BlocksAPI.filter_result f l = Ok r ->
  Forall (fun a => f a = Ok true) r /\ (forall a, In a r -> In a l).
Proof.
  revert r. induction l as [|a l IH]; intros r H.
  - injection H as <-. split; [constructor|now intros].
  - cbn [BlocksAPI.filter_result] in H.
    destruct (f a) as [e|keep] eqn:F; [discriminate H|]. cbn [rbind] in H.
    destruct (BlocksAPI.filter_result f l) as [e|rest]; [discriminate H|].
    cbn [rbind] in H. injection H as <-.
    destruct (IH rest eq_refl) as [K I].
    destruct keep.
    + split; [now constructor|]. intros x [<-|Hx]; [now left|right; now apply I].
    + split; [exact K|]. intros x Hx. right. now apply I.
Qed.

End SubtaskFacts.

(** X13: when [get_subtasks] returns, it has sent one request, for one
    page of the children of the parent, which the service answered with
    a success; every block that it returns comes from the results of
    that page and is a to_do block flagged as a subtask. *)
Theorem get_subtasks_only_flagged (srv : service) (w w' : world srv)
    (parent_id : str) (page_size : Z) (subtasks : list json) :
  BlocksAPI.get_subtasks parent_id page_size w = (w', Ok subtasks) ->
  let r := mkRequest GET (lit "blocks/" ++ parent_id ++ lit "/children")
             [(lit "page_size", JInt page_size)] None in
  sent w' = sent w ++ [r]
  /\ Forall (fun b => BlocksAPI.is_subtask_block b = Ok true) subtasks
  /\ exists code body items,
       serve srv (state w) r = (state w', Response code body)
       /\ is_success code = true
       /\ (results <- getitem body (S_ "results") ;; iterate results) = Ok items
       /\ forall b, In b subtasks -> In b items.
Proof.
  unfold BlocksAPI.get_subtasks, BlocksAPI.get_block_children, bind, call.
  cbv zeta.
  destruct (serve srv (state w) _) as [st [code body|]] eqn:E; [|discriminate].
  destruct (is_success code) eqn:C; [|discriminate].
  unfold lift.
  destruct (getitem body (S_ "results")) as [e|results] eqn:G; [discriminate|].
  cbn [rbind].
  destruct (iterate results) as [e|items] eqn:I; [discriminate|].
  cbn [rbind]. intros H. injection H as <- H.
  destruct (SubtaskFacts.filter_result_kept _ _ H) as [K In'].
  cbn [sent state]. split; [reflexivity|]. split; [exact K|].
  exists code, body, items. split; [reflexivity|]. split; [exact C|].
  split; [|exact In']. rewrite G. exact I.
Qed.

Lemma get_subtasks_only_flagged_witness :
  Forall (fun b => BlocksAPI.is_subtask_block b = Ok true)
    (map Remote.block_json (Remote.subtasks (lit "p") family_store)).
Proof.
  apply (@get_subtasks_only_flagged Remote.srv
           (start (srv:=Remote.srv) family_store)
           (mkWorld Remote.srv family_store
              [mkRequest GET (lit "blocks/p/children")
                 [(lit "page_size", JInt 100)] None])
           (lit "p") 100).
  reflexivity.
Defined.

(** X14: without [update_parent], [update_subtask_status] touches the
    subtask only, on any service: it sends the change of [checked] to
    the subtask and, when that was accepted, reads the subtask back;
    the parent is neither read nor written. *)
Theorem subtask_update_leaves_parent (srv : service) (w : world srv)
    (subtask_id : str) (checked : bool) :
  let patch := mkRequest PATCH (lit "blocks/" ++ subtask_id) []
                 (Some (BlocksAPI.checked_update checked)) in
  let get := mkRequest GET (lit "blocks/" ++ subtask_id) [] None in
  let w' := fst (BlocksAPI.update_subtask_status subtask_id checked false w) in
  sent w' = sent w ++ [patch] \/ sent w' = sent w ++ [patch; get].
Proof.
  unfold BlocksAPI.update_subtask_status, BlocksAPI.update_block,
    BlocksAPI.get_block, bind, call. cbv zeta.
  destruct (serve srv (state w) _) as [st [code body|]].
  - destruct (is_success code).
    + right. cbn [state sent].
      destruct (serve srv st _) as [st' [code' body'|]].
      * destruct (is_success code'); cbn [fst sent]; now rewrite <- app_assoc.
      * cbn [fst sent]. now rewrite <- app_assoc.
    + now left.
  - now left.
Qed.

(** ** Todo records on every input *)

Module TodoFacts.
Import PyFacts StripFacts.

Lemma validate_task_valid (v t : str) :
  validate_task v = Ok t ->
  truthy (JStr t) && str_eqb (strip t) t && (length t <=? MAX_TITLE_LENGTH) = true.
Proof.
  unfold validate_task.
  destruct (negb (truthy (JStr v)) || negb (truthy (JStr (strip v)))) eqn:E;
    [discriminate|].
  destruct (MAX_TITLE_LENGTH <? length v) eqn:L; [discriminate|].
  intros [= <-]. apply orb_false_iff in E. destruct E as [_ E].
  apply negb_false_iff in E. rewrite E, strip_idempotent, str_eqb_refl.
  cbn [andb]. apply Nat.leb_le. apply Nat.ltb_ge in L.
  pose proof (length_strip v). lia.
Qed.

Lemma validate_description_valid (v d : option str) :
  validate_description v = Ok d ->
  match d with
  | Some d => truthy (JStr d) && str_eqb (strip d) d && (length d <=? MAX_TEXT_LENGTH)
  | None => true
  end = true.
Proof.
  unfold validate_description. destruct v as [x|]; [|now intros [= <-]].
  destruct (MAX_TEXT_LENGTH <? length x) eqn:L; [discriminate|].
  destruct (negb (truthy (JStr (strip x)))) eqn:E; [now intros [= <-]|].
  intros [= <-]. apply negb_false_iff in E.
  rewrite E, strip_idempotent, str_eqb_refl. cbn [andb].
  apply Nat.leb_le. apply Nat.ltb_ge in L. pose proof (length_strip x). lia.
Qed.

Lemma validate_pattern_valid (field : string) (allowed : list string)
    (v p : option str) :
  validate_pattern field allowed v = Ok p -> opt_in allowed p = true.
Proof.
  unfold validate_pattern. destruct v as [x|]; [|now intros [= <-]].
  destruct (existsb _ allowed) eqn:E; [|discriminate].
  intros [= <-]. exact E.
Qed.

End TodoFacts.

(** X15: the constructor of the todo record returns valid records
    only, and every valid record is one that it returns: the task is
    stripped, not empty and at most 100 characters long, the
    description, if any, stripped, not empty and at most 2000
    characters long, and priority and status are among the allowed
    words. *)
Theorem constructed_iff_valid (datetime : Type) (t : TodoProperties datetime) :
  valid_todo t = true
  <-> exists title text (due : option datetime) level (labels : option (list json))
             state,
        new_TodoProperties title text due level labels state = Ok t.
Proof.
  split.
  - intros V.
    exists (JStr (task t)), (json_of_opt (description t)),
      (due_date t), (json_of_opt (priority t)),
      (option_map (map JStr) (tags t)), (json_of_opt (status t)).
    now apply new_TodoProperties_valid.
  - intros [title [text [due [level [labels [state H]]]]]].
    unfold new_TodoProperties in H.
    destruct title as [| | |v| |]; try discriminate H.
    destruct (validate_task v) as [e|t0] eqn:Vt; [discriminate H|].
    cbn [rbind] in H.
    destruct (as_opt_str text) as [e|d0]; [discriminate H|].
    cbn [rbind] in H.
    destruct (validate_description d0) as [e|d1] eqn:Vd; [discriminate H|].
    cbn [rbind] in H.
    destruct (as_opt_str level) as [e|p0]; [discriminate H|].
    cbn [rbind] in H.
    destruct (validate_pattern "priority" priorities p0) as [e|p1] eqn:Vp;
      [discriminate H|].
    cbn [rbind] in H.
    destruct (match labels with Some l => _ | None => _ end) as [e|g];
      [discriminate H|].
    cbn [rbind] in H.
    destruct (as_opt_str state) as [e|s0]; [discriminate H|].
    cbn [rbind] in H.
    destruct (validate_pattern "status" statuses s0) as [e|s1] eqn:Vs;
      [discriminate H|].
    cbn [rbind] in H. injection H as <-.
    unfold valid_todo.
    cbn [task description priority status].
    rewrite (TodoFacts.validate_task_valid _ Vt).
    rewrite (TodoFacts.validate_description_valid _ Vd).
    rewrite (TodoFacts.validate_pattern_valid _ _ _ Vp).
    rewrite (TodoFacts.validate_pattern_valid _ _ _ Vs).
    reflexivity.
Qed.

(** X16: a property bag without a [Task] entry never gives a record:
    the task falls back to the empty string, which the validator of the
    task refuses, unless reading another field has failed before. *)
Theorem no_task_no_record (datetime : Type)
    (fromisoformat : str -> option datetime) (properties : dict)
    (t : TodoProperties datetime) :
  Dict.get (lit "Task") properties = None ->
  from_notion_properties fromisoformat (JDict properties) <> Ok t.
Proof.
  intros G. unfold from_notion_properties, prop_get.
  cbn [dget]. rewrite G. cbn [rbind dget Dict.get truthy].
  repeat match goal with
         | |- (rbind ?x _) <> _ =>
             destruct x as [?e|?v]; cbn [rbind]; [discriminate|]
         end.
  unfold new_TodoProperties. cbn. discriminate.
Qed.

Lemma no_task_no_record_witness :
  from_notion_properties (fun s : str => Some s)
    (JDict [(lit "Status", JDict [(lit "status", JDict [(lit "name", S_ "completed")])])])
  <> Ok sample_todo.
Proof.
  apply no_task_no_record. reflexivity.
Defined.

(** X17: for the fields of a valid record, [create_todo_properties] of
    the page client and [to_notion_properties] of the record make the
    same property bag. *)
Theorem todo_property_builders_agree (datetime : Type)
    (isoformat : datetime -> str) (t : TodoProperties datetime) :
  valid_todo t = true ->
  Pages.create_todo_properties isoformat (task t) (description t) (due_date t)
    (priority t) (tags t) (status t)
  = to_notion_properties isoformat t.
Proof.
  unfold valid_todo. intros V.
  apply andb_true_iff in V. destruct V as [V _].
  apply andb_true_iff in V. destruct V as [V _].
  apply andb_true_iff in V. destruct V as [V Vd].
  apply andb_true_iff in V. destruct V as [_ Vt]. apply Nat.leb_le in Vt.
  unfold Pages.create_todo_properties, to_notion_properties.
  rewrite firstn_all2 by exact Vt.
  destruct (description t) as [[|c d]|]; try reflexivity.
  apply andb_true_iff in Vd. destruct Vd as [_ Vd]. apply Nat.leb_le in Vd.
  now rewrite firstn_all2 by exact Vd.
Qed.

Lemma todo_property_builders_agree_witness :
  Pages.create_todo_properties (fun d : str => d) (task sample_todo)
    (description sample_todo) (due_date sample_todo) (priority sample_todo)
    (tags sample_todo) (status sample_todo)
  = to_notion_properties (fun d : str => d) sample_todo.
Proof.
  apply todo_property_builders_agree. reflexivity.
Defined.

(** ** The page and database clients *)

(** X18: [get_property_item] refuses a page size that is not positive
    before anything is sent; with a positive one it sends a single
    request for the property of the page, with the page size as its
    only parameter. *)
Theorem property_item_page_size (srv : service) (page_id property_id : str)
    (page_size : Z) :
  match Pages.get_property_item srv page_id property_id page_size with
  | inl e => e = PageSizeNotPositive /\ (page_size <= 0)%Z
  | inr run =>
      (0 < page_size)%Z /\
      forall w, sent (fst (run w)) = sent w ++
        [mkRequest GET
           (lit "pages/" ++ page_id ++ lit "/properties/" ++ property_id)
           [(lit "page_size", JInt page_size)] None]
  end.
Proof.
  unfold Pages.get_property_item.
  destruct (page_size <=? 0)%Z eqn:E.
  - split; [reflexivity|]. now apply Z.leb_le.
  - split; [apply Z.leb_gt in E; lia|].
    intros w. unfold call.
    destruct (serve srv (state w) _) as [st [code body|]];
      [destruct (is_success code)|]; reflexivity.
Qed.

(** X19: [update_database] checks nothing: without a title, properties
    and an archive flag (or with empty ones) it sends a request with an
    empty body, where [update_page] without properties and flag raises
    and sends nothing. *)
Theorem empty_database_update_is_sent (srv : service) (w : world srv)
    (id : str) (title : option str) (properties : option dict) :
  title = None \/ title = Some [] ->
  properties = None \/ properties = Some [] ->
  sent (fst (DatabasesAPI.update_database id title properties None w))
  = sent w ++ [mkRequest PATCH (lit "databases/" ++ id) [] (Some (JDict []))]
  /\ PagesAPI.update_page id None None w = (w, Err (ValueError NothingToUpdate)).
Proof.
  intros [-> | ->] [-> | ->]; (split; [|reflexivity]);
    unfold DatabasesAPI.update_database, call; cbv zeta iota;
    (destruct (serve srv (state w) _) as [st [code body|]];
     [destruct (is_success code)|]; reflexivity).
Qed.

Lemma empty_database_update_is_sent_witness :
  sent (fst (DatabasesAPI.update_database (lit "db") (Some []) None None
               (start (srv:=mock (JDict [])) tt)))
  = [mkRequest PATCH (lit "databases/db") [] (Some (JDict []))].
Proof.
  apply (@empty_database_update_is_sent (mock (JDict []))
           (start (srv:=mock (JDict [])) tt) (lit "db") (Some []) None);
    [now right|now left].
Defined.

(** X20: [search_database] sends one query whose body always has a
    filter: on the title when no property is named (or an empty name is
    given), otherwise on the rich text of the property; the page size
    is always there, sorts and cursor only when they are not empty. *)
Theorem search_always_filters (srv : service) (w : world srv)
    (database_id query : str) (property_name : option str)
    (sorts : option (list json)) (start_cursor : option str) (page_size : Z) :
  exists body,
    sent (fst (DatabasesAPI.search_database database_id query property_name
                 sorts start_cursor page_size w))
    = sent w ++ [mkRequest POST (lit "databases/" ++ database_id ++ lit "/query")
                   [] (Some (JDict body))]
    /\ Dict.get (lit "page_size") body = Some (JInt page_size)
    /\ Dict.get (lit "filter") body
       = Some (JDict
           match property_name with
           | Some ((_ :: _) as p) =>
               [(lit "property", JStr p);
                (lit "rich_text", JDict [(lit "contains", JStr query)])]
           | _ => [(lit "title", JDict [(lit "contains", JStr query)])]
           end)
    /\ Dict.get (lit "sorts") body
       = match sorts with
         | Some ((_ :: _) as s) => Some (JList s)
         | _ => None
         end
    /\ Dict.get (lit "start_cursor") body
       = match start_cursor with
         | Some ((_ :: _) as c) => Some (JStr c)
         | _ => None
         end.
Proof.
  unfold DatabasesAPI.search_database, DatabasesAPI.query_database,
    DatabasesAPI.create_search_filter.
  eexists. split.
  - unfold call.
    destruct (serve srv (state w) _) as [st [code body|]];
      [destruct (is_success code)|]; reflexivity.
  - destruct property_name as [[|c p]|], sorts as [[|s ss]|],
      start_cursor as [[|x xs]|]; repeat split.
Qed.

Module FilterFacts.

Lemma one_of_two (x a b : str) :
  existsb (str_eqb x) [a; b] = true <-> x = a \/ x = b.
Proof.
  cbn [existsb]. rewrite orb_false_r, orb_true_iff, !PyFacts.str_eqb_eq.
  tauto.
Qed.

End FilterFacts.

(** X21: [create_filter] accepts the operators [and] and [or] and no
    other, and the filter is then the conditions under that operator;
    [create_sort] accepts the directions [ascending] and [descending]
    and no other. *)
Theorem filter_and_sort_arguments (conditions : list json)
    (operator property_name direction : str) :
  (forall f, DatabasesAPI.create_filter conditions operator = inr f
             <-> (operator = lit "and" \/ operator = lit "or")
                 /\ f = [(operator, JList conditions)])
  /\ (forall s, DatabasesAPI.create_sort property_name direction = inr s
                <-> (direction = lit "ascending" \/ direction = lit "descending")
                    /\ s = [(lit "property", JStr property_name);
                            (lit "direction", JStr direction)]).
Proof.
  unfold DatabasesAPI.create_filter, DatabasesAPI.create_sort. split.
  - intros f.
    destruct (existsb (str_eqb operator) [lit "and"; lit "or"]) eqn:E;
      cbn [negb].
    + apply FilterFacts.one_of_two in E. split.
      * intros [= <-]. now split.
      * intros [_ ->]. reflexivity.
    + split; [discriminate|]. intros [H _].
      apply FilterFacts.one_of_two in H. congruence.
  - intros s.
    destruct (existsb (str_eqb direction) [lit "ascending"; lit "descending"])
      eqn:E; cbn [negb].
    + apply FilterFacts.one_of_two in E. split.
      * intros [= <-]. now split.
      * intros [_ ->]. reflexivity.
    + split; [discriminate|]. intros [H _].
      apply FilterFacts.one_of_two in H. congruence.
Qed.

(** ** Configuration *)

Module AuthFacts.

Lemma strip_empty_blank (s : str) : str_eqb (strip s) [] = blank s.
Proof.
  destruct (blank s) eqn:B.
  - now rewrite PyFacts.strip_blank.
  - apply PyFacts.str_eqb_neq. now apply PyFacts.strip_nonblank.
Qed.

Lemma unset_is_set (value : option str) : Auth.unset value = negb (is_set value).
Proof.
  destruct value as [[|c v]|]; try reflexivity.
  unfold Auth.unset, is_set. rewrite strip_empty_blank. now rewrite negb_involutive.
Qed.

Lemma headers_iff (getenv : str -> option str) (api_key : option str)
    (headers : dict) :
  Auth.get_auth_headers getenv api_key = inr headers
  <-> exists key,
        effective_key getenv api_key = Some key /\ blank key = false
        /\ headers = [(lit "Authorization", JStr (lit "Bearer " ++ key));
                      (lit "Content-Type", S_ "application/json");
                      (lit "Notion-Version", S_ "2022-06-28")].
Proof.
  unfold Auth.get_auth_headers.
  replace (match api_key with
           | Some _ => api_key
           | None => getenv (lit "NOTION_API_KEY")
           end) with (effective_key getenv api_key)
    by (now destruct api_key).
  destruct (effective_key getenv api_key) as [[|c k]|].
  - split; [discriminate|]. intros [key [[= <-] [B _]]]. discriminate B.
  - rewrite strip_empty_blank. destruct (blank (c :: k)) eqn:B.
    + split; [discriminate|]. intros [key [[= <-] [B' _]]]. congruence.
    + split.
      * intros [= <-]. now exists (c :: k).
      * intros [key [[= <-] [_ ->]]]. reflexivity.
  - split; [discriminate|]. intros [key [E _]]. discriminate E.
Qed.

End AuthFacts.

(** X22: [get_auth_headers] succeeds exactly when the key it uses, the
    argument if there is one and the variable of the environment
    otherwise, is more than whitespace; an argument that is empty or
    blank is not replaced by the environment.  The headers carry the
    key as given, after [Bearer ]. *)
Theorem auth_headers_iff (getenv : str -> option str) (api_key : option str)
    (headers : dict) :
  Auth.get_auth_headers getenv api_key = inr headers
  <-> exists key,
        effective_key getenv api_key = Some key /\ blank key = false
        /\ headers = [(lit "Authorization", JStr (lit "Bearer " ++ key));
                      (lit "Content-Type", S_ "application/json");
                      (lit "Notion-Version", S_ "2022-06-28")].
Proof. apply AuthFacts.headers_iff. Qed.

(** X23: when [validate_config] passes, [get_auth_headers] without an
    argument succeeds with the key of the environment; and
    [validate_config] passes exactly when both the key and the database
    id are set to more than whitespace. *)
Theorem valid_config_has_headers (getenv : str -> option str) :
  (Auth.validate_config getenv = inr tt
   <-> is_set (getenv (lit "NOTION_API_KEY")) = true
       /\ is_set (getenv (lit "NOTION_DATABASE_ID")) = true)
  /\ (Auth.validate_config getenv = inr tt ->
      exists key,
        getenv (lit "NOTION_API_KEY") = Some key
        /\ Auth.get_auth_headers getenv None
           = inr [(lit "Authorization", JStr (lit "Bearer " ++ key));
                  (lit "Content-Type", S_ "application/json");
                  (lit "Notion-Version", S_ "2022-06-28")]).
Proof.
  assert (Auth.validate_config getenv = inr tt
          <-> is_set (getenv (lit "NOTION_API_KEY")) = true
              /\ is_set (getenv (lit "NOTION_DATABASE_ID")) = true) as K.
  { unfold Auth.validate_config. cbn [filter map fst snd].
    rewrite !AuthFacts.unset_is_set.
    destruct (is_set (getenv (lit "NOTION_API_KEY")));
      destruct (is_set (getenv (lit "NOTION_DATABASE_ID")));
      cbn [negb map fst]; split; try discriminate; try tauto;
      intros [? ?]; discriminate. }
  split; [exact K|]. intros V. apply K in V. destruct V as [V _].
  destruct (getenv (lit "NOTION_API_KEY")) as [key|] eqn:E; [|discriminate V].
  exists key. split; [reflexivity|].
  apply AuthFacts.headers_iff. exists key. cbn [effective_key].
  split; [exact E|]. split; [|reflexivity].
  cbn [is_set] in V. now apply negb_true_iff in V.
Qed.

Lemma valid_config_has_headers_witness :
  Auth.get_auth_headers sample_environment None
  = inr [(lit "Authorization", S_ "Bearer secret_abc");
         (lit "Content-Type", S_ "application/json");
         (lit "Notion-Version", S_ "2022-06-28")].
Proof.
  destruct (proj2 (valid_config_has_headers sample_environment) eq_refl)
    as [key [E H]].
  injection E as <-. exact H.
Defined.

(** ** The retry decorator *)

Module RetryFacts.
Import Server.






Section Retry.
Variable W T : Type.
Variable func : W -> W * (raised + T).
Variable ensure_client : option (W -> W * (raised + unit)).
Variable retry_count : Z.

(** The loop from the attempt [k0] on, with [m] attempts left: nothing
    to do; or some failed attempts and the call that ends them; or some
    failed attempts, the last of which ends in a renewal of the client
    that raises. *)
Lemma attempts_shape (m k0 : nat) (last_error : option exn) (w : W)
    (log : list event) (w' : W) (log' : list event) (out : raised + returned T) :
  m = 0 \/ retry_count = Z.of_nat (k0 + m) ->
  attempts func ensure_client retry_count (map Z.of_nat (seq k0 m))
    last_error w log = (w', log', out) ->
  (m = 0 /\ log' = log /\ w' = w /\ out = inr (LastError T last_error))
  \/ (exists n w0 r,
        n < m
        /\ log' = log ++ failed_attempts (is_some ensure_client) k0 n ++ [Called]
        /\ func w0 = (w', r) /\ out = settled r
        /\ (forall e, r = inl (Exception e) -> S n = m))
  \/ (exists n ensure w0 x,
        S n < m /\ ensure_client = Some ensure
        /\ log' = log ++ failed_attempts true k0 (S n)
        /\ ensure w0 = (w', inl x) /\ out = inl x).
Proof.
  revert k0 last_error w log. induction m as [|m IH]; intros k0 last_error w log R H.
  - cbn in H. injection H as <- <- <-. left. now repeat split.
  - destruct R as [R|R]; [discriminate R|]. right.
    cbn [seq map attempts] in H.
    destruct (func w) as [w1 r] eqn:F.
    assert (forall r', r = r' -> (forall e, r' <> inl (Exception e)) ->
              (w1, log ++ [Called], settled r') = (w', log', out) ->
              exists n w0 r0,
                n < S m
                /\ log' = log ++ failed_attempts (is_some ensure_client) k0 n
                                 ++ [Called]
                /\ func w0 = (w', r0) /\ out = settled r0
                /\ (forall e, r0 = inl (Exception e) -> S n = S m)) as Done.
    { intros r' -> N Q. injection Q as <- <- <-. exists 0, w, r'.
      split; [lia|]. split; [reflexivity|]. split; [exact F|].
      split; [reflexivity|]. intros e Q. now destruct (N e). }
    destruct r as [[c|e|b]|v].
    + left. apply (Done _ eq_refl); [discriminate|exact H].
    + destruct (Z.of_nat k0 <? retry_count - 1)%Z eqn:C.
      * apply Z.ltb_lt in C.
        assert (m = 0 \/ retry_count = Z.of_nat (S k0 + m)) as R' by (right; lia).
        destruct ensure_client as [ensure|] eqn:Q.
        -- destruct (ensure w1) as [w2 [x|[]]] eqn:En.
           ++ injection H as <- <- <-. right.
              exists 0, ensure, w1, x. split; [lia|]. split; [reflexivity|].
              split; [now rewrite <- !app_assoc|]. now split.
           ++ destruct (IH _ _ _ _ R' H)
                as [[M _]|[[n [w0 [r0 [L [E [F0 [O Last]]]]]]]
                          |[n [ens [w0 [x [L [Qe [E [F0 O]]]]]]]]]].
              ** lia.
              ** left. exists (S n), w0, r0. split; [lia|]. split.
                 { rewrite E. cbn [failed_attempts is_some app].
                   now rewrite <- !app_assoc. }
                 split; [exact F0|]. split; [exact O|].
                 intros e0 Qr. now rewrite (Last e0 Qr).
              ** right. exists (S n), ens, w0, x. split; [lia|].
                 split; [exact Qe|]. split.
                 { rewrite E.
                   change (failed_attempts true k0 (S (S n)))
                     with ([Called; Slept (2 ^ Z.of_nat k0)] ++ [ClientEnsured]
                           ++ failed_attempts true (S k0) (S n)).
                   now rewrite <- !app_assoc. }
                 now split.
        -- destruct (IH _ _ _ _ R' H)
             as [[M _]|[[n [w0 [r0 [L [E [F0 [O Last]]]]]]]
                       |[n [ens [w0 [x [L [Qe _]]]]]]]].
           ++ lia.
           ++ left. exists (S n), w0, r0. split; [lia|]. split.
              { rewrite E. cbn [failed_attempts is_some app].
                now rewrite <- !app_assoc. }
              split; [exact F0|]. split; [exact O|].
              intros e0 Qr. now rewrite (Last e0 Qr).
           ++ discriminate Qe.
      * apply Z.ltb_ge in C. injection H as <- <- <-. left.
        exists 0, w, (inl (Exception e)). split; [lia|].
        split; [reflexivity|]. split; [exact F|]. split; [reflexivity|].
        intros _ _. lia.
    + left. apply (Done _ eq_refl); [discriminate|exact H].
    + left. apply (Done _ eq_refl); [discriminate|exact H].
Qed.

End Retry.
End RetryFacts.



(** X25: no exception of the class [Exception] other than an
    [McpError] leaves the wrapper, as long as [ensure_client] raises
    none: such an exception of the function is retried or replaced by
    an [McpError].  An [McpError] and an exception outside [Exception]
    (a cancellation, an interrupt, an exit) are not caught: the first
    call that raises one ends the attempts, and it leaves the wrapper
    as it is. *)
Theorem retry_raises_mcp_errors (W T : Type)
    (func : W -> W * (Server.raised + T))
    (ensure_client : option (W -> W * (Server.raised + unit)))
    (retry_count : Z) (w : W) :
  (forall w' log x,
     (forall ensure w0 e, ensure_client = Some ensure ->
                          snd (ensure w0) <> inl (Server.Exception e)) ->
     Server.with_retry func ensure_client retry_count w = (w', log, inl x) ->
     forall e, x <> Server.Exception e)
  /\ (forall w1 x,
        (forall e, x <> Server.Exception e) ->
        func w = (w1, inl x) -> (1 <= retry_count)%Z ->
        Server.with_retry func ensure_client retry_count w
        = (w1, [Server.Called], inl x)).
Proof.
  split.
  - intros w' log x E H e ->.
    unfold Server.with_retry, Server.range in H.
    destruct (@RetryFacts.attempts_shape W T func ensure_client retry_count
                (Z.to_nat retry_count) 0 None w [] w' log _ ltac:(lia) H)
      as [[_ [_ [_ Q]]]|[[n [w0 [r [_ [_ [_ [Q _]]]]]]]
                        |[n [ens [w0 [x [_ [Qe [_ [F Q]]]]]]]]]].
    + discriminate Q.
    + destruct r as [[c|e0|b]|v]; discriminate Q.
    + injection Q as <-. apply (E ens w0 e Qe). now rewrite F.
  - intros w1 x N F R. unfold Server.with_retry, Server.range.
    destruct (Z.to_nat retry_count) as [|m] eqn:M; [lia|].
    cbn [seq map Server.attempts]. rewrite F.
    destruct x as [c|e|b]; [reflexivity| |reflexivity].
    now destruct (N e).
Qed.

Lemma retry_raises_mcp_errors_witness :
  Server.with_retry (T:=nat)
    (fun n : nat => (S n, inl (Server.BaseException Server.CancelledError)))
    None 3 0
  = (1, [Server.Called], inl (Server.BaseException Server.CancelledError)).
Proof.
  apply (proj2 (@retry_raises_mcp_errors nat nat
                  (fun n : nat => (S n, inl (Server.BaseException Server.CancelledError)))
                  None 3 0)).
  - discriminate.
  - reflexivity.
  - lia.
Defined.



(** ** From blocks to text and back *)

Module BackFacts.
Import PyFacts ParseFacts RoundTripFacts.

Lemma document_lines (items : list (marker * str)) (k : nat) :
  flat_map item_lines (lines_document k items) = text_lines k items.
Proof.
  revert k. induction items as [|[m t] rest IH]; intros k; [reflexivity|].
  cbn [lines_document text_lines flat_map]. 
  assert (item_lines (Line [] match m with Num _ => Num (k + 1) | _ => m end t [])
          = [match m with
             | Num _ => str_of_nat (k + 1) ++ lit ". " ++ t
             | _ => marker_text m ++ t
             end]) as ->.
  { cbn [item_lines app]. rewrite app_nil_r.
    destruct m; try reflexivity. cbn [marker_text]. now rewrite <- app_assoc. }
  cbn [app]. f_equal.
  destruct rest as [|[m' t'] rest']; [reflexivity|].
  destruct (same_list m m').
  - apply IH.
  - cbn [flat_map item_lines app]. f_equal. apply IH.
Qed.

Lemma document_blocks (items : list (marker * str)) (k : nat) :
  doc_blocks (lines_document k items) = map text_item_block items.
Proof.
  revert k. induction items as [|[m t] rest IH]; intros k; [reflexivity|].
  unfold doc_blocks in *. cbn [lines_document flat_map map].
  assert (item_blocks (Line [] match m with Num _ => Num (k + 1) | _ => m end t [])
          = [text_item_block (m, t)]) as -> by (destruct m; reflexivity).
  cbn [app]. f_equal.
  destruct rest as [|[m' t'] rest']; [reflexivity|].
  destruct (same_list m m').
  - apply IH.
  - cbn [flat_map item_blocks app]. apply IH.
Qed.

Lemma document_wf (items : list (marker * str)) (k : nat) :
  forallb line_item items = true ->
  forallb wf_item (lines_document k items) = true.
Proof.
  revert k. induction items as [|[m t] rest IH]; intros k H; [reflexivity|].
  cbn [forallb] in H. apply andb_true_iff in H. destruct H as [H Hr].
  unfold line_item in H. cbn [fst snd] in H.
  apply andb_true_iff in H. destruct H as [Ht Hl].
  cbn [lines_document forallb].
  assert (wf_item (Line [] match m with Num _ => Num (k + 1) | _ => m end t [])
          = true) as ->.
  { cbn [wf_item]. rewrite Ht. cbn [andb].
    change (wf_pad []) with true. cbn [andb].
    destruct m; try reflexivity; exact Hl. }
  cbn [andb].
  destruct rest as [|[m' t'] rest']; [reflexivity|].
  destruct (same_list m m').
  - now apply IH.
  - cbn [forallb]. change (wf_item (Blank [])) with true. cbn [andb]. now apply IH.
Qed.

Lemma line_item_tight (items : list (marker * str)) :
  forallb line_item items = true ->
  Forall (fun it => tight (snd it) = true) items.
Proof.
  intros H. apply Forall_forall. intros it I.
  rewrite forallb_forall in H. specialize (H it I).
  unfold line_item in H. apply andb_true_iff in H. destruct H as [H _].
  now destruct (wf_text_facts _ H).
Qed.

(** The parser on the lines of a document, none of them empty. *)
Lemma parse_document (doc : list item) :
  doc <> [] -> forallb wf_item doc = true ->
  parse_markdown_to_blocks (render doc) = Ok (doc_blocks doc).
Proof.
  intros N W. rewrite ParserFacts.parse_unfold. unfold render.
  rewrite split_lines.
  - destruct (@parse_doc doc W 0 parser_init eq_refl) as [st [-> [B C]]].
    cbn [rbind]. now rewrite C, B.
  - destruct doc as [|[| |] doc']; [congruence| | |]; discriminate.
  - now apply doc_lines_free.
Qed.

End BackFacts.

(** X27: the block that the parser makes of a line with a heading,
    bullet, numeral or quote mark, or of a paragraph, is the block that
    [create_rich_text_block] of the block client makes of the text and
    the kind; for a bullet it is the block of
    [create_bulleted_list_block]. *)
Theorem parsed_line_is_built (normalize_url : str -> str) (m : marker)
    (text : str) :
  wf_text text = true -> wf_lead [] m text = true ->
  (forall checked, m <> Todo checked) ->
  parse_markdown_to_blocks (marker_text m ++ text)
  = Ok [BlockBuilders.create_rich_text_block normalize_url text None None
          (BlockTypes.value (marker_type m))]
  /\ (m = Bullet ->
      parse_markdown_to_blocks (marker_text m ++ text)
      = Ok [BlockBuilders.create_bulleted_list_block normalize_url text None]).
Proof.
  intros Wt Wl N.
  assert (parse_markdown_to_blocks (marker_text m ++ text)
          = Ok [BlockBuilders.create_rich_text_block normalize_url text None None
                  (BlockTypes.value (marker_type m))]) as K;
    [|split; [exact K|intros ->; exact K]].
  assert (forallb wf_item [Line [] m text []] = true) as W.
  { cbn [forallb wf_item]. rewrite Wt, Wl. reflexivity. }
  pose proof (@BackFacts.parse_document [Line [] m text []]
                ltac:(discriminate) W) as P.
  unfold render in P. cbn [flat_map item_lines app join] in P.
  rewrite app_nil_r in P. rewrite P. f_equal.
  destruct m as [| | | |n|c| |]; try reflexivity.
  now destruct (N c).
Qed.

Lemma parsed_line_is_built_witness :
  parse_markdown_to_blocks (lit "## Plan")
  = Ok [BlockBuilders.create_rich_text_block (fun url => url) (lit "Plan")
          None None (lit "heading_2")].
Proof.
  apply (@parsed_line_is_built (fun url => url) H2 (lit "Plan"));
    [reflexivity|reflexivity|discriminate].
Defined.

(** X28: blocks of text go to markdown and back unchanged: headings,
    bullets, numbered items, to_do items with their state, quotes and
    paragraphs whose text could stand on a line are serialized to a
    text that parses to the same blocks. *)
Theorem text_blocks_survive (items : list (marker * str)) :
  forallb line_item items = true ->
  exists markdown,
    blocks_to_markdown (map text_item_block items) = Ok markdown
    /\ parse_markdown_to_blocks markdown = Ok (map text_item_block items).
Proof.
  intros H. exists (join [newline] (text_lines 0 items)). split.
  - apply SerializerFacts.serialized_text. now apply BackFacts.line_item_tight.
  - destruct items as [|it rest] eqn:E; [reflexivity|]. rewrite <- E in *.
    rewrite <- (BackFacts.document_lines items 0),
      <- (BackFacts.document_blocks items 0).
    apply BackFacts.parse_document.
    + rewrite E. destruct it as [m t]. discriminate.
    + now apply BackFacts.document_wf.
Qed.

Lemma text_blocks_survive_witness :
  exists markdown,
    blocks_to_markdown
      (map text_item_block
         [(H1, lit "Plan"); (Num 0, lit "first"); (Num 0, lit "second");
          (Todo true, lit "done"); (Plain, lit "the end")])
    = Ok markdown
    /\ parse_markdown_to_blocks markdown
       = Ok (map text_item_block
               [(H1, lit "Plan"); (Num 0, lit "first"); (Num 0, lit "second");
                (Todo true, lit "done"); (Plain, lit "the end")]).
Proof.
  apply text_blocks_survive. reflexivity.
Defined.

(** ** What the parser makes, and the serializer takes *)

Module ShapeFacts.
Import PyFacts ParseFacts StripFacts RoundTripFacts.

Lemma text_shape (ty : BlockType) (m : marker) (c : str) (b : json) :
  ty <> CODE -> marker_type m = ty ->
  create_block c (BlockTypes.value ty) None
    (match marker_extra m with [] => None | e => Some e end) = Ok b ->
  b = text_item_block (m, strip c).
Proof.
  intros N M H. apply BuilderFacts.text_block_iff in H.
  - destruct H as [bt [_ [_ [_ [_ ->]]]]]. subst ty.
    destruct m as [| | | |n|[]| |]; reflexivity.
  - destruct ty; try discriminate. contradiction.
Qed.

Ltac shaped m :=
  match goal with
  | H : create_block (strip ?x) _ None _ = Ok ?b |- _ =>
      exists m, (strip (strip x));
      apply (@text_shape (marker_type m) m (strip x) b);
      [discriminate|reflexivity|exact H]
  end.

(** A line outside a fence becomes a block of text. *)
Lemma line_block_shape (line : str) (b : json) :
  line_block line = Ok b -> exists m t, b = text_item_block (m, t).
Proof.
  unfold line_block. intros H.
  destruct (startswith (lit "# ") line); [shaped H1|].
  destruct (startswith (lit "## ") line); [shaped H2|].
  destruct (startswith (lit "### ") line); [shaped H3|].
  destruct (startswith (lit "- ") line); [shaped Bullet|].
  destruct (numbered_rest line) as [rest|]; [shaped (Num 0)|].
  destruct (startswith (lit "[ ] ") line); [shaped (Todo false)|].
  destruct (startswith (lit "[x] ") line); [shaped (Todo true)|].
  destruct (startswith (lit "> ") line); [shaped Quoted|].
  shaped Plain.
Qed.

(** A closed fence becomes one of the three code blocks. *)
Lemma code_shape (language : option str) (content : str) (b : json) :
  create_block content (BlockTypes.value CODE) None
    (Some match language with
          | Some ((_ :: _) as l) => [(lit "language", JStr l)]
          | _ => []
          end) = Ok b ->
  parser_block b.
Proof.
  unfold create_block.
  replace (negb (truthy (JStr content))
           && negb (str_eqb (BlockTypes.value CODE) (BlockTypes.value CODE)))
    with false by (now rewrite andb_comm).
  change (BlockTypes.of_value (BlockTypes.value CODE)) with (Some CODE).
  cbv iota beta. cbn [rbind].
  change (BlockTypes.eqb CODE CODE) with true. cbv iota.
  destruct language as [[|c l]|].
  - cbn [rbind]. destruct content as [|x content'].
    + intros [= <-]. now do 3 right.
    + intros [= <-]. right. left. exists [], (x :: content'). now split.
  - change (Dict.get (lit "language") [(lit "language", JStr (c :: l))])
      with (Some (JStr (c :: l))).
    cbv iota.
    destruct (create_rich_text (JStr (c :: l)) None None) as [e|rt] eqn:R;
      [discriminate|].
    apply BuilderFacts.rich_text_iff in R.
    destruct R as [s [Es [_ [_ [_ ->]]]]]. injection Es as <-.
    cbn [rbind]. destruct content as [|x content'].
    + intros [= <-]. right. right. left. exists (c :: l). now split.
    + intros [= <-]. right. left. exists (c :: l), (x :: content'). now split.
  - cbn [rbind]. destruct content as [|x content'].
    + intros [= <-]. now do 3 right.
    + intros [= <-]. right. left. exists [], (x :: content'). now split.
Qed.

Lemma parse_line_shapes (i : nat) (raw : str) (st st' : parser_state) :
  parse_line i raw st = Ok st' ->
  Forall parser_block (blocks st) -> Forall parser_block (blocks st').
Proof.
  unfold parse_line. intros H F.
  destruct (negb (truthy (JStr (rstrip raw))) && negb (in_code_block st)).
  { now injection H as <-. }
  destruct (startswith fence (rstrip raw)).
  - destruct (negb (in_code_block st)).
    + now injection H as <-.
    + destruct (create_block _ _ _ _) as [e|b] eqn:C; [discriminate H|].
      cbn [rbind] in H. injection H as <-. cbn [blocks].
      apply Forall_app. split; [exact F|]. constructor; [|constructor].
      exact (code_shape _ _ C).
  - destruct (in_code_block st).
    + now injection H as <-.
    + destruct (line_block (rstrip raw)) as [[]|b] eqn:L; try discriminate H.
      injection H as <-. cbn [blocks].
      apply Forall_app. split; [exact F|]. constructor; [|constructor].
      left. exact (line_block_shape _ L).
Qed.

Lemma parse_lines_shapes (lines : list str) (i : nat) (st st' : parser_state) :
  parse_lines i lines st = Ok st' ->
  Forall parser_block (blocks st) -> Forall parser_block (blocks st').
Proof.
  revert i st. induction lines as [|raw rest IH]; intros i st H F.
  - now injection H as <-.
  - cbn [parse_lines] in H.
    destruct (parse_line i raw st) as [e|s1] eqn:P; [discriminate H|].
    cbn [rbind] in H. apply (IH _ _ H). exact (parse_line_shapes _ _ _ P F).
Qed.

Lemma parser_block_has_type (b : json) : parser_block b -> has_type b.
Proof.
  intros [[m [t ->]]|[[l [c [_ ->]]]|[[l [_ ->]]| ->]]]; eexists; reflexivity.
Qed.

(** One turn of the loop on a code block with a language tag only. *)
Lemma step_language_only (language : str) (total : nat) (tl : list json)
    (k : nat) (md : list json) :
  exists sep,
    (sep = [] \/ sep = [JStr []]) /\
    to_markdown_loop total (language_only_block language :: tl) k md
    = to_markdown_loop total tl k
        (md ++ [JStr (fence ++ language); JStr (strip language); JStr fence] ++ sep).
Proof.
  destruct tl as [|next tl']; simpl; pick_separator.
Qed.

Lemma step_empty_code (total : nat) (tl : list json) (k : nat) (md : list json) :
  to_markdown_loop total (empty_code_block :: tl) k md
  = Err (KeyError (S_ "rich_text")).
Proof. reflexivity. Qed.

Lemma not_empty_code (b : json) :
  (exists m t, b = text_item_block (m, t))
  \/ (exists language content,
        truthy (JStr content) = true /\ b = code_block language content)
  \/ (exists language, language <> [] /\ b = language_only_block language) ->
  b <> empty_code_block.
Proof.
  intros [[m [t ->]]|[[l [c [T ->]]]|[l [N ->]]]].
  - destruct m as [| | | |n|[]| |]; discriminate.
  - destruct l; [destruct c; [discriminate T|]|]; discriminate.
  - discriminate.
Qed.

(** The loop of the serializer on blocks of the parser. *)
Lemma loop_parser_blocks (bs : list json) :
  Forall parser_block bs ->
  forall (total k : nat) (acc : list str),
  (In empty_code_block bs /\
   to_markdown_loop total bs k (map JStr acc) = Err (KeyError (S_ "rich_text")))
  \/ (~ In empty_code_block bs /\
      exists parts,
        to_markdown_loop total bs k (map JStr acc) = Ok (map JStr (acc ++ parts))).
Proof.
  induction 1 as [|b bs P F IH]; intros total k acc.
  - right. split; [now intros []|]. exists []. cbn. now rewrite app_nil_r.
  - assert (Forall has_type bs) as Ht.
    { apply Forall_forall. intros x I. apply parser_block_has_type.
      rewrite Forall_forall in F. now apply F. }
    assert (forall k' line,
              (exists sep, (sep = [] \/ sep = [JStr []]) /\
                 to_markdown_loop total (b :: bs) k (map JStr acc)
                 = to_markdown_loop total bs k' (map JStr acc ++ map JStr line ++ sep)) ->
              b <> empty_code_block ->
              (In empty_code_block (b :: bs) /\
               to_markdown_loop total (b :: bs) k (map JStr acc)
               = Err (KeyError (S_ "rich_text")))
              \/ (~ In empty_code_block (b :: bs) /\
                  exists parts,
                    to_markdown_loop total (b :: bs) k (map JStr acc)
                    = Ok (map JStr (acc ++ parts)))) as K.
    { intros k' line [sep [Hs E]] N.
      destruct (separator_strings Hs) as [sep' [-> _]].
      rewrite <- !map_app in E.
      destruct (IH total k' (acc ++ line ++ sep')) as [[I R]|[I [parts R]]].
      - left. split; [now right|]. now rewrite E.
      - right. split.
        + intros [Q|Q]; [now apply N|now apply I].
        + exists ((line ++ sep') ++ parts). rewrite E, R.
          now rewrite <- !app_assoc. }
    destruct P as [[m [t ->]]|[[l [c [T ->]]]|[[l [N ->]]| ->]]].
    + destruct (@step_text m t total bs k (map JStr acc) Ht) as [sep [Hs E]].
      apply (K (match m with Num _ => k + 1 | _ => 0 end)
               [match m with
                | Num _ => str_of_nat (k + 1) ++ lit ". " ++ t
                | _ => marker_text m ++ t
                end]).
      * exists sep. split; [exact Hs|exact E].
      * apply not_empty_code. left. now exists m, t.
    + destruct (@step_code l c total bs k (map JStr acc) T) as [sep [Hs E]].
      apply (K k [fence ++ l; c; fence]).
      * exists sep. split; [exact Hs|exact E].
      * apply not_empty_code. right. left. now exists l, c.
    + destruct (@step_language_only l total bs k (map JStr acc)) as [sep [Hs E]].
      apply (K k [fence ++ l; strip l; fence]).
      * exists sep. split; [exact Hs|exact E].
      * apply not_empty_code. right. right. now exists l.
    + left. split; [now left|]. apply step_empty_code.
Qed.

End ShapeFacts.

(** X29: what the parser accepts can be turned back into text unless
    it holds an empty code block: for the blocks of any text that
    parses, [blocks_to_markdown] returns exactly when none of them is
    the code block of a fence pair with neither language tag nor
    content, and fails on a missing [rich_text] otherwise. *)
Theorem parsed_blocks_serialize (markdown : str) (parsed : list json) :
  parse_markdown_to_blocks markdown = Ok parsed ->
  ((exists text, blocks_to_markdown parsed = Ok text)
   <-> ~ In empty_code_block parsed)
  /\ (In empty_code_block parsed ->
      blocks_to_markdown parsed = Err (KeyError (S_ "rich_text"))).
Proof.
  intros H. destruct (ParserFacts.parse_ok _ H) as [st [P [_ B]]].
  assert (Forall parser_block parsed) as F.
  { rewrite <- B. apply (ShapeFacts.parse_lines_shapes _ _ _ P). constructor. }
  unfold blocks_to_markdown.
  destruct (ShapeFacts.loop_parser_blocks F (length parsed) 0 [])
    as [[I R]|[I [parts R]]]; cbn [map] in R; rewrite R; cbn [rbind].
  - split; [|reflexivity]. split.
    + intros [text Q]. discriminate Q.
    + intros N. now destruct (N I).
  - split; [|intros Q; now destruct (I Q)]. split; [intros _; exact I|].
    intros _. rewrite RoundTripFacts.all_str_strings. cbn [rbind]. now eexists.
Qed.

Lemma parsed_blocks_serialize_witness :
  exists text,
    blocks_to_markdown
      [text_block HEADING_1 (lit "A") []; language_only_block (lit "py")]
    = Ok text.
Proof.
  apply (proj1 (@parsed_blocks_serialize (nl "# A|```py|```")
                  [text_block HEADING_1 (lit "A") [];
                   language_only_block (lit "py")] eq_refl)).
  intros [Q|[Q|[]]]; discriminate Q.
Defined.

(** X30: [create_subtask] sends one request on any service, to the
    children of the parent and without an anchor, whose only child is a
    to_do block that the filter of [get_subtasks] keeps. *)
Theorem created_subtask_is_flagged (srv : service) (w : world srv)
    (normalize_url : str -> str) (parent_id content : str) (checked : bool)
    (annotations : option dict) :
  exists child,
    sent (fst (BlocksAPI.create_subtask normalize_url parent_id content checked
                 annotations w))
    = sent w ++
      [mkRequest PATCH (lit "blocks/" ++ parent_id ++ lit "/children") []
         (Some (JDict [(lit "children", JList [child])]))]
    /\ child = BlocksAPI.create_todo_block normalize_url content checked
                 annotations true
    /\ BlocksAPI.is_subtask_block child = Ok true.
Proof.
  eexists. split; [|split; [reflexivity|]].
  - unfold BlocksAPI.create_subtask, BlocksAPI.append_children.
    change (100 <? 100)%Z with false. cbv iota.
    change (100 <? Z.of_nat (length [BlocksAPI.create_todo_block normalize_url
                                       content checked annotations true]))%Z
      with false.
    cbv iota. cbn [truthy]. unfold call.
    destruct (serve srv (state w) _) as [st [code body|]];
      [destruct (is_success code)|]; reflexivity.
  - destruct annotations as [[|kv a]|]; reflexivity.
Qed.
